(** * WarpBasics: wake potentials and spectral transforms

    A shallow embedding of [Scripts/CST/solver_module.py]: the spectral
    routines [FFT] and [DFT], the longitudinal wake potential
    [calc_long_WP] and the transverse wake potential [calc_trans_WP].

    Conventions of the embedding.
    - float64 values are rationals ([Q]), a float being its exact value, and
      arithmetic is exact, with one exception: the quantities that decide the
      number of points of [np.arange] (the total time [T = N*dt], the step
      [dts = 1/(2*fmax)] and the quotient [stop/step]) are rounded to the
      nearest float64 by [fl], because one unit in the last place changes
      the length of the array there.  Equality of values is [Qeq] ([==]).
    - A Python exception is a [Raise e] result.  A division of Python scalars
      by zero raises [ZeroDivisionError]; an index outside [-len, len) raises
      [IndexError]; numpy shape or size errors raise [ValueError]; reading a
      name that is bound nowhere raises [NameError].
    - numpy array divisions by zero continue with [inf]/[nan]: in the wake
      engine the model stops there with [FloatingPointError] (the behaviour
      of numpy under [np.seterr(all='raise')]); in the spectral engine the
      Parseval factor [K] is an [option], [None] being the non-finite value.
    - The library transforms [np.fft.fft] and [fftpack.rfft] compute sums of
      complex exponentials, which are not rational: their coefficient
      functions are parameters of the spectral section, and so is [np.sqrt].
    - [dx] and [dy], which [calc_trans_WP] reads without binding them, are
      parameters of its model.  The names [unit], [out_folder] and [h5_name]
      read by [calc_long_WP] and [read_Ez] are looked up in a record of the
      module namespace, where the module as it is binds none of them.  The
      content of the h5 file is an input. *)

From Stdlib Require Import QArith Qround Qabs ZArith List Lia ZifyNat Lqa Bool.
From Stdlib Require String.
Import String.StringSyntax.
Delimit Scope string_scope with string.
Import ListNotations.

Local Open Scope Q_scope.

(** ** Python and numpy primitives *)

Module Py.

Inductive exn : Set :=
| ZeroDivisionError
| IndexError
| ValueError
| OverflowError
| FloatingPointError
| NameError.

Inductive result (A : Type) : Type :=
| Ok (a : A)
| Raise (e : exn).

Arguments Ok {A} a.
Arguments Raise {A} e.

Definition bind {A B : Type} (m : result A) (k : A -> result B) : result B :=
  match m with
  | Ok a => k a
  | Raise e => Raise e
  end.

Notation "x <- m ;; k" := (bind m (fun x => k))
  (at level 61, m at next level, right associativity).
Notation "' p <- m ;; k" := (bind m (fun x => match x with p => k end))
  (at level 61, p pattern, m at next level, right associativity).

(** [int(x)] on a float: truncation toward zero. *)
Definition py_int (x : Q) : Z := Z.quot (Qnum x) (Z.pos (Qden x)).

(** [a / b] on Python floats. *)
Definition py_div (a b : Q) : result Q :=
  if Qeq_bool b 0 then Raise ZeroDivisionError else Ok (a / b).

(** [int(a / b)] on numpy floats: the quotient by zero is inf ([nan] for
    [0/0]), on which [int] raises [OverflowError] ([ValueError]). *)
Definition int_quot (a b : Q) : result Z :=
  if Qeq_bool b 0
  then if Qeq_bool a 0 then Raise ValueError else Raise OverflowError
  else Ok (py_int (a / b)).

(** [a / b] where numpy would produce inf or nan for [b = 0]. *)
Definition np_div (a b : Q) : result Q :=
  if Qeq_bool b 0 then Raise FloatingPointError else Ok (a / b).

(** [l[i]] with Python's negative indices: [-1] is the last element. *)
Definition getitem {A : Type} (l : list A) (i : Z) : result A :=
  let len := Z.of_nat (length l) in
  let j := if (i <? 0)%Z then (i + len)%Z else i in
  if ((0 <=? j)%Z && (j <? len)%Z)%bool
  then match nth_error l (Z.to_nat j) with
       | Some a => Ok a
       | None => Raise IndexError
       end
  else Raise IndexError.

(** [range(n)] as a list of integers. *)
Definition range (n : nat) : list Z := map Z.of_nat (seq 0 n).

(** [np.zeros(n)]. *)
Definition zeros (n : nat) : list Q := repeat 0 n.

(** [np.sum]. *)
Definition np_sum (l : list Q) : Q := fold_left Qplus l 0.

(** [max(z)] and [min(z)] of a sequence; [ValueError] on an empty one. *)
Definition py_max (l : list Q) : result Q :=
  match l with
  | [] => Raise ValueError
  | x :: r => Ok (fold_left (fun m y => if Qlt_le_dec m y then y else m) r x)
  end.

Definition py_min (l : list Q) : result Q :=
  match l with
  | [] => Raise ValueError
  | x :: r => Ok (fold_left (fun m y => if Qlt_le_dec y m then y else m) r x)
  end.

(** [np.linspace(start, stop, num)], endpoint included:
    [start + i*(stop-start)/(num-1)]; a single point is [start]; a negative
    [num] is a [ValueError]. *)
Definition linspace (start stop : Q) (num : Z) : result (list Q) :=
  if (num <? 0)%Z then Raise ValueError
  else
    let n := Z.to_nat num in
    match n with
    | O => Ok []
    | 1%nat => Ok [start]
    | _ =>
        let step := (stop - start) / inject_Z (num - 1) in
        Ok (map (fun i => start + inject_Z (Z.of_nat i) * step) (seq 0 n))
    end.

(** The integer nearest to [n/d] for [d > 0], the even one on a tie. *)
Definition round_half_even (n d : Z) : Z :=
  let f := (n / d)%Z in
  match (2 * (n mod d) ?= d)%Z with
  | Lt => f
  | Gt => (f + 1)%Z
  | Eq => if Z.even f then f else (f + 1)%Z
  end.

(** [n/d] over [2^e], as a fraction of integers. *)
Definition scaled (n d e : Z) : Z * Z :=
  ((n * 2 ^ Z.max 0 (- e))%Z, (d * 2 ^ Z.max 0 e)%Z).

(** The float64 nearest to a rational: 53 significant bits, ties to even.
    The exponent [e] is the one that puts [|x|/2^e] in [[2^52, 2^53)]; its
    range is not bounded (no overflow to [inf], no subnormal numbers). *)
Definition fl (x : Q) : Q :=
  let y := Qred x in
  let n := Z.abs (Qnum y) in
  let d := Z.pos (Qden y) in
  if (n =? 0)%Z then 0
  else
    let e0 := (Z.log2 n - Z.log2 d - 53)%Z in
    let e := if (2 ^ 53 * snd (scaled n d e0) <=? fst (scaled n d e0))%Z
             then (e0 + 1)%Z else e0 in
    let m := (Z.sgn (Qnum y) * round_half_even (fst (scaled n d e)) (snd (scaled n d e)))%Z in
    Qred (if (0 <=? e)%Z then inject_Z (m * 2 ^ e) else m # Z.to_pos (2 ^ (- e))).

(** [np.arange(0, stop, step)] on floats: [ceil(stop/step)] points
    [i*step], where the quotient is the float64 one (no point when that
    count is not positive). *)
Definition arange0 (stop step : Q) : list Q :=
  let n := Z.to_nat (Qceiling (fl (stop / step))) in
  map (fun i => inject_Z (Z.of_nat i) * step) (seq 0 n).

(** One evaluation of [np.interp] at [x >= xp[0]]: the segment
    [xp[j] <= x < xp[j+1]] is looked for from the left (numpy searches by
    bisection, which finds the same segment when [xp] is increasing, the
    only case numpy specifies); on the last point and beyond, [fp[-1]]. *)
Fixpoint interp_from (x : Q) (xp fp : list Q) : Q :=
  match xp, fp with
  | x0 :: ((x1 :: _) as xp'), f0 :: ((f1 :: _) as fp') =>
      if Qlt_le_dec x x1
      then if Qeq_bool x x0 then f0
           else (f1 - f0) / (x1 - x0) * (x - x0) + f0
      else interp_from x xp' fp'
  | _, f0 :: _ => f0
  | _, [] => 0
  end.

(** [np.interp(x, xp, fp)] on an array [x]: left of [xp[0]] the value is
    [fp[0]].  Empty or mismatched sample arrays raise [ValueError]. *)
Definition interp (x xp fp : list Q) : result (list Q) :=
  match xp, fp with
  | x0 :: _, f0 :: _ =>
      if Nat.eqb (length xp) (length fp)
      then Ok (map (fun v => if Qlt_le_dec v x0 then f0 else interp_from v xp fp) x)
      else Raise ValueError
  | _, _ => Raise ValueError
  end.

(** Boolean-mask indexing [a[mask]]. *)
Fixpoint bool_index {A : Type} (a : list A) (mask : list bool) : list A :=
  match a, mask with
  | x :: a', b :: mask' => if b then x :: bool_index a' mask' else bool_index a' mask'
  | _, _ => []
  end.

(** [a[i] = v] on an array; [IndexError] outside [-len, len). *)
Definition setitem {A : Type} (l : list A) (i : Z) (v : A) : result (list A) :=
  let len := Z.of_nat (length l) in
  let j := if (i <? 0)%Z then (i + len)%Z else i in
  if ((0 <=? j)%Z && (j <? len)%Z)%bool
  then Ok (firstn (Z.to_nat j) l ++ v :: skipn (S (Z.to_nat j)) l)
  else Raise IndexError.

(** A loop [for x in xs: acc = body(acc, x)] whose body may raise. *)
Fixpoint for_each {A S : Type} (xs : list A) (body : S -> A -> result S) (acc : S)
  : result S :=
  match xs with
  | [] => Ok acc
  | x :: xs' => acc' <- body acc x ;; for_each xs' body acc'
  end.

(** [[f(x) for x in xs]] where [f] may raise. *)
Fixpoint map_result {A B : Type} (f : A -> result B) (xs : list A) : result (list B) :=
  match xs with
  | [] => Ok []
  | x :: xs' => y <- f x ;; ys <- map_result f xs' ;; Ok (y :: ys)
  end.

(** Reading a name of the module namespace: [NameError] when nothing binds
    it. *)
Definition global {A : Type} (v : option A) : result A :=
  match v with
  | Some a => Ok a
  | None => Raise NameError
  end.

(** Orderings of an array of coordinates or frequencies. *)
Definition strictly_increasing (l : list Q) : Prop :=
  forall i j : nat, (i < j < length l)%nat -> nth i l 0 < nth j l 0.


End Py.

Import Py.

(** ** Wake potential engine *)

Module Wake.

(** [scipy.constants.c], the speed of light in m/s. *)
Definition c : Q := 299792458.

(** The simulation metadata read by [data.get]. *)
Record metadata : Type := {
  t : list Q;          (* simulated time [s] *)
  z : list Q;          (* z axis values [m] *)
  init_time : Q;       (* injection time [s] *)
  q : Q                (* beam charge [C] *)
}.

(** One field snapshot [Ez[x, y, z]]; [hf] is the list of snapshots in the
    order of [dataset]. *)
Definition snapshot : Type := list (list (list Q)).

Definition i0 : Z := 1.
Definition j0 : Z := 1.

(** [Wake_length=nt*dt*c - (zmax-zmin) - t_inj*c] *)
Definition Wake_length (nt : nat) (dt zmax zmin t_inj : Q) : Q :=
  inject_Z (Z.of_nat nt) * dt * c - (zmax - zmin) - t_inj * c.

(** Lines 215-218: the coordinate [s]. *)
Definition build_s (t_inj dt wl : Q) : result (list Q) :=
  ns_neg <- int_quot t_inj dt ;;
  ns_pos <- int_quot wl (dt * c) ;;
  s_neg <- linspace (- t_inj * c) 0 ns_neg ;;
  s_pos <- linspace 0 wl ns_pos ;;
  Ok (s_neg ++ s_pos).

(** Lines 239-241: [Ezi[:, n] = np.interp(zi, z, Ez[i0+i, j0+j, :])] for every
    time step.  The model keeps [Ezi] as the list of its columns: element [n]
    is the z-profile at time step [n]. *)
Definition build_Ezi (hf : list snapshot) (zi z : list Q) (nt : nat) (i j : Z)
  : result (list (list Q)) :=
  map_result (fun n =>
    Ez <- getitem hf n ;;
    plane <- getitem Ez (i0 + i)%Z ;;
    line <- getitem plane (j0 + j)%Z ;;
    interp zi z line) (range nt).

(** [Ezi[k, it]]: row [k] of column [it]. *)
Definition Ezi_at (Ezi : list (list Q)) (k it : Z) : result Q :=
  col <- getitem Ezi it ;;
  getitem col k.

(** Line 258: [(zi[k]+s[n])/c-zmin/c-t[0]+t_inj]. *)
Definition retarded_time (zi_k s_n zmin t_0 t_inj : Q) : Q :=
  (zi_k + s_n) / c - zmin / c - t_0 + t_inj.

(** Line 262: [WP[n]=WP[n]+(Ezi[k, it])*dzi]. *)
Definition accumulate_at (Ezi : list (list Q)) (dzi : Q) (WP : list Q) (n k it : Z)
  : result (list Q) :=
  WP_n <- getitem WP n ;;
  e <- Ezi_at Ezi k it ;;
  setitem WP n (WP_n + e * dzi).

(** Lines 258-262: the body of the [k] loop, on the array [WP].  The array
    [ts] is written at [k, n] and read back at once: the model keeps the
    value only. *)
Definition k_body (Ezi : list (list Q)) (zi s : list Q) (zmin t_0 t_inj dt dzi : Q)
    (n : Z) (WP : list Q) (k : Z) : result (list Q) :=
  zi_k <- getitem zi k ;;
  s_n <- getitem s n ;;
  let ts_kn := retarded_time zi_k s_n zmin t_0 t_inj in
  if Qlt_le_dec 0 ts_kn then
    i <- int_quot ts_kn dt ;;
    let it := (i - 1)%Z in
    accumulate_at Ezi dzi WP n k it
  else Ok WP.

(** Lines 249-262: the [s] loop with its inner integral over [k]. *)
Definition s_loop (Ezi : list (list Q)) (zi s : list Q) (zmin t_0 t_inj dt dzi : Q)
    (nt : nat) (WP : list Q) : result (list Q) :=
  for_each (range (length s))
    (fun WP n => for_each (range nt) (k_body Ezi zi s zmin t_0 t_inj dt dzi n) WP)
    WP.

(** [WP_3d[a, b, :] = WP] on the 3x3 grid of slices. *)
Definition set_slice (WP_3d : list (list (list Q))) (a b : Z) (WP : list Q)
  : result (list (list (list Q))) :=
  row <- getitem WP_3d a ;;
  old <- getitem row b ;;
  if Nat.eqb (length old) (length WP)
  then row' <- setitem row b WP ;; setitem WP_3d a row'
  else Raise ValueError.

(** Line 264: [WP=WP/(q*1e12)]. *)
Definition normalize (q : Q) (WP : list Q) : result (list Q) :=
  map_result (fun w => np_div w (q * 1000000000000)) WP.

(** The quantities derived before the loops (lines 196-225). *)
Record setup : Type := {
  nt : nat;
  dt : Q;
  zmin : Q;
  zi : list Q;
  dzi : Q;
  s : list Q;
  t_0 : Q
}.

Definition derive (data : metadata) : result setup :=
  let t := t data in
  let z := z data in
  let t_inj := init_time data in
  let nt := length t in
  t_2 <- getitem t 2 ;;
  t_1 <- getitem t 1 ;;
  let dt := t_2 - t_1 in
  zmax <- py_max z ;;
  zmin <- py_min z ;;
  zi <- linspace zmin zmax (Z.of_nat nt) ;;
  zi_2 <- getitem zi 2 ;;
  zi_1 <- getitem zi 1 ;;
  let dzi := zi_2 - zi_1 in
  let wl := Wake_length nt dt zmax zmin t_inj in
  s <- build_s t_inj dt wl ;;
  t_0 <- getitem t 0 ;;
  Ok {| nt := nt; dt := dt; zmin := zmin; zi := zi; dzi := dzi; s := s; t_0 := t_0 |}.

(** Lines 237-264 for the offset [(i, j)], from the array [WP] as it stands:
    the interpolation, the integral and the normalization. *)
Definition offset_WP (data : metadata) (hf : list snapshot) (p : setup)
    (WP : list Q) (i j : Z) : result (list Q) :=
  Ezi <- build_Ezi hf (zi p) (z data) (nt p) i j ;;
  WP <- s_loop Ezi (zi p) (s p) (zmin p) (t_0 p) (init_time data) (dt p) (dzi p) (nt p) WP ;;
  normalize (q data) WP.

(** Lines 237-266: the body of the loop over the transverse offsets.  The
    state is the pair of the arrays [WP] and [WP_3d], both bound before the
    loop (lines 227-228); [WP] is rebound at line 264 and goes on to the next
    offset. *)
Definition offset_body (data : metadata) (hf : list snapshot) (p : setup)
    (st : list Q * list (list (list Q))) (ij : Z * Z)
  : result (list Q * list (list (list Q))) :=
  let '(WP, WP_3d) := st in
  let '(i, j) := ij in
  WP <- offset_WP data hf p WP i j ;;
  WP_3d <- set_slice WP_3d (i0 + i)%Z (j0 + j)%Z WP ;;
  Ok (WP, WP_3d).

(** [for i in range(-i0,i0+1,1): for j in range(-j0,j0+1,1)] *)
Definition offsets : list (Z * Z) :=
  flat_map (fun i => map (fun j => (i, j)) [-1; 0; 1]%Z) [-1; 0; 1]%Z.

(** Lines 196-218 and 224-268 of [calc_long_WP]: the whole body but the
    call of [read_Ez] (line 194) and the two [print] calls (lines 220-221),
    on the snapshots [hf] that [read_Ez] returned.  Returns [(WP_3d, s)]. *)
Definition calc_long_WP_numeric (data : metadata) (hf : list snapshot)
  : result (list (list (list Q)) * list Q) :=
  p <- derive data ;;
  let WP := zeros (length (s p)) in
  let WP_3d := repeat (repeat (zeros (length (s p))) 3) 3 in
  '(_, WP_3d) <- for_each offsets (offset_body data hf p) (WP, WP_3d) ;;
  Ok (WP_3d, s p).

(** The names that [read_Ez] and [calc_long_WP] read from the module
    namespace.  The module binds none of them ([UNIT] is another name):
    [None] is an unbound name. *)
Record globals : Type := {
  unit : option Q;
  out_folder : option String.string;
  h5_name : option String.string
}.

(** The namespace of the module as it is. *)
Definition as_shipped : globals :=
  {| unit := None; out_folder := None; h5_name := None |}.

(** [read_Ez]: line 164 opens the file [out_folder+h5_name]; the arguments
    [filename] and [out_path] are not read.  [h5] gives, for a path, the
    outcome of lines 164-184 on the file found there: the snapshots in the
    order of [dataset], or the exception of h5py or of the loop over the
    keys. *)
Definition read_Ez (g : globals) (h5 : String.string -> result (list snapshot))
  : result (list snapshot) :=
  folder <- global (out_folder g) ;;
  name <- global (h5_name g) ;;
  h5 (String.append folder name).

(** [calc_long_WP]: returns [(WP_3d, s)].  Line 194 calls [read_Ez]; line
    220 prints [t[-1]], which exists once [t[2]] does; line 221 prints
    [Wake_length/unit], a numpy quotient, for which [unit] is looked up. *)
Definition calc_long_WP (g : globals) (h5 : String.string -> result (list snapshot))
    (data : metadata) : result (list (list (list Q)) * list Q) :=
  hf <- read_Ez g h5 ;;
  p <- derive data ;;
  _ <- global (unit g) ;;
  let WP := zeros (length (s p)) in
  let WP_3d := repeat (repeat (zeros (length (s p))) 3) 3 in
  '(_, WP_3d) <- for_each offsets (offset_body data hf p) (WP, WP_3d) ;;
  Ok (WP_3d, s p).

(** The per-offset algorithm of the specification, run on the offset
    [(i, j)] alone: interpolation, retarded-time accumulation into a zero
    array, charge normalization. *)
Definition offset_alone (data : metadata) (hf : list snapshot) (i j : Z)
  : result (list Q) :=
  p <- derive data ;;
  offset_WP data hf p (zeros (length (s p))) i j.

(** [WP_3d[i0+i, j0+j, :]] of the array that lines 196-268 build. *)
Definition slice_of (data : metadata) (hf : list snapshot) (i j : Z)
  : result (list Q) :=
  '(WP_3d, _) <- calc_long_WP_numeric data hf ;;
  row <- getitem WP_3d (i0 + i)%Z ;;
  getitem row (j0 + j)%Z.

(** Lines 288-291 at one index [n]: the nine running integrals
    [int_WP[i0+i, j0+j, n] = np.sum(WP_3d[i0+i, j0+j, 0:n])*ds], as the 3x3
    table of the entries of [int_WP] written at this [n].  [int_WP] has the
    shape of [WP_3d], so the store needs [n] inside the slice. *)
Definition int_WP_at (WP_3d : list (list (list Q))) (ds : Q) (n : nat)
  : result (list (list Q)) :=
  map_result (fun i =>
    map_result (fun j =>
      row <- getitem WP_3d (i0 + i)%Z ;;
      slice <- getitem row (j0 + j)%Z ;;
      _ <- getitem slice (Z.of_nat n) ;;
      Ok (np_sum (firstn n slice) * ds)) [-1; 0; 1]%Z) [-1; 0; 1]%Z.

Definition get2 (a : list (list Q)) (i j : Z) : result Q :=
  row <- getitem a i ;; getitem row j.

(** Lines 287-295: the body of the loop over [n], returning
    [(WPx[n], WPy[n])]. *)
Definition trans_body (dx dy : Q) (WP_3d : list (list (list Q))) (ds : Q) (n : nat)
  : result (Q * Q) :=
  int_WP <- int_WP_at WP_3d ds n ;;
  xp <- get2 int_WP (i0 + 1) j0 ;;
  xm <- get2 int_WP (i0 - 1) j0 ;;
  WPx_n <- np_div (- (xp - xm)) (2 * dx) ;;
  yp <- get2 int_WP i0 (j0 + 1) ;;
  ym <- get2 int_WP i0 (j0 - 1) ;;
  WPy_n <- np_div (- (yp - ym)) (2 * dy) ;;
  Ok (WPx_n, WPy_n).

(** [calc_trans_WP]: returns [(WPx, WPy)].  [dx] and [dy] are free names in
    the source and parameters here. *)
Definition calc_trans_WP (dx dy : Q) (s : list Q) (WP_3d : list (list (list Q)))
  : result (list Q * list Q) :=
  s_2 <- getitem s 2 ;;
  s_1 <- getitem s 1 ;;
  let ds := s_2 - s_1 in
  r <- map_result (trans_body dx dy WP_3d ds) (seq 0 (length s)) ;;
  Ok (map fst r, map snd r).

(** A field without transverse dependence: the same slice [w] at the nine
    offsets. *)
Definition uniform_WP_3d (w : list Q) : list (list (list Q)) :=
  repeat (repeat w 3) 3.

(** The shape [(3, 3, m)] of a numpy array [WP_3d], on nested lists. *)
Definition has_shape_3_3 (WP_3d : list (list (list Q))) (m : nat) : Prop :=
  length WP_3d = 3%nat /\
  Forall (fun row => length row = 3%nat /\ Forall (fun slice => length slice = m) row)
    WP_3d.

(** A field snapshot that the loops of [calc_long_WP] can read: at least 3 cells along
    x and along y, and z-lines of the length [nz] of the axis [z]. *)
Definition snapshot_ok (nz : nat) (Ez : snapshot) : Prop :=
  (3 <= length Ez)%nat /\
  Forall (fun plane => (3 <= length plane)%nat /\
                       Forall (fun line => length line = nz) plane) Ez.

(** The fields that vanish everywhere. *)
Definition is_zero (x : Q) : Prop := x == 0.

Definition zero_field (hf : list snapshot) : Prop :=
  Forall (Forall (Forall (Forall is_zero))) hf.

(** [np.sum(WP_3d[a, b, 0:n])*ds] on nested lists (zero outside the grid). *)
Definition running_integral (WP_3d : list (list (list Q))) (a b : nat) (ds : Q) (n : nat)
  : Q :=
  np_sum (firstn n (nth b (nth a WP_3d []) [])) * ds.

End Wake.


(** ** Spectral transform engine *)

Module Spectral.

(** Complex numbers as pairs (real part, imaginary part). *)
Definition C : Type := (Q * Q)%type.

(** [abs(z)**2.0] *)
Definition Cabs2 (z : C) : Q := fst z * fst z + snd z * snd z.

(** [k*z] and [z/d] for a real [k], [d]. *)
Definition Cscale (k : Q) (z : C) : C := (k * fst z, k * snd z).
Definition Cdivq (z : C) (d : Q) : C := (fst z / d, snd z / d).

(** Element-wise operation of two arrays under numpy broadcasting. *)
Definition np_zip {A B D : Type} (f : A -> B -> D) (a : list A) (b : list B)
  : result (list D) :=
  if Nat.eqb (length a) (length b)
  then Ok (map (fun p => f (fst p) (snd p)) (combine a b))
  else match a, b with
       | [x], _ => Ok (map (f x) b)
       | _, [y] => Ok (map (fun x => f x y) a)
       | _, _ => Raise ValueError
       end.

(** [Z[1:] = v] *)
Definition set_tail {A : Type} (Z : list A) (v : list A) : result (list A) :=
  if Nat.eqb (length v) (length (tl Z))
  then Ok (firstn 1 Z ++ v)
  else match v with
       | [x] => Ok (firstn 1 Z ++ map (fun _ => x) (tl Z))
       | _ => Raise ValueError
       end.

(** [if fmax is None: fmax=1/dt] *)
Definition default_fmax (fmax : option Q) (dt : Q) : result Q :=
  match fmax with
  | Some f => Ok f
  | None => py_div 1 dt
  end.

(** The two halves of [np.fft.fftfreq]: [[0, 1, ..., (n-1)//2]] and
    [[-(n//2), ..., -1]]. *)
Definition fftfreq_pos (n : nat) : list Z :=
  map Z.of_nat (seq 0 (Z.to_nat ((Z.of_nat n - 1) / 2 + 1))).

Definition fftfreq_neg (n : nat) : list Z :=
  map (fun i => (- (Z.of_nat n / 2) + Z.of_nat i)%Z) (seq 0 (Z.to_nat (Z.of_nat n / 2))).

(** [np.fft.fftfreq(n, d)]:
    [[0, 1, ..., (n-1)//2, -(n//2), ..., -1] / (d*n)]. *)
Definition fftfreq (n : nat) (d : Q) : result (list Q) :=
  val <- py_div 1 (inject_Z (Z.of_nat n) * d) ;;
  Ok (map (fun k => inject_Z k * val) (fftfreq_pos n ++ fftfreq_neg n)).

(** [scipy.fftpack.rfftfreq(n, d)]:
    [[0, 1, 1, 2, 2, ...] / (d*n)], entry [i] being [((i+1)//2)/(n*d)]. *)
Definition rfftfreq (n : nat) (d : Q) : result (list Q) :=
  let nd := inject_Z (Z.of_nat n) * d in
  if Qeq_bool nd 0 then Raise FloatingPointError
  else Ok (map (fun i => inject_Z (Z.of_nat i / 2) / nd) (seq 1 n)).

(** [np.sum(abs(Xs)**2.0)] for a real array. *)
Definition energy (Xs : list Q) : Q := np_sum (map (fun x => Qabs x * Qabs x) Xs).

Section Transforms.

(** Coefficient [k] of [np.fft.fft(Xs)]. *)
Variable fft_coef : list Q -> nat -> C.
(** Entry [k] of the packed array [fftpack.rfft(Xs, Nf)]:
    [[y(0), Re y(1), Im y(1), ...]]. *)
Variable rfft_coef : list Q -> nat -> nat -> Q.
(** [np.sqrt] on a non-negative number. *)
Variable np_sqrt : Q -> Q.

(** [np.fft.fft(Xs)]: as many coefficients as samples; no samples is a
    [ValueError]. *)
Definition np_fft (Xs : list Q) : result (list C) :=
  match Xs with
  | [] => Raise ValueError
  | _ => Ok (map (fft_coef Xs) (seq 0 (length Xs)))
  end.

(** [fftpack.rfft(Xs, Nf)]: [Nf] packed real coefficients; [Nf < 1] is a
    [ValueError]. *)
Definition fftpack_rfft (Xs : list Q) (Nf : Z) : result (list Q) :=
  if (Nf <? 1)%Z then Raise ValueError
  else Ok (map (rfft_coef Xs (Z.to_nat Nf)) (seq 0 (Z.to_nat Nf))).

(** [K=np.sqrt(Et/Ef)]; [None] is numpy's non-finite result for [Ef = 0]. *)
Definition parseval_K (Et Ef : Q) : option Q :=
  if Qeq_bool Ef 0 then None else Some (np_sqrt (Et / Ef)).

(** Lines 31-40 of [FFT]: the resampling.  Returns [(Xs, Ns, dts)].  [T]
    and [dts] are the float64 values, which [np.arange] divides. *)
Definition FFT_resample (Xt : list Q) (dt fmax : Q) : result (list Q * Q * Q) :=
  let N := Z.of_nat (length Xt) in
  let T := fl (inject_Z N * dt) in
  fres <- py_div 1 T ;;
  dts <- py_div 1 (2 * fmax) ;;
  let dts := fl dts in
  t <- linspace 0 T N ;;
  let ts := arange0 T dts in
  Xs <- interp ts t Xt ;;
  step <- py_div dts dt ;;
  Ns <- py_div (inject_Z N) step ;;
  Ok (Xs, Ns, dts).

(** Lines 89-98 of [DFT]: the resampling.  Returns [(Xs, Ns, dts)].  The
    grid [t] has [ceil(T/dt)] points in float64, which is [N] or [N+1]:
    [np.interp] raises [ValueError] when it is not the length of [Xt]. *)
Definition DFT_resample (Xt : list Q) (dt fmax : Q) : result (list Q * Q * Q) :=
  let N := Z.of_nat (length Xt) in
  let T := fl (inject_Z N * dt) in
  fres <- py_div 1 T ;;
  dts <- py_div 1 (2 * fmax) ;;
  let dts := fl dts in
  let t := arange0 T dt in
  let ts := arange0 T dts in
  Xs <- interp ts t Xt ;;
  step <- py_div dts dt ;;
  Ns <- py_div (inject_Z N) step ;;
  Ok (Xs, Ns, dts).

(** Lines 43-47 of [FFT]: the zero padding. *)
Definition zero_pad (flag_zeropadding : bool) (r Ns : Q) (Xs : list Q)
  : result (list Q) :=
  if flag_zeropadding then
    let pad := py_int (r * Ns) in
    if (pad <? 0)%Z then Raise ValueError
    else Ok ((zeros (Z.to_nat pad) ++ Xs) ++ zeros (Z.to_nat pad))
  else Ok Xs.

(** The signal handed to [np.fft.fft] in [FFT], with [Ns] and [dts]. *)
Definition FFT_signal (Xt : list Q) (dt : Q) (fmax : option Q) (r : Q)
    (flag_zeropadding : bool) : result (list Q * Q * Q) :=
  fmax <- default_fmax fmax dt ;;
  '(Xs, Ns, dts) <- FFT_resample Xt dt fmax ;;
  Xs <- zero_pad flag_zeropadding r Ns Xs ;;
  Ok (Xs, Ns, dts).

(** Lines 50-73 of [FFT], from the signal that is transformed. *)
Definition FFT_spectrum (Xs : list Q) (Ns dts : Q) : result (list (option C) * list Q) :=
  Xfft <- np_fft Xs ;;
  ffft <- fftfreq (length Xfft) dts ;;
  let mask := map (fun x => Qle_bool 0 x) ffft in
  let Xf := map (fun x => Cdivq (Cscale 2 x) Ns) (bool_index Xfft mask) in
  let f := bool_index ffft mask in
  let Et := energy Xs in
  let Ef := np_sum (map Cabs2 Xfft) / inject_Z (Z.of_nat (length ffft)) in
  let K := parseval_K Et Ef in
  Ok (map (fun x => option_map (fun k => Cscale k x) K) Xf, f).

(** [FFT(Xt, dt, fmax, r, flag_zeropadding)]: returns [(Xf, f)]; a [None]
    amplitude is a non-finite one. *)
Definition FFT (Xt : list Q) (dt : Q) (fmax : option Q) (r : Q)
    (flag_zeropadding : bool) : result (list (option C) * list Q) :=
  '(Xs, Ns, dts) <- FFT_signal Xt dt fmax r flag_zeropadding ;;
  FFT_spectrum Xs Ns dts.

(** Lines 120-145 of [DFT]: the complex array [Z] and its frequencies [Zf]
    from the packed coefficients [Xf] and their frequencies [f].  [Im] is
    the same object as [mask], which is not read after [Im[0]=False]. *)
Definition DFT_unpack (Xf f : list Q) (Nf : Z) : result (list C * list Q) :=
  let mask := map (fun i => (i mod 2 =? 0)%Z) (range (Z.to_nat Nf)) in
  let Z := map (fun _ => (0, 0)) (bool_index Xf mask) in
  let Zf := map (fun _ => 0) (bool_index Xf mask) in
  Xf_0 <- getitem Xf 0 ;;
  if (Nf mod 2 =? 0)%Z then
    let Re := map negb mask in
    Re <- setitem Re (-1) false ;;
    let Im := mask in
    Im <- setitem Im 0 false ;;
    v <- np_zip (fun re im => (re, im)) (bool_index Xf Re) (bool_index Xf Im) ;;
    Z <- set_tail Z v ;;
    Z <- setitem Z 0 (Xf_0, 0) ;;
    Zf <- set_tail Zf (bool_index f Im) ;;
    Zf <- setitem Zf 0 0 ;;
    Ok (Z, Zf)
  else
    let Re := map negb mask in
    let Im := mask in
    Im <- setitem Im 0 false ;;
    v <- np_zip (fun re im => (re, im)) (bool_index Xf Re) (bool_index Xf Im) ;;
    Z <- set_tail Z v ;;
    Z <- setitem Z 0 (Xf_0, 0) ;;
    Zf <- set_tail Zf (bool_index f Im) ;;
    Zf <- setitem Zf 0 0 ;;
    Ok (Z, Zf).

(** [DFT(Xt, dt, fmax, Nf)]: returns [(Xf, f)]. *)
Definition DFT (Xt : list Q) (dt : Q) (fmax : option Q) (Nf : Z)
  : result (list (option C) * list Q) :=
  fmax <- default_fmax fmax dt ;;
  '(Xs, Ns, dts) <- DFT_resample Xt dt fmax ;;
  Xf <- fftpack_rfft Xs Nf ;;
  f <- rfftfreq (length Xf) dts ;;
  let Et := energy Xs in
  Xf_0 <- getitem Xf 0 ;;
  let Ef := (Xf_0 * Xf_0 + 2 * np_sum (map (fun x => x * x) (tl Xf)))
            / inject_Z (Z.of_nat (length f)) in
  let K := parseval_K Et Ef in
  '(Z, Zf) <- DFT_unpack Xf f Nf ;;
  Ok (map (fun x => option_map (fun k => Cdivq (Cscale k x) (Ns / 2)) K) Z, Zf).

End Transforms.

(** A spectrum [(Xf, f)]: as many amplitudes as frequencies, the first
    frequency is 0, all are non-negative and ascending. *)
Definition is_spectrum {A : Type} (Xf : list A) (f : list Q) : Prop :=
  length Xf = length f /\
  (1 <= length f)%nat /\ nth 0 f 0 == 0 /\
  Forall (fun x => 0 <= x) f /\
  strictly_increasing f.

End Spectral.

(** ** Concrete inputs *)

Module Examples.

Import Wake.

(** A snapshot with the constant field 1 on a 3x3 transverse grid and two
    z cells. *)
Definition uniform_snapshot : snapshot := repeat (repeat [1; 1] 3) 3.

(** Three time steps of 1 s, a z axis of one light-second, injection after
    1 s and a bunch of 1 pC. *)
Definition data3 : metadata :=
  {| t := [0; 1; 2]; z := [0; c]; init_time := 1; q := 1 # 1000000000000 |}.

Definition hf3 : list snapshot := repeat uniform_snapshot 3.

(** Six time steps of 1 s, injection after 2 s. *)
Definition data6 : metadata :=
  {| t := [0; 1; 2; 3; 4; 5]; z := [0; c]; init_time := 2; q := 1 # 1000000000000 |}.

Definition hf6 : list snapshot := repeat uniform_snapshot 6.

(** A coordinate of four points and a wake potential slice on it. *)
Definition s4 : list Q := [0; 1; 2; 3].
Definition w4 : list Q := [5; 7; - (2); 4].

(** The discrete Fourier transform of one, two or four samples, for which
    the roots of unity (1, -1, i, -i) are rational complex numbers.  Other
    lengths need irrational roots and are left at zero. *)
Definition dft_small (Xs : list Q) (k : nat) : Spectral.C :=
  match Xs with
  | [a] => nth k [(a, 0)] (0, 0)
  | [a; b] => nth k [(a + b, 0); (a - b, 0)] (0, 0)
  | [a; b; c; d] =>
      nth k [(a + b + c + d, 0); (a - c, d - b); (a - b + c - d, 0); (a - c, b - d)]
        (0, 0)
  | _ => (0, 0)
  end.

(** The same transform in the packed layout of [fftpack.rfft(Xs, Nf)], on
    [Xs] cut or zero-padded to [Nf] samples. *)
Definition rfft_small (Xs : list Q) (Nf k : nat) : Q :=
  match firstn Nf (Xs ++ repeat 0 Nf) with
  | [a] => nth k [a] 0
  | [a; b] => nth k [a + b; a - b] 0
  | [a; b; c; d] => nth k [a + b + c + d; a - c; d - b; a - b + c - d] 0
  | _ => 0
  end.

(** The square root of a rational square. *)
Definition sqrt_exact (x : Q) : Q :=
  let y := Qred x in Z.sqrt (Qnum y) # Pos.sqrt (Qden y).

(** A two-sample signal. *)
Definition Xt2 : list Q := [1; 3].

(** A three-sample signal and the float [0.1], which is
    [3602879701896397 / 2^55]. *)
Definition Xt3 : list Q := [1; 2; 3].
Definition tenth : Q := fl (1 # 10).

(** Two arrays of shape (3, 3, 5) with the same four slices next to the
    centre; the second one has zero centre and corner slices. *)
Definition field_slice (a b : nat) : list Q :=
  map (fun k => inject_Z (Z.of_nat (a * 3 + b + (a + 1) * k * k))) (seq 0 5).

Definition WP_3d_full : list (list (list Q)) :=
  map (fun a => map (fun b => field_slice a b) (seq 0 3)) (seq 0 3).

Definition WP_3d_cross : list (list (list Q)) :=
  map (fun a => map (fun b =>
         if Nat.eqb ((a + b) mod 2) 1 then field_slice a b else zeros 5)
       (seq 0 3)) (seq 0 3).

(** A snapshot without field. *)
Definition zero_snapshot : Wake.snapshot := repeat (repeat [0; 0] 3) 3.

(** Metadata with two time samples only. *)
Definition data2 : Wake.metadata :=
  {| t := [0; 1]; z := [0; c]; init_time := 1; q := 1 # 1000000000000 |}.

(** A namespace that binds the three names, with the values that the
    simulation script gives to its own [unit] and [out_folder]. *)
Definition names_bound : Wake.globals :=
  {| unit := Some (1 # 1000);
     out_folder := Some "out/"%string;
     h5_name := Some "Ez.h5"%string |}.

(** A coordinate of five points, and one whose second and third points
    coincide. *)
Definition s5 : list Q := [- (2); - (1); 0; 1; 2].
Definition s5_join : list Q := [- (2); 0; 0; 1; 2].

End Examples.
(** ** Facts on the primitives *)

Lemma py_int_floor (x : Q) : 0 <= x -> py_int x = Qfloor x.
Proof.
  destruct x as [n d]; unfold py_int, Qle; simpl; intros H.
  apply Z.quot_div_nonneg; lia.
Qed.

Lemma Qeq_bool_false_of_neq (a b : Q) : ~ a == b -> Qeq_bool a b = false.
Proof.
  intros H; destruct (Qeq_bool a b) eqn:E; [| reflexivity].
  apply Qeq_bool_eq in E; contradiction.
Qed.

Lemma int_quot_pos (a b : Q) :
  0 <= a -> 0 < b -> int_quot a b = Ok (Qfloor (a / b)).
Proof.
  intros Ha Hb; unfold int_quot.
  rewrite Qeq_bool_false_of_neq by (intros E; lra).
  rewrite py_int_floor; [reflexivity |].
  apply Qle_shift_div_l; lra.
Qed.

Lemma getitem_nat {A : Type} (l : list A) (i : nat) (a : A) :
  nth_error l i = Some a -> getitem l (Z.of_nat i) = Ok a.
Proof.
  intros H; unfold getitem.
  assert (Hi : (i < length l)%nat) by (apply nth_error_Some; congruence).
  destruct (Z.ltb_spec (Z.of_nat i) 0); [lia |].
  destruct (Z.leb_spec 0 (Z.of_nat i)); [| lia].
  destruct (Z.ltb_spec (Z.of_nat i) (Z.of_nat (length l))); [| lia].
  simpl; rewrite Nat2Z.id, H; reflexivity.
Qed.

Lemma getitem_nat_lt {A : Type} (l : list A) (i : nat) (d : A) :
  (i < length l)%nat -> getitem l (Z.of_nat i) = Ok (nth i l d).
Proof.
  intros H; apply getitem_nat, nth_error_nth'; exact H.
Qed.






Lemma nth_map_seq {A : Type} (f : nat -> A) (n i : nat) (d : A) :
  (i < n)%nat -> nth i (map f (seq 0 n)) d = f i.
Proof.
  intros H.
  rewrite (nth_indep _ d (f 0%nat)) by (rewrite length_map, length_seq; exact H).
  rewrite map_nth, seq_nth by exact H.
  reflexivity.
Qed.



(** *** Rounding to float64 *)

Lemma fl_comp (x y : Q) : x == y -> fl x = fl y.
Proof. intros H; unfold fl; rewrite (Qred_complete x y H); reflexivity. Qed.

Lemma fl_zero (x : Q) : x == 0 -> fl x = 0.
Proof. intros H; rewrite (fl_comp x 0 H); reflexivity. Qed.

Lemma round_half_even_ge (n d : Z) :
  (0 < d)%Z -> (d <= n)%Z -> (1 <= round_half_even n d)%Z.
Proof.
  intros Hd Hn; unfold round_half_even.
  assert (H : (1 <= n / d)%Z) by (apply Z.div_le_lower_bound; lia).
  destruct (2 * (n mod d) ?= d)%Z; [destruct (Z.even (n / d)) | |]; lia.
Qed.

(** With an exponent below that of [n/d], the scaled fraction is at least
    1. *)
Lemma scaled_ge (n d e : Z) :
  (0 < n)%Z -> (0 < d)%Z -> (e <= Z.log2 n - Z.log2 d - 1)%Z ->
  (0 < snd (scaled n d e) <= fst (scaled n d e))%Z.
Proof.
  intros Hn Hd He; unfold scaled; cbn [fst snd].
  destruct (Z.log2_spec n Hn) as [Hn1 _].
  destruct (Z.log2_spec d Hd) as [_ Hd2].
  pose proof (Z.log2_nonneg n) as Ln.
  pose proof (Z.log2_nonneg d) as Ld.
  destruct (Z.le_gt_cases 0 e) as [Hpos | Hneg].
  - rewrite (Z.max_r 0 e), (Z.max_l 0 (- e)) by lia.
    change (2 ^ 0)%Z with 1%Z. rewrite Z.mul_1_r.
    assert (Hp : (0 < 2 ^ e)%Z) by (apply Z.pow_pos_nonneg; lia).
    split; [nia |].
    assert (Hle : (2 ^ Z.succ (Z.log2 d) * 2 ^ e <= 2 ^ Z.log2 n)%Z).
    { rewrite <- Z.pow_add_r by lia. apply Z.pow_le_mono_r; lia. }
    nia.
  - rewrite (Z.max_l 0 e), (Z.max_r 0 (- e)) by lia.
    change (2 ^ 0)%Z with 1%Z. rewrite Z.mul_1_r.
    split; [lia |].
    assert (Hp : (0 < 2 ^ (- e))%Z) by (apply Z.pow_pos_nonneg; lia).
    assert (Hle : (2 ^ Z.succ (Z.log2 d) <= 2 ^ Z.log2 n * 2 ^ (- e))%Z).
    { rewrite <- Z.pow_add_r by lia. apply Z.pow_le_mono_r; lia. }
    nia.
Qed.

(** Rounding keeps the sign of a positive number. *)
Lemma fl_pos (x : Q) : 0 < x -> 0 < fl x.
Proof.
  intros Hx; unfold fl.
  pose proof (Qred_correct x) as Hy.
  set (y := Qred x) in *.
  assert (Hn : (0 < Qnum y)%Z).
  { assert (H : 0 < y) by (rewrite Hy; exact Hx).
    unfold Qlt in H; simpl in H; lia. }
  rewrite (Z.abs_eq (Qnum y)) by lia.
  destruct (Z.eqb_spec (Qnum y) 0) as [E | _]; [lia |].
  set (n := Qnum y) in *. set (d := Z.pos (Qden y)).
  set (e0 := (Z.log2 n - Z.log2 d - 53)%Z).
  set (e := if (2 ^ 53 * snd (scaled n d e0) <=? fst (scaled n d e0))%Z
            then (e0 + 1)%Z else e0).
  assert (He : (e <= Z.log2 n - Z.log2 d - 1)%Z).
  { unfold e, e0; destruct (_ <=? _)%Z; lia. }
  destruct (scaled_ge n d e Hn ltac:(unfold d; lia) He) as [Hd1 Hn1].
  pose proof (round_half_even_ge _ _ Hd1 Hn1) as Hm.
  rewrite Z.sgn_pos by exact Hn. rewrite Z.mul_1_l.
  set (m := round_half_even _ _) in *.
  rewrite Qred_correct.
  destruct (Z.leb_spec 0 e) as [Hpos | Hneg].
  - assert (Hp : (0 < 2 ^ e)%Z) by (apply Z.pow_pos_nonneg; lia).
    change 0 with (inject_Z 0). rewrite <- Zlt_Qlt. nia.
  - unfold Qlt; simpl. lia.
Qed.

(** *** [np.linspace] *)

Lemma linspace_nth (a b : Q) (num : Z) :
  (0 <= num)%Z ->
  exists l, linspace a b num = Ok l /\
    length l = Z.to_nat num /\
    forall i, (i < length l)%nat ->
      nth i l 0 == a + inject_Z (Z.of_nat i) * ((b - a) / inject_Z (num - 1)).
Proof.
  intros Hnum; unfold linspace.
  destruct (Z.ltb_spec num 0) as [Hneg | _]; [lia |].
  destruct (Z.to_nat num) as [| [| n]] eqn:E.
  - exists []; repeat split; simpl; intros; lia.
  - exists [a]; repeat split; simpl; intros i Hi.
    assert (i = 0%nat) by lia; subst i.
    change (inject_Z (Z.of_nat 0)) with 0; ring.
  - eexists; split; [reflexivity |].
    rewrite length_map, length_seq; split; [reflexivity |].
    intros i Hi.
    rewrite (nth_map_seq (fun i => a + inject_Z (Z.of_nat i) * ((b - a) / inject_Z (num - 1))))
      by exact Hi.
    reflexivity.
Qed.

Lemma linspace_point (a b m i : Q) :
  0 < m -> 0 <= i -> i <= m -> a <= b ->
  a <= a + i * ((b - a) / m) /\ a + i * ((b - a) / m) <= b.
Proof.
  intros Hm Hi Him Hab.
  set (step := (b - a) / m).
  assert (Hstep : step * m == b - a) by (unfold step; field; intros E; lra).
  assert (Hs0 : 0 <= step) by (unfold step; apply Qle_shift_div_l; lra).
  split; nra.
Qed.

Lemma linspace_range (a b : Q) (num : Z) (l : list Q) :
  a <= b -> linspace a b num = Ok l ->
  forall i, (i < length l)%nat -> a <= nth i l 0 /\ nth i l 0 <= b.
Proof.
  intros Hab Hl i Hi.
  destruct (Z.ltb_spec num 0) as [Hneg | Hnum].
  { unfold linspace in Hl.
    destruct (Z.ltb_spec num 0); [discriminate | lia]. }
  destruct (linspace_nth a b num Hnum) as (l' & Hl' & Hlen & Hnth).
  rewrite Hl in Hl'; injection Hl' as <-.
  rewrite (Hnth i Hi).
  destruct (Z.eq_dec num 1) as [-> | Hne].
  - assert (i = 0%nat) by (simpl in Hlen; lia); subst i.
    change (inject_Z (Z.of_nat 0)) with 0.
    split; ring_simplify; lra.
  - apply linspace_point; try exact Hab.
    + change 0 with (inject_Z 0); rewrite <- Zlt_Qlt; lia.
    + change 0 with (inject_Z 0); rewrite <- Zle_Qle; lia.
    + rewrite <- Zle_Qle; lia.
Qed.




(** ** The causality gate of the longitudinal integral *)

Section CausalityGate.

Import Wake.

Variables (Ezi : list (list Q)) (zi s : list Q).
Variables (zmin t_0 t_inj dt dzi : Q).
Variables (n k : nat) (WP : list Q).

(** The arrays of the loop: [k] and [n] are inside [zi] and [s], [WP] has
    the length of [s], and the buffer [Ezi] has at least one time step and
    holds the row [k] at each of them. *)
Hypothesis k_in_zi : (k < length zi)%nat.
Hypothesis n_in_s : (n < length s)%nat.
Hypothesis WP_length : length WP = length s.
Hypothesis Ezi_steps : (1 <= length Ezi)%nat.
Hypothesis Ezi_rows : Forall (fun col => (k < length col)%nat) Ezi.




End CausalityGate.

Section CausalityGateExamples.

Import Wake.



End CausalityGateExamples.

(** ** The coordinate [s] *)

Section Coordinate.

Import Wake.

Lemma c_pos : 0 < c.
Proof. reflexivity. Qed.

Lemma Qfloor_nonneg (x : Q) : 0 <= x -> (0 <= Qfloor x)%Z.
Proof.
  intros H; change 0%Z with (Qfloor 0); apply Qfloor_resp_le; exact H.
Qed.

Lemma build_s_segments (t_inj dt wl : Q) :
  0 <= t_inj -> 0 < dt -> 0 <= wl ->
  exists s_neg s_pos,
    linspace (- t_inj * c) 0 (Qfloor (t_inj / dt)) = Ok s_neg /\
    linspace 0 wl (Qfloor (wl / (dt * c))) = Ok s_pos /\
    length s_neg = Z.to_nat (Qfloor (t_inj / dt)) /\
    length s_pos = Z.to_nat (Qfloor (wl / (dt * c))) /\
    build_s t_inj dt wl = Ok (s_neg ++ s_pos).
Proof.
  intros Ht Hdt Hwl.
  pose proof c_pos as Hc.
  assert (Hdc : 0 < dt * c) by nra.
  assert (H1 : (0 <= Qfloor (t_inj / dt))%Z).
  { apply Qfloor_nonneg, Qle_shift_div_l; lra. }
  assert (H2 : (0 <= Qfloor (wl / (dt * c)))%Z).
  { apply Qfloor_nonneg, Qle_shift_div_l; lra. }
  destruct (linspace_nth (- t_inj * c) 0 _ H1) as (s_neg & E1 & L1 & _).
  destruct (linspace_nth 0 wl _ H2) as (s_pos & E2 & L2 & _).
  exists s_neg, s_pos; repeat split; try assumption.
  unfold build_s.
  rewrite (int_quot_pos t_inj dt), (int_quot_pos wl (dt * c)) by lra.
  cbn [bind]; rewrite E1, E2; reflexivity.
Qed.



End Coordinate.

Section CoordinateExamples.

Import Wake.



(** C2, evaluated: with six time steps of 1 s and [t_inj = 2] the quantities
    derived by lines 196-218 give [ns_neg = 2], the negative segment
    [np.linspace(-t_inj*c, 0, 2)] ends in 0 and the positive one starts with
    0 again: [s = [-2c, 0, 0, 3c/2, 3c]] is not strictly increasing and
    [s[ns_neg-1]] is not negative. *)
Theorem C2_zero_repeated_at_join :
  0 < init_time Examples.data6 /\
  exists p,
    derive Examples.data6 = Ok p /\
    Forall2 Qeq (s p) [- (2) * c; 0; 0; 3 * c / 2; 3 * c] /\
    Qfloor (init_time Examples.data6 / dt p) = 2%Z /\
    ~ strictly_increasing (s p) /\
    ~ nth (2 - 1) (s p) 0 < 0.
Proof.
  split; [reflexivity |].
  eexists; split; [vm_compute; reflexivity |].
  cbn [s dt].
  split; [repeat constructor |].
  split; [reflexivity |].
  split.
  - intros H; specialize (H 1%nat 2%nat); simpl in H.
    assert (Hlt : 0 < 0 # 4) by (apply H; lia).
    unfold Qlt in Hlt; simpl in Hlt; lia.
  - simpl; unfold Qlt; simpl; lia.
Qed.

End CoordinateExamples.

(** ** The loop over the transverse offsets *)

(** C3, evaluated: on a uniform field the slice of the second offset
    [(-1, 0)] returned by [calc_long_WP] is not the result of the per-offset
    algorithm on that offset: [WP] is zeroed before the loop over the offsets
    only, so the normalized values of offset [(-1, -1)] are still in it. *)
Theorem C3_accumulator_carried_over :
  exists first second alone,
    Wake.slice_of Examples.data3 Examples.hf3 (-1) (-1) = Ok first /\
    Wake.offset_alone Examples.data3 Examples.hf3 (-1) (-1) = Ok first /\
    Wake.slice_of Examples.data3 Examples.hf3 (-1) 0 = Ok second /\
    Wake.offset_alone Examples.data3 Examples.hf3 (-1) 0 = Ok alone /\
    Forall2 Qeq alone [Wake.c; 3 * Wake.c / 2] /\
    Forall2 Qeq second [2 * Wake.c; 3 * Wake.c] /\
    ~ Forall2 Qeq second alone.
Proof.
  eexists; eexists; eexists.
  split; [vm_compute; reflexivity |].
  split; [vm_compute; reflexivity |].
  split; [vm_compute; reflexivity |].
  split; [vm_compute; reflexivity |].
  split; [| split].
  - repeat constructor.
  - repeat constructor.
  - intros H; inversion H as [| x y l l' Hxy _]; subst.
    unfold Qeq in Hxy; simpl in Hxy; lia.
Qed.

(** ** The transverse wake potential *)

Section Transverse.

Import Wake.

Lemma map_result_ok {A B : Type} (f : A -> result B) (g : A -> B) (xs : list A) :
  (forall x, In x xs -> f x = Ok (g x)) -> map_result f xs = Ok (map g xs).
Proof.
  induction xs as [| x xs IH]; intros H; simpl; [reflexivity |].
  rewrite (H x (or_introl eq_refl)); cbn [bind].
  rewrite IH by (intros y Hy; apply H; right; exact Hy).
  reflexivity.
Qed.

Lemma np_div_nonzero (a b : Q) : ~ b == 0 -> np_div a b = Ok (a / b).
Proof.
  intros H; unfold np_div; rewrite Qeq_bool_false_of_neq by exact H; reflexivity.
Qed.

Variables (dx dy : Q) (w : list Q).
Hypothesis dx_nonzero : ~ dx == 0.
Hypothesis dy_nonzero : ~ dy == 0.

Lemma int_WP_at_uniform (ds : Q) (n : nat) :
  (n < length w)%nat ->
  int_WP_at (uniform_WP_3d w) ds n = Ok (repeat (repeat (np_sum (firstn n w) * ds) 3) 3).
Proof.
  intros Hn.
  destruct (nth_error w n) as [x |] eqn:E;
    [| apply nth_error_None in E; lia].
  pose proof (getitem_nat w n x E) as Hget.
  unfold int_WP_at, uniform_WP_3d; simpl.
  rewrite Hget; reflexivity.
Qed.

Lemma trans_body_uniform (ds : Q) (n : nat) :
  (n < length w)%nat ->
  let v := np_sum (firstn n w) * ds in
  trans_body dx dy (uniform_WP_3d w) ds n
  = Ok (- (v - v) / (2 * dx), - (v - v) / (2 * dy)).
Proof.
  intros Hn v; unfold trans_body.
  rewrite int_WP_at_uniform by exact Hn; cbn [bind]; fold v.
  change (get2 (repeat (repeat v 3) 3) (i0 + 1) j0) with (Ok v).
  change (get2 (repeat (repeat v 3) 3) (i0 - 1) j0) with (Ok v).
  change (get2 (repeat (repeat v 3) 3) i0 (j0 + 1)) with (Ok v).
  change (get2 (repeat (repeat v 3) 3) i0 (j0 - 1)) with (Ok v).
  cbn [bind].
  rewrite !np_div_nonzero by (intros E; first [apply dx_nonzero | apply dy_nonzero]; lra).
  reflexivity.
Qed.

Lemma calc_trans_WP_uniform (s : list Q) :
  (3 <= length s)%nat -> (length s <= length w)%nat ->
  exists WPx WPy,
    calc_trans_WP dx dy s (uniform_WP_3d w) = Ok (WPx, WPy) /\
    length WPx = length s /\ length WPy = length s /\
    Forall (fun x => x == 0) WPx /\ Forall (fun y => y == 0) WPy.
Proof.
  intros Hs Hw.
  destruct s as [| s0 [| s1 [| s2 s']]]; simpl in Hs; try lia.
  set (s := s0 :: s1 :: s2 :: s') in *.
  set (ds := s2 - s1).
  set (v := fun n => np_sum (firstn n w) * ds).
  set (g := fun n => (- (v n - v n) / (2 * dx), - (v n - v n) / (2 * dy))).
  assert (Hbody : map_result (trans_body dx dy (uniform_WP_3d w) ds) (seq 0 (length s))
                  = Ok (map g (seq 0 (length s)))).
  { apply map_result_ok; intros n Hn.
    apply in_seq in Hn.
    apply trans_body_uniform; lia. }
  exists (map fst (map g (seq 0 (length s)))), (map snd (map g (seq 0 (length s)))).
  split.
  { unfold calc_trans_WP.
    rewrite (getitem_nat s 2 s2 eq_refl : getitem s 2 = Ok s2).
    rewrite (getitem_nat s 1 s1 eq_refl : getitem s 1 = Ok s1).
    cbn [bind]; fold ds.
    rewrite Hbody; reflexivity. }
  rewrite !length_map, length_seq.
  repeat split.
  - apply Forall_forall; intros x Hx.
    apply in_map_iff in Hx as (p & <- & Hp).
    apply in_map_iff in Hp as (n & <- & _).
    unfold g, Qdiv; simpl; ring.
  - apply Forall_forall; intros y Hy.
    apply in_map_iff in Hy as (p & <- & Hp).
    apply in_map_iff in Hp as (n & <- & _).
    unfold g, Qdiv; simpl; ring.
Qed.

End Transverse.

(** C4: when the nine slices of [WP_3d] are one and the same sequence, the
    transverse wake potentials [WPx] and [WPy] returned by [calc_trans_WP]
    have the length of [s] and are zero at every index.  ([s] needs three
    points for [ds = s[2]-s[1]], no more points than the slices, and the
    spacings [dx], [dy] are non-zero.) *)
Theorem C4_uniform_field_zero_gradient (dx dy : Q) (s w : list Q) :
  ~ dx == 0 -> ~ dy == 0 ->
  (3 <= length s)%nat -> (length s <= length w)%nat ->
  exists WPx WPy,
    Wake.calc_trans_WP dx dy s (Wake.uniform_WP_3d w) = Ok (WPx, WPy) /\
    length WPx = length s /\ length WPy = length s /\
    Forall (fun x => x == 0) WPx /\ Forall (fun y => y == 0) WPy.
Proof.
  intros Hdx Hdy Hs Hw.
  exact (calc_trans_WP_uniform dx dy w Hdx Hdy s Hs Hw).
Qed.

Lemma C4_uniform_field_zero_gradient_witness :
  (~ 1 # 1000 == 0) /\ (~ 1 # 500 == 0) /\
  (3 <= length Examples.s4)%nat /\
  (length Examples.s4 <= length Examples.w4)%nat /\
  exists WPx WPy,
    Wake.calc_trans_WP (1 # 1000) (1 # 500) Examples.s4
      (Wake.uniform_WP_3d Examples.w4) = Ok (WPx, WPy) /\
    length WPx = length Examples.s4 /\ length WPy = length Examples.s4 /\
    Forall (fun x => x == 0) WPx /\ Forall (fun y => y == 0) WPy.
Proof.
  assert (H1 : ~ 1 # 1000 == 0) by (unfold Qeq; simpl; lia).
  assert (H2 : ~ 1 # 500 == 0) by (unfold Qeq; simpl; lia).
  assert (H3 : (3 <= length Examples.s4)%nat) by (simpl; lia).
  assert (H4 : (length Examples.s4 <= length Examples.w4)%nat) by (simpl; lia).
  repeat (split; [assumption |]).
  exact (C4_uniform_field_zero_gradient (1 # 1000) (1 # 500) Examples.s4
           Examples.w4 H1 H2 H3 H4).
Defined.

(** ** The resampling of the two transforms *)

(** C5, evaluated: on the two-sample signal [[0, 1]] with [dt = 1] and
    [fmax = 1] both transforms resample onto [ts = [0, 1/2, 1, 3/2]], but
    [FFT] interpolates from the grid [np.linspace(0, T, N) = [0, 2]] (step
    [T/(N-1)]) and [DFT] from [np.arange(0, T, dt) = [0, 1]] (step [dt]): the
    resampled signals differ. *)
Theorem C5_resampling_grids_differ :
  exists Xs_fft Xs_dft Ns dts,
    Spectral.FFT_resample [0; 1] 1 1 = Ok (Xs_fft, Ns, dts) /\
    Spectral.DFT_resample [0; 1] 1 1 = Ok (Xs_dft, Ns, dts) /\
    Forall2 Qeq Xs_fft [0; 1 # 4; 1 # 2; 3 # 4] /\
    Forall2 Qeq Xs_dft [0; 1 # 2; 1; 1] /\
    ~ Forall2 Qeq Xs_fft Xs_dft.
Proof.
  eexists; eexists; eexists; eexists.
  split; [vm_compute; reflexivity |].
  split; [vm_compute; reflexivity |].
  split; [repeat constructor |].
  split; [repeat constructor |].
  intros H; inversion H as [| x y l l' _ Htl]; subst.
  inversion Htl as [| x y l l' Hxy _]; subst.
  unfold Qeq in Hxy; simpl in Hxy; lia.
Qed.

(** ** Unpacking the real-FFT coefficients *)

Section Unpack.

Import Spectral.

Lemma mod2_even (i : nat) : (Z.of_nat i mod 2 =? 0)%Z = Nat.even i.
Proof.
  destruct (Nat.even i) eqn:E.
  - apply Nat.even_spec in E as [k ->]. apply Z.eqb_eq.
    replace (Z.of_nat (2 * k)) with (Z.of_nat k * 2)%Z by lia.
    apply Z_mod_mult.
  - assert (O : Nat.odd i = true) by (rewrite <- Nat.negb_even, E; reflexivity).
    apply Nat.odd_spec in O as [k ->]. apply Z.eqb_neq.
    replace (Z.of_nat (2 * k + 1)) with (1 + Z.of_nat k * 2)%Z by lia.
    rewrite Z_mod_plus_full. discriminate.
Qed.

(** The mask [np.arange(Nf)%2.0 == 0.0] is true on the even indices. *)
Lemma parity_mask (n : nat) :
  map (fun i => (i mod 2 =? 0)%Z) (range n) = map Nat.even (seq 0 n).
Proof.
  unfold range; rewrite map_map.
  apply map_ext; intros i; apply mod2_even.
Qed.

(** [~mask] is true on the odd indices. *)
Lemma parity_mask_neg (n : nat) :
  map negb (map Nat.even (seq 0 n)) = map Nat.even (seq 1 n).
Proof.
  rewrite <- seq_shift, !map_map.
  apply map_ext; intros i.
  rewrite Nat.even_succ, <- Nat.negb_even; reflexivity.
Qed.

(** Indexing with a parity mask keeps every second element. *)
Lemma bool_index_parity_nth {A : Type} (xs : list A) (d : A) :
  forall (start n m : nat),
    (n <= length xs)%nat -> (2 * m + (if Nat.even start then 0 else 1) < n)%nat ->
    nth m (bool_index xs (map Nat.even (seq start n))) d
    = nth (2 * m + (if Nat.even start then 0 else 1)) xs d.
Proof.
  induction xs as [| x xs IH]; intros start n m Hn Hm; [simpl in Hn; lia |].
  destruct n as [| n]; [lia |].
  simpl in Hn; cbn [seq map bool_index].
  specialize (IH (S start) n).
  rewrite Nat.even_succ, <- Nat.negb_even in IH.
  destruct (Nat.even start); cbn [negb] in IH.
  - destruct m as [| m]; [reflexivity |].
    cbn [nth]. rewrite IH by lia.
    replace (2 * S m + 0)%nat with (S (2 * m + 1)) by lia. reflexivity.
  - rewrite IH by lia.
    replace (2 * m + 1)%nat with (S (2 * m + 0)) by lia. reflexivity.
Qed.

Lemma bool_index_parity_length {A : Type} (xs : list A) :
  forall (start n : nat),
    (n <= length xs)%nat ->
    length (bool_index xs (map Nat.even (seq start n)))
    = if Nat.even start then ((n + 1) / 2)%nat else (n / 2)%nat.
Proof.
  induction xs as [| x xs IH]; intros start n Hn.
  - simpl in Hn. assert (n = 0%nat) by lia; subst n.
    destruct (Nat.even start); reflexivity.
  - destruct n as [| n]; [destruct (Nat.even start); reflexivity |].
    simpl in Hn; cbn [seq map bool_index].
    specialize (IH (S start) n ltac:(lia)).
    rewrite Nat.even_succ, <- Nat.negb_even in IH.
    destruct (Nat.even start); cbn [negb] in IH; cbn [length]; rewrite IH.
    + replace (S n + 1)%nat with (n + 1 * 2)%nat by lia.
      rewrite Nat.div_add by lia. lia.
    + replace (S n) with (n + 1)%nat by lia. reflexivity.
Qed.

(** A trailing [False] of a mask selects nothing. *)
Lemma bool_index_app_false {A : Type} (mask : list bool) :
  forall xs : list A, bool_index xs (mask ++ [false]) = bool_index xs mask.
Proof.
  induction mask as [| b mask IH]; intros [| x xs]; simpl; try reflexivity.
  - destruct xs; reflexivity.
  - rewrite IH; reflexivity.
Qed.

Lemma setitem_first {A : Type} (x : A) (l : list A) (v : A) :
  setitem (x :: l) 0 v = Ok (v :: l).
Proof.
  unfold setitem.
  destruct (Z.ltb_spec 0 (Z.of_nat (length (x :: l)))) as [_ | H];
    [reflexivity | simpl in H; lia].
Qed.

Lemma setitem_last {A : Type} (l : list A) (v : A) :
  (1 <= length l)%nat ->
  setitem l (-1) v = Ok (firstn (length l - 1) l ++ [v]).
Proof.
  intros H; unfold setitem.
  destruct (Z.ltb_spec (-1) 0) as [_ | H']; [| lia].
  destruct (Z.leb_spec 0 (-1 + Z.of_nat (length l))) as [_ | H']; [| lia].
  destruct (Z.ltb_spec (-1 + Z.of_nat (length l)) (Z.of_nat (length l))) as [_ | H'];
    [| lia].
  cbn [andb].
  replace (Z.to_nat (-1 + Z.of_nat (length l))) with (length l - 1)%nat by lia.
  replace (S (length l - 1)) with (length l) by lia.
  rewrite skipn_all; reflexivity.
Qed.

Lemma np_zip_same_length {A B D : Type} (f : A -> B -> D) (a : list A) (b : list B) :
  length a = length b ->
  np_zip f a b = Ok (map (fun p => f (fst p) (snd p)) (combine a b)).
Proof.
  intros H; unfold np_zip; rewrite H, Nat.eqb_refl; reflexivity.
Qed.

Lemma set_tail_same_length {A : Type} (z : A) (Z v : list A) :
  length v = length Z -> set_tail (z :: Z) v = Ok (z :: v).
Proof.
  intros H; unfold set_tail; cbn [tl]; rewrite H, Nat.eqb_refl; reflexivity.
Qed.

Lemma firstn_seq_S (start n : nat) : firstn n (seq start (S n)) = seq start n.
Proof.
  rewrite seq_S, firstn_app, length_seq, Nat.sub_diag, firstn_O, app_nil_r.
  rewrite <- (length_seq n start) at 1. apply firstn_all.
Qed.

Lemma getitem_first {A : Type} (x : A) (l : list A) : getitem (x :: l) 0 = Ok x.
Proof. exact (getitem_nat (x :: l) 0 x eq_refl). Qed.

(** The result of [DFT_unpack] in closed form: the odd-indexed coefficients
    up to [n_re] paired with the even-indexed ones from index 2 on. *)
Lemma DFT_unpack_closed (x0 f0 : Q) (xs fs : list Q) (Nf : Z) :
  Z.to_nat Nf = S (length xs) -> length fs = length xs ->
  let n := length xs in
  let n_re := if (Nf mod 2 =? 0)%Z then n else S n in
  let re := bool_index (x0 :: xs) (map Nat.even (seq 1 n_re)) in
  let im := bool_index xs (map Nat.even (seq 1 n)) in
  length re = (n / 2)%nat /\ length im = (n / 2)%nat /\
  DFT_unpack (x0 :: xs) (f0 :: fs) Nf
  = Ok ((x0, 0) :: map (fun p => (fst p, snd p)) (combine re im),
        0 :: bool_index fs (map Nat.even (seq 1 n))).
Proof.
  intros HNf Hfs n n_re re im.
  assert (Him : length im = (n / 2)%nat).
  { unfold im. rewrite bool_index_parity_length by (fold n; lia). reflexivity. }
  assert (Hfi : length (bool_index fs (map Nat.even (seq 1 n))) = (n / 2)%nat).
  { rewrite bool_index_parity_length by lia. reflexivity. }
  assert (Hre : length re = (n / 2)%nat).
  { unfold re. rewrite bool_index_parity_length by (unfold n_re; simpl; fold n;
      destruct (Nf mod 2 =? 0)%Z; lia).
    cbn [Nat.even]. unfold n_re.
    destruct (Z.eqb_spec (Nf mod 2) 0) as [E | E]; [reflexivity |].
    fold n in HNf. lia. }
  assert (Hz0 : length (map (fun _ : Q => (0, 0)) im)
                = length (map (fun p : Q * Q => (fst p, snd p)) (combine re im))).
  { rewrite !length_map, length_combine, Hre, Him. lia. }
  assert (Hzf : length (bool_index fs (map Nat.even (seq 1 n)))
                = length (map (fun _ : Q => 0) im)).
  { rewrite length_map, Hfi, Him. reflexivity. }
  split; [exact Hre |]. split; [exact Him |].
  assert (Hmask : map Nat.even (seq 0 (S n)) = true :: map Nat.even (seq 1 n))
    by reflexivity.
  assert (Hsel : forall (y : Q) (ys : list Q) (b : bool) (M : list bool),
             bool_index (y :: ys) (b :: M)
             = if b then y :: bool_index ys M else bool_index ys M)
    by reflexivity.
  unfold DFT_unpack.
  rewrite parity_mask, HNf, getitem_first; fold n.
  rewrite parity_mask_neg, Hmask, Hsel.
  change (bool_index xs (map Nat.even (seq 1 n))) with im.
  cbn [bind].
  destruct (Z.eqb_spec (Nf mod 2) 0) as [E | E].
  - rewrite setitem_last by (rewrite length_map, length_seq; lia).
    rewrite length_map, length_seq, firstn_map.
    replace (S n - 1)%nat with n by lia.
    rewrite firstn_seq_S.
    rewrite setitem_first.
    cbn [bind]. rewrite bool_index_app_false, !Hsel.
    change (bool_index (x0 :: xs) (map Nat.even (seq 1 n))) with re.
    change (bool_index xs (map Nat.even (seq 1 n))) with im.
    rewrite np_zip_same_length by (rewrite Hre, Him; reflexivity).
    cbn [bind map].
    rewrite set_tail_same_length by (symmetry; exact Hz0).
    cbn [bind]. rewrite setitem_first. cbn [bind].
    rewrite set_tail_same_length by exact Hzf.
    cbn [bind]. rewrite setitem_first. reflexivity.
  - rewrite setitem_first.
    cbn [bind]. rewrite !Hsel.
    change (bool_index (x0 :: xs) (map Nat.even (seq 1 (S n)))) with re.
    change (bool_index xs (map Nat.even (seq 1 n))) with im.
    rewrite np_zip_same_length by (rewrite Hre, Him; reflexivity).
    cbn [bind map].
    rewrite set_tail_same_length by (symmetry; exact Hz0).
    cbn [bind]. rewrite setitem_first. cbn [bind].
    rewrite set_tail_same_length by exact Hzf.
    cbn [bind]. rewrite setitem_first. reflexivity.
Qed.

End Unpack.

Section UnpackSemantics.

Import Spectral.

Lemma nth_pairs (re im : list Q) (j : nat) :
  length re = length im ->
  nth j (map (fun p : Q * Q => (fst p, snd p)) (combine re im)) (0, 0)
  = (nth j re 0, nth j im 0).
Proof.
  intros H.
  change (0, 0) with ((fun p : Q * Q => (fst p, snd p)) (0, 0)) at 1.
  rewrite map_nth, combine_nth by exact H.
  reflexivity.
Qed.

(** C6: for an array [Xf] of [Nf >= 1] packed coefficients, [DFT_unpack]
    returns [Z] with [Z[0] = Xf[0] + 0j] at frequency 0 and
    [Z[m] = Xf[2m-1] + 1j*Xf[2m]] for every [m >= 1], in the even and in the
    odd branch alike ([Zf[m] = f[2m]]).  [Z] has [(Nf+1)//2] entries; when
    [Nf] is even every index read is below [Nf-1] and the result does not
    depend on the last packed coefficient. *)
Theorem C6_unpack_pairs (Xf f : list Q) (Nf : Z) :
  (1 <= Nf)%Z -> length Xf = Z.to_nat Nf -> length f = Z.to_nat Nf ->
  exists Z Zf,
    DFT_unpack Xf f Nf = Ok (Z, Zf) /\
    length Z = Z.to_nat ((Nf + 1) / 2) /\ length Zf = length Z /\
    nth 0 Z (0, 0) = (nth 0 Xf 0, 0) /\ nth 0 Zf 0 = 0 /\
    (forall m, (1 <= m < length Z)%nat ->
       nth m Z (0, 0) = (nth (2 * m - 1) Xf 0, nth (2 * m) Xf 0) /\
       nth m Zf 0 = nth (2 * m) f 0) /\
    ((Nf mod 2 = 0)%Z ->
       (forall m, (m < length Z)%nat -> (2 * m < Z.to_nat Nf - 1)%nat) /\
       (forall Xf', length Xf' = length Xf ->
          (forall i, (i < Z.to_nat Nf - 1)%nat -> nth i Xf' 0 = nth i Xf 0) ->
          DFT_unpack Xf' f Nf = Ok (Z, Zf))).
Proof.
  intros HNf HXf Hf.
  destruct Xf as [| x0 xs]; [simpl in HXf; lia |].
  destruct f as [| f0 fs]; [simpl in Hf; lia |].
  simpl in HXf, Hf.
  assert (Hn : Z.to_nat Nf = S (length xs)) by lia.
  assert (Hfs : length fs = length xs) by lia.
  destruct (DFT_unpack_closed x0 f0 xs fs Nf Hn Hfs) as (Hre & Him & Hrun).
  set (n := length xs) in *.
  set (n_re := if (Nf mod 2 =? 0)%Z then n else S n) in *.
  set (re := bool_index (x0 :: xs) (map Nat.even (seq 1 n_re))) in *.
  set (im := bool_index xs (map Nat.even (seq 1 n))) in *.
  assert (Hn_re : (n <= n_re <= S n)%nat)
    by (unfold n_re; destruct (Nf mod 2 =? 0)%Z; lia).
  assert (Hlen : length (map (fun p : Q * Q => (fst p, snd p)) (combine re im))
                 = (n / 2)%nat).
  { rewrite length_map, length_combine, Hre, Him. lia. }
  assert (Hlenf : length (bool_index fs (map Nat.even (seq 1 n))) = (n / 2)%nat).
  { rewrite bool_index_parity_length by lia. reflexivity. }
  exists ((x0, 0) :: map (fun p : Q * Q => (fst p, snd p)) (combine re im)),
    (0 :: bool_index fs (map Nat.even (seq 1 n))).
  split; [exact Hrun |].
  unfold C; cbn [length]; rewrite Hlen, Hlenf.
  split; [lia |]. split; [reflexivity |].
  split; [reflexivity |]. split; [reflexivity |].
  split.
  - intros [| j] Hm; [lia |].
    cbn [nth]. rewrite nth_pairs by (rewrite Hre, Him; reflexivity).
    unfold re, im.
    rewrite !bool_index_parity_nth by (cbn [Nat.even length]; fold n; lia).
    cbn [Nat.even].
    replace (2 * S j - 1)%nat with (2 * j + 1)%nat by lia.
    replace (2 * S j)%nat with (S (2 * j + 1)) by lia.
    repeat split; reflexivity.
  - intros Heven.
    assert (Hodd : (n = 2 * (n / 2) + 1)%nat) by lia.
    split; [intros m Hm; lia |].
    intros Xf' HXf' Hagree.
    destruct Xf' as [| x0' xs']; [simpl in HXf'; lia |].
    simpl in HXf'.
    assert (Hn' : Z.to_nat Nf = S (length xs')) by lia.
    assert (Hfs' : length fs = length xs') by lia.
    destruct (DFT_unpack_closed x0' f0 xs' fs Nf Hn' Hfs') as (Hre' & Him' & Hrun').
    assert (Hl : length xs' = n) by (unfold n; lia).
    rewrite Hl in Hre', Him', Hrun'.
    fold n_re in Hre', Hrun'.
    rewrite Hrun'.
    assert (E0 : x0' = x0) by (apply (Hagree 0%nat); lia).
    assert (Ere : bool_index (x0' :: xs') (map Nat.even (seq 1 n_re)) = re).
    { apply (nth_ext _ _ 0 0); [rewrite Hre; exact Hre' |].
      intros j Hj. rewrite Hre' in Hj. unfold re.
      rewrite !bool_index_parity_nth by (cbn [Nat.even length]; fold n; lia).
      apply Hagree. cbn [Nat.even]. lia. }
    assert (Eim : bool_index xs' (map Nat.even (seq 1 n)) = im).
    { apply (nth_ext _ _ 0 0); [rewrite Him; exact Him' |].
      intros j Hj. rewrite Him' in Hj. unfold im.
      rewrite !bool_index_parity_nth by (cbn [Nat.even]; fold n; lia).
      apply (Hagree (S (2 * j + 1))). lia. }
    rewrite Ere, Eim, E0. reflexivity.
Qed.

Lemma C6_unpack_pairs_witness :
  (1 <= 6)%Z /\
  exists Z Zf,
    DFT_unpack [10; 11; 12; 13; 14; 15] [0; 1; 1; 2; 2; 3] 6 = Ok (Z, Zf) /\
    length Z = 3%nat /\
    nth 2 Z (0, 0) = (13, 14).
Proof.
  assert (H1 : (1 <= 6)%Z) by lia.
  split; [exact H1 |].
  destruct (C6_unpack_pairs [10; 11; 12; 13; 14; 15] [0; 1; 1; 2; 2; 3] 6 H1
              eq_refl eq_refl)
    as (Z & Zf & Hrun & Hlen & _ & _ & _ & Hpair & _).
  exists Z, Zf; split; [exact Hrun |]. split; [exact Hlen |].
  apply (Hpair 2%nat). rewrite Hlen. simpl. lia.
Defined.

End UnpackSemantics.

(** ** Facts on the spectral engine *)

Section SpectralFacts.

Import Spectral.

Lemma py_div_nonzero (a b : Q) : ~ b == 0 -> py_div a b = Ok (a / b).
Proof.
  intros H; unfold py_div; rewrite Qeq_bool_false_of_neq by exact H; reflexivity.
Qed.

Lemma Qceiling_pos (x : Q) : 0 < x -> (1 <= Qceiling x)%Z.
Proof.
  intros H.
  pose proof (Qle_ceiling x) as Hc.
  assert (Hlt : inject_Z 0 < inject_Z (Qceiling x)) by (change (inject_Z 0) with 0; lra).
  rewrite <- Zlt_Qlt in Hlt. lia.
Qed.

Lemma inject_Z_pos (n : Z) : (0 < n)%Z -> 0 < inject_Z n.
Proof. intros H; change 0 with (inject_Z 0); rewrite <- Zlt_Qlt; exact H. Qed.

Lemma Qdiv_pos (a b : Q) : 0 < a -> 0 < b -> 0 < a / b.
Proof. intros Ha Hb; apply Qlt_shift_div_l; lra. Qed.

Lemma interp_ok (x xp fp : list Q) :
  (1 <= length xp)%nat -> length xp = length fp ->
  exists ys, interp x xp fp = Ok ys /\ length ys = length x.
Proof.
  intros Hxp Hlen; unfold interp.
  destruct xp as [| x0 xp]; [simpl in Hxp; lia |].
  destruct fp as [| f0 fp]; [simpl in Hlen; lia |].
  rewrite Hlen, Nat.eqb_refl.
  eexists; split; [reflexivity |].
  rewrite length_map; reflexivity.
Qed.

Lemma arange0_length (stop step : Q) :
  length (arange0 stop step) = Z.to_nat (Qceiling (fl (stop / step))).
Proof. unfold arange0; rewrite length_map, length_seq; reflexivity. Qed.

(** The parameters derived from a valid input: [T = N*dt > 0],
    [dts = 1/(2*fmax) > 0] and [Ns = N/(dts/dt) > 0]. *)
Lemma sampling_parameters (N : Z) (dt fm : Q) :
  (1 <= N)%Z -> 0 < dt -> 0 < fm ->
  let T := fl (inject_Z N * dt) in
  let dts := fl (1 / (2 * fm)) in
  let Ns := inject_Z N / (dts / dt) in
  0 < T /\ 0 < dts /\ 0 < dts / dt /\ 0 < Ns /\ 0 < fl (T / dts) /\ 0 < fl (T / dt) /\
  Ns == inject_Z N * dt / dts.
Proof.
  intros HN Hdt Hfm T dts Ns.
  assert (HNq : 0 < inject_Z N) by (apply inject_Z_pos; lia).
  assert (HT : 0 < T) by (unfold T; apply fl_pos; nra).
  assert (Hdts : 0 < dts) by (unfold dts; apply fl_pos, Qdiv_pos; lra).
  assert (Hstep : 0 < dts / dt) by (apply Qdiv_pos; assumption).
  repeat split; try assumption.
  - unfold Ns; apply Qdiv_pos; assumption.
  - apply fl_pos, Qdiv_pos; assumption.
  - apply fl_pos, Qdiv_pos; assumption.
  - unfold Ns; field; split; intros E; lra.
Qed.

Lemma FFT_resample_ok (Xt : list Q) (dt fm : Q) :
  (1 <= length Xt)%nat -> 0 < dt -> 0 < fm ->
  let N := Z.of_nat (length Xt) in
  let dts := fl (1 / (2 * fm)) in
  let Ns := inject_Z N / (dts / dt) in
  exists Xs, FFT_resample Xt dt fm = Ok (Xs, Ns, dts) /\ (1 <= length Xs)%nat.
Proof.
  intros HXt Hdt Hfm N dts Ns.
  destruct (sampling_parameters N dt fm ltac:(lia) Hdt Hfm)
    as (HT & Hdts & Hstep & HNs & Hcount & _).
  fold dts in Hdts, Hstep, Hcount.
  set (T := fl (inject_Z N * dt)) in *.
  destruct (linspace_nth 0 T N ltac:(lia)) as (t & Et & Lt & _).
  destruct (interp_ok (arange0 T dts) t Xt) as (Xs & EXs & LXs);
    [lia | lia |].
  exists Xs; split.
  - unfold FFT_resample; fold N; fold T.
    rewrite !py_div_nonzero by (intros E; lra).
    cbn [bind]; fold dts.
    rewrite Et; cbn [bind].
    rewrite EXs; cbn [bind].
    rewrite py_div_nonzero by (intros E; lra); cbn [bind].
    rewrite py_div_nonzero by (intros E; lra).
    reflexivity.
  - rewrite LXs, arange0_length.
    pose proof (Qceiling_pos _ Hcount). lia.
Qed.

(** The resampling of [DFT] returns when the grid [np.arange(0, T, dt)] has
    as many points as the signal, and raises [ValueError] when not. *)
Lemma DFT_resample_grid (Xt : list Q) (dt fm : Q) :
  (1 <= length Xt)%nat -> 0 < dt -> 0 < fm ->
  let N := Z.of_nat (length Xt) in
  let T := fl (inject_Z N * dt) in
  let dts := fl (1 / (2 * fm)) in
  let Ns := inject_Z N / (dts / dt) in
  (length (arange0 T dt) = length Xt ->
     exists Xs, DFT_resample Xt dt fm = Ok (Xs, Ns, dts) /\
                Xs = map (fun v => interp_from v (arange0 T dt) Xt) (arange0 T dts) /\
                (1 <= length Xs)%nat) /\
  (length (arange0 T dt) <> length Xt ->
     DFT_resample Xt dt fm = Raise ValueError).
Proof.
  intros HXt Hdt Hfm N T dts Ns.
  destruct (sampling_parameters N dt fm ltac:(lia) Hdt Hfm)
    as (HT & Hdts & Hstep & HNs & Hcount & Hgrid & _).
  fold dts in Hdts, Hstep, Hcount. fold T in HT, Hcount, Hgrid.
  assert (Hrun : DFT_resample Xt dt fm
                 = (Xs <- interp (arange0 T dts) (arange0 T dt) Xt ;; Ok (Xs, Ns, dts))).
  { unfold DFT_resample; fold N; fold T.
    rewrite !py_div_nonzero by (intros E; lra).
    cbn [bind]; fold dts.
    destruct (interp (arange0 T dts) (arange0 T dt) Xt) as [Xs | e]; cbn [bind];
      [| reflexivity].
    rewrite py_div_nonzero by (intros E; lra); cbn [bind].
    rewrite py_div_nonzero by (intros E; lra).
    reflexivity. }
  assert (Lt : (1 <= length (arange0 T dt))%nat).
  { rewrite arange0_length. pose proof (Qceiling_pos _ Hgrid). lia. }
  destruct (arange0 T dt) as [| x0 xp] eqn:Egrid; [simpl in Lt; lia |].
  destruct Xt as [| f0 fp]; [simpl in HXt; lia |].
  split; intros Hlen.
  - exists (map (fun v => interp_from v (x0 :: xp) (f0 :: fp)) (arange0 T dts)).
    split; [| split; [reflexivity |]].
    + rewrite Hrun. unfold interp. rewrite Hlen, Nat.eqb_refl. cbn [bind].
      do 3 f_equal. apply map_ext_in. intros v Hv.
      destruct (Qlt_le_dec v x0) as [Hlt | _]; [| reflexivity].
      exfalso.
      assert (E0 : x0 = inject_Z (Z.of_nat 0) * dt).
      { unfold arange0 in Egrid.
        destruct (Z.to_nat (Qceiling (fl (T / dt)))); [discriminate |].
        cbn [seq map] in Egrid. congruence. }
      unfold arange0 in Hv. apply in_map_iff in Hv as (i & <- & _).
      assert (Hi : inject_Z 0 <= inject_Z (Z.of_nat i)) by (rewrite <- Zle_Qle; lia).
      rewrite E0 in Hlt. change (inject_Z (Z.of_nat 0)) with 0 in Hlt.
      change (inject_Z 0) with 0 in Hi. nra.
    + rewrite length_map, arange0_length.
      pose proof (Qceiling_pos _ Hcount). lia.
  - rewrite Hrun. unfold interp.
    destruct (Nat.eqb_spec (length (x0 :: xp)) (length (f0 :: fp))) as [E | _];
      [contradiction | reflexivity].
Qed.

Lemma DFT_resample_ok (Xt : list Q) (dt fm : Q) :
  (1 <= length Xt)%nat -> 0 < dt -> 0 < fm ->
  let N := Z.of_nat (length Xt) in
  let dts := fl (1 / (2 * fm)) in
  let Ns := inject_Z N / (dts / dt) in
  length (arange0 (fl (inject_Z N * dt)) dt) = length Xt ->
  exists Xs, DFT_resample Xt dt fm = Ok (Xs, Ns, dts) /\ (1 <= length Xs)%nat.
Proof.
  intros HXt Hdt Hfm N dts Ns Hgrid.
  destruct (DFT_resample_grid Xt dt fm HXt Hdt Hfm) as [Hok _].
  destruct (Hok Hgrid) as (Xs & EXs & _ & LXs).
  exists Xs; split; assumption.
Qed.

Lemma default_fmax_ok (fmax : option Q) (dt : Q) :
  0 < dt -> (forall f, fmax = Some f -> 0 < f) ->
  exists fm, default_fmax fmax dt = Ok fm /\ 0 < fm.
Proof.
  intros Hdt Hf; destruct fmax as [f |]; simpl.
  - exists f; split; [reflexivity | apply Hf; reflexivity].
  - exists (1 / dt); split.
    + apply py_div_nonzero; intros E; lra.
    + apply Qdiv_pos; lra.
Qed.

End SpectralFacts.

(** ** The full-spectrum transform *)

Section FullSpectrumFacts.

Import Spectral.

Lemma nth_map_lt {A B : Type} (g : A -> B) (l : list A) (i : nat) (d : A) (d' : B) :
  (i < length l)%nat -> nth i (map g l) d' = g (nth i l d).
Proof.
  intros H.
  rewrite (nth_indep _ d' (g d)) by (rewrite length_map; exact H).
  apply map_nth.
Qed.

Lemma zero_pad_ok (r Ns : Q) (Xs : list Q) :
  0 <= r * Ns ->
  zero_pad true r Ns Xs
  = Ok ((zeros (Z.to_nat (Qfloor (r * Ns))) ++ Xs) ++ zeros (Z.to_nat (Qfloor (r * Ns)))).
Proof.
  intros H; unfold zero_pad.
  rewrite py_int_floor by exact H.
  pose proof (Qfloor_nonneg _ H) as Hpad.
  destruct (Z.ltb_spec (Qfloor (r * Ns)) 0) as [Hneg | _]; [lia | reflexivity].
Qed.

Lemma bool_index_filter {A : Type} (p : A -> bool) (l : list A) :
  bool_index l (map p l) = filter p l.
Proof.
  induction l as [| x l IH]; simpl; [reflexivity |].
  rewrite IH; reflexivity.
Qed.

Lemma bool_index_length_same {A B : Type} (mask : list bool) :
  forall (a : list A) (b : list B),
    length a = length b -> length (bool_index a mask) = length (bool_index b mask).
Proof.
  induction mask as [| m mask IH]; intros [| x a] [| y b] H; simpl in *;
    try reflexivity; try discriminate.
  injection H as H. destruct m; simpl; rewrite (IH a b H); reflexivity.
Qed.

Lemma filter_all {A : Type} (p : A -> bool) (l : list A) :
  (forall x, In x l -> p x = true) -> filter p l = l.
Proof.
  induction l as [| x l IH]; intros H; simpl; [reflexivity |].
  rewrite (H x (or_introl eq_refl)), IH; [reflexivity |].
  intros y Hy; apply H; right; exact Hy.
Qed.

Lemma filter_none {A : Type} (p : A -> bool) (l : list A) :
  (forall x, In x l -> p x = false) -> filter p l = [].
Proof.
  induction l as [| x l IH]; intros H; simpl; [reflexivity |].
  rewrite (H x (or_introl eq_refl)), IH; [reflexivity |].
  intros y Hy; apply H; right; exact Hy.
Qed.

(** The non-negative frequencies kept by [mask= ffft >= 0] are the first
    half of [fftfreq] when the step is positive. *)
Lemma fftfreq_retained (n : nat) (dts : Q) :
  (1 <= n)%nat -> 0 < dts ->
  let val := 1 / (inject_Z (Z.of_nat n) * dts) in
  let ffft := map (fun k => inject_Z k * val) (fftfreq_pos n ++ fftfreq_neg n) in
  fftfreq n dts = Ok ffft /\ length ffft = n /\ 0 < val /\
  bool_index ffft (map (fun x => Qle_bool 0 x) ffft)
  = map (fun k => inject_Z k * val) (fftfreq_pos n).
Proof.
  intros Hn Hdts val ffft.
  assert (Hnq : 0 < inject_Z (Z.of_nat n)) by (apply inject_Z_pos; lia).
  assert (Hnd : 0 < inject_Z (Z.of_nat n) * dts) by nra.
  assert (Hval : 0 < val) by (unfold val; apply Qdiv_pos; lra).
  split; [| split; [| split; [exact Hval |]]].
  - unfold fftfreq. rewrite py_div_nonzero by (intros E; lra). reflexivity.
  - unfold ffft, fftfreq_pos, fftfreq_neg.
    rewrite length_map, length_app, !length_map, !length_seq. lia.
  - rewrite bool_index_filter. unfold ffft.
    rewrite map_app, filter_app.
    rewrite filter_all, filter_none; [apply app_nil_r | |].
    + intros x Hx. apply in_map_iff in Hx as (k & <- & Hk).
      unfold fftfreq_neg in Hk. apply in_map_iff in Hk as (i & <- & Hi).
      apply in_seq in Hi.
      destruct (Qle_bool 0 _) eqn:E; [| reflexivity].
      apply Qle_bool_iff in E.
      assert (Hk : inject_Z (- (Z.of_nat n / 2) + Z.of_nat i) < inject_Z 0).
      { rewrite <- Zlt_Qlt. lia. }
      change (inject_Z 0) with 0 in Hk. nra.
    + intros x Hx. apply in_map_iff in Hx as (k & <- & Hk).
      unfold fftfreq_pos in Hk. apply in_map_iff in Hk as (i & <- & Hi).
      apply Qle_bool_iff.
      assert (Hk : inject_Z 0 <= inject_Z (Z.of_nat i)).
      { rewrite <- Zle_Qle. lia. }
      change (inject_Z 0) with 0 in Hk. nra.
Qed.

Lemma bool_index_all_false {A : Type} (q : nat) :
  forall a : list A, bool_index a (repeat false q) = [].
Proof.
  induction q as [| q IH]; intros [| x a]; simpl; try reflexivity. apply IH.
Qed.

(** A mask of [p] times [True] followed by [False] selects the first [p]
    entries. *)
Lemma bool_index_prefix {A : Type} (p q : nat) :
  forall a : list A, bool_index a (repeat true p ++ repeat false q) = firstn p a.
Proof.
  induction p as [| p IH]; intros a.
  - simpl. apply bool_index_all_false.
  - destruct a as [| x a]; simpl; [reflexivity |]. rewrite IH. reflexivity.
Qed.

Lemma map_constant {A B : Type} (g : A -> B) (b : B) (l : list A) :
  (forall x, In x l -> g x = b) -> map g l = repeat b (length l).
Proof.
  induction l as [| x l IH]; intros H; simpl; [reflexivity |].
  rewrite (H x (or_introl eq_refl)), IH; [reflexivity |].
  intros y Hy; apply H; right; exact Hy.
Qed.

(** The mask [ffft >= 0] of a positive step: [True] on the first
    [(n-1)//2 + 1] bins and [False] on the others. *)
Lemma fftfreq_mask (n : nat) (dts : Q) :
  (1 <= n)%nat -> 0 < dts ->
  let val := 1 / (inject_Z (Z.of_nat n) * dts) in
  let ffft := map (fun k => inject_Z k * val) (fftfreq_pos n ++ fftfreq_neg n) in
  map (fun x => Qle_bool 0 x) ffft
  = repeat true ((n - 1) / 2 + 1) ++ repeat false (n / 2).
Proof.
  intros Hn Hdts val ffft.
  assert (Hnq : 0 < inject_Z (Z.of_nat n)) by (apply inject_Z_pos; lia).
  assert (Hnd : 0 < inject_Z (Z.of_nat n) * dts) by nra.
  assert (Hval : 0 < val) by (unfold val; apply Qdiv_pos; lra).
  unfold ffft. rewrite !map_app, !map_map. f_equal.
  - rewrite (map_constant _ true).
    + unfold fftfreq_pos. rewrite length_map, length_seq. f_equal. lia.
    + intros k Hk. unfold fftfreq_pos in Hk. apply in_map_iff in Hk as (i & <- & Hi).
      apply Qle_bool_iff.
      assert (Hq : inject_Z 0 <= inject_Z (Z.of_nat i)) by (rewrite <- Zle_Qle; lia).
      change (inject_Z 0) with 0 in Hq. nra.
  - rewrite (map_constant _ false).
    + unfold fftfreq_neg. rewrite length_map, length_seq. f_equal. lia.
    + intros k Hk. unfold fftfreq_neg in Hk. apply in_map_iff in Hk as (i & <- & Hi).
      apply in_seq in Hi.
      destruct (Qle_bool 0 _) eqn:E; [| reflexivity].
      apply Qle_bool_iff in E.
      assert (Hq : inject_Z (- (Z.of_nat n / 2) + Z.of_nat i) < inject_Z 0).
      { rewrite <- Zlt_Qlt. lia. }
      change (inject_Z 0) with 0 in Hq. nra.
Qed.

Lemma FFT_signal_ok (Xt : list Q) (dt : Q) (fmax : option Q) (r : Q) (flag : bool) :
  (2 <= length Xt)%nat -> 0 < dt -> (forall f, fmax = Some f -> 0 < f) -> 0 <= r ->
  exists Xs Ns dts,
    FFT_signal Xt dt fmax r flag = Ok (Xs, Ns, dts) /\
    (1 <= length Xs)%nat /\ 0 < dts /\
    Ns == inject_Z (Z.of_nat (length Xt)) * dt / dts.
Proof.
  intros HXt Hdt Hfmax Hr.
  destruct (default_fmax_ok fmax dt Hdt Hfmax) as (fm & Efm & Hfm).
  destruct (FFT_resample_ok Xt dt fm ltac:(lia) Hdt Hfm) as (Xs & EXs & LXs).
  destruct (sampling_parameters (Z.of_nat (length Xt)) dt fm ltac:(lia) Hdt Hfm)
    as (_ & Hdts & _ & HNs & _ & _ & ENs).
  set (dts := fl (1 / (2 * fm))) in *.
  set (Ns := inject_Z (Z.of_nat (length Xt)) / (dts / dt)) in *.
  assert (HrNs : 0 <= r * Ns) by nra.
  destruct flag.
  - exists ((zeros (Z.to_nat (Qfloor (r * Ns))) ++ Xs)
              ++ zeros (Z.to_nat (Qfloor (r * Ns)))), Ns, dts.
    split; [| split; [| split; assumption]].
    + unfold FFT_signal. rewrite Efm; cbn [bind]. rewrite EXs; cbn [bind].
      rewrite zero_pad_ok by exact HrNs. reflexivity.
    + rewrite !length_app. lia.
  - exists Xs, Ns, dts.
    split; [| split; [| split]]; try assumption.
    unfold FFT_signal. rewrite Efm; cbn [bind]. rewrite EXs. reflexivity.
Qed.

End FullSpectrumFacts.

Section FullSpectrum.

Import Spectral.

Variable fft_coef : list Q -> nat -> C.
Variable np_sqrt : Q -> Q.

Lemma np_fft_ok (Xs : list Q) :
  (1 <= length Xs)%nat -> np_fft fft_coef Xs = Ok (map (fft_coef Xs) (seq 0 (length Xs))).
Proof.
  intros H; destruct Xs; [simpl in H; lia | reflexivity].
Qed.


(** C7: on a valid input [FFT] returns one amplitude for each of the first
    [(n-1)//2 + 1] coefficients of the [n]-point transform (those of
    frequency [>= 0]), and amplitude [i] is coefficient [i] times [2/Ns]
    times [K], real and imaginary part alike, where [Ns = N*dt/dts] for the
    float [dts = 1/(2*fmax)], [K = sqrt(Et/Ef)], [Et] is the sum of the
    squares of the signal that is
    transformed and [Ef] the sum of the squared moduli of all [n]
    coefficients over [n]. *)
Theorem C7_amplitude_scaling (Xt : list Q) (dt : Q) (fmax : option Q) (r : Q)
    (flag : bool) :
  (2 <= length Xt)%nat -> 0 < dt -> (forall f, fmax = Some f -> 0 < f) -> 0 <= r ->
  exists fm Xs Ns dts Xf f,
    default_fmax fmax dt = Ok fm /\
    dts = fl (1 / (2 * fm)) /\
    FFT_signal Xt dt fmax r flag = Ok (Xs, Ns, dts) /\
    Ns == inject_Z (Z.of_nat (length Xt)) * dt / dts /\
    FFT fft_coef np_sqrt Xt dt fmax r flag = Ok (Xf, f) /\
    let n := length Xs in
    let Et := fold_left Qplus (map (fun x => Qabs x * Qabs x) Xs) 0 in
    let Ef := fold_left Qplus
                (map (fun k => fst (fft_coef Xs k) * fst (fft_coef Xs k)
                               + snd (fft_coef Xs k) * snd (fft_coef Xs k))
                   (seq 0 n)) 0
              / inject_Z (Z.of_nat n) in
    let K := np_sqrt (Et / Ef) in
    length Xf = ((n - 1) / 2 + 1)%nat /\
    (~ Ef == 0 ->
     forall i, (i < length Xf)%nat ->
       nth i Xf None
       = Some (K * (2 * fst (fft_coef Xs i) / Ns), K * (2 * snd (fft_coef Xs i) / Ns))).
Proof.
  intros HXt Hdt Hfmax Hr.
  destruct (FFT_signal_ok Xt dt fmax r flag HXt Hdt Hfmax Hr)
    as (Xs & Ns & dts & Esig & LXs & Hdts & ENs).
  destruct (default_fmax_ok fmax dt Hdt Hfmax) as (fm & Efm & Hfm).
  assert (Edts : dts = fl (1 / (2 * fm))).
  { destruct (FFT_resample_ok Xt dt fm ltac:(lia) Hdt Hfm) as (Xs0 & EXs0 & _).
    pose proof Esig as E. unfold FFT_signal in E.
    rewrite Efm in E; cbn [bind] in E. rewrite EXs0 in E; cbn [bind] in E.
    destruct (zero_pad flag r _ Xs0); cbn [bind] in E; [| discriminate].
    injection E as _ _ <-. reflexivity. }
  pose proof (np_fft_ok Xs LXs) as Efft.
  set (n := length Xs) in *.
  set (Xfft := map (fft_coef Xs) (seq 0 n)) in *.
  assert (LXfft : length Xfft = n)
    by (unfold Xfft; rewrite length_map, length_seq; reflexivity).
  destruct (fftfreq_retained n dts LXs Hdts) as (Efreq & Lfreq & _).
  pose proof (fftfreq_mask n dts LXs Hdts) as Emask.
  cbv zeta in Efreq, Lfreq, Emask.
  set (ffft := map _ (fftfreq_pos n ++ fftfreq_neg n)) in *.
  set (cnt := ((n - 1) / 2 + 1)%nat) in *.
  assert (Hcnt : (cnt <= n)%nat) by (unfold cnt; lia).
  assert (Ekeep : bool_index Xfft (map (fun x => Qle_bool 0 x) ffft) = firstn cnt Xfft).
  { rewrite Emask. apply bool_index_prefix. }
  assert (EEf : np_sum (map Cabs2 Xfft)
                = fold_left Qplus
                    (map (fun k => fst (fft_coef Xs k) * fst (fft_coef Xs k)
                                   + snd (fft_coef Xs k) * snd (fft_coef Xs k))
                       (seq 0 n)) 0).
  { unfold Xfft. rewrite map_map. reflexivity. }
  exists fm, Xs, Ns, dts.
  eexists; eexists.
  split; [exact Efm |]. split; [exact Edts |].
  split; [exact Esig |]. split; [exact ENs |].
  split.
  { unfold FFT. rewrite Esig; cbn [bind].
    unfold FFT_spectrum. rewrite Efft; cbn [bind].
    rewrite LXfft, Efreq; cbn [bind]. reflexivity. }
  cbv zeta. fold n. rewrite Ekeep, Lfreq, EEf.
  split.
  { rewrite !length_map, length_firstn, LXfft. fold cnt. lia. }
  intros HEf i Hi.
  rewrite !length_map, length_firstn, LXfft, Nat.min_l in Hi by exact Hcnt.
  unfold parseval_K, energy, np_sum.
  rewrite Qeq_bool_false_of_neq by exact HEf.
  rewrite (nth_map_lt _ _ i (0, 0))
    by (rewrite length_map, length_firstn, LXfft; lia).
  rewrite (nth_map_lt _ _ i (0, 0)) by (rewrite length_firstn, LXfft; lia).
  rewrite nth_firstn.
  destruct (Nat.ltb_spec i cnt) as [_ | Hge]; [| lia].
  unfold Xfft. rewrite (nth_map_seq (fft_coef Xs)) by lia.
  reflexivity.
Qed.

End FullSpectrum.

(** ** The returned spectrum *)

Section FrequencyAxis.

Import Spectral.

(** A list of frequencies [i*step] with a positive step is a valid
    frequency axis. *)
Lemma ramp_is_spectrum {A : Type} (Xf : list A) (f : list Q) (step : Q) :
  length Xf = length f -> (1 <= length f)%nat -> 0 < step ->
  (forall i, (i < length f)%nat -> nth i f 0 == inject_Z (Z.of_nat i) * step) ->
  is_spectrum Xf f.
Proof.
  intros Hlen Hne Hstep Hnth.
  split; [exact Hlen |]. split; [exact Hne |].
  split; [| split].
  - rewrite Hnth by lia. change (inject_Z (Z.of_nat 0)) with 0. ring.
  - apply Forall_forall; intros x Hx.
    destruct (In_nth f x 0 Hx) as (i & Hi & <-).
    rewrite Hnth by exact Hi.
    assert (Hq : inject_Z 0 <= inject_Z (Z.of_nat i)) by (rewrite <- Zle_Qle; lia).
    change (inject_Z 0) with 0 in Hq. nra.
  - intros i j Hij.
    rewrite (Hnth i), (Hnth j) by lia.
    assert (Hq : inject_Z (Z.of_nat i) < inject_Z (Z.of_nat j))
      by (rewrite <- Zlt_Qlt; lia).
    nra.
Qed.

Lemma rfftfreq_ok (n : nat) (dts : Q) :
  (1 <= n)%nat -> 0 < dts ->
  let nd := inject_Z (Z.of_nat n) * dts in
  0 < nd /\
  rfftfreq n dts = Ok (map (fun i => inject_Z (Z.of_nat i / 2) / nd) (seq 1 n)).
Proof.
  intros Hn Hdts nd.
  assert (Hnq : 0 < inject_Z (Z.of_nat n)) by (apply inject_Z_pos; lia).
  assert (Hnd : 0 < nd) by (unfold nd; nra).
  split; [exact Hnd |].
  unfold rfftfreq; fold nd.
  rewrite Qeq_bool_false_of_neq by (intros E; lra). reflexivity.
Qed.

End FrequencyAxis.

Section ReturnedSpectrum.

Import Spectral.

Variable fft_coef : list Q -> nat -> C.
Variable rfft_coef : list Q -> nat -> nat -> Q.
Variable np_sqrt : Q -> Q.

Lemma FFT_is_spectrum (Xt : list Q) (dt : Q) (fmax : option Q) (r : Q) (flag : bool) :
  (2 <= length Xt)%nat -> 0 < dt -> (forall f, fmax = Some f -> 0 < f) -> 0 <= r ->
  exists Xf f,
    FFT fft_coef np_sqrt Xt dt fmax r flag = Ok (Xf, f) /\ is_spectrum Xf f.
Proof.
  intros HXt Hdt Hfmax Hr.
  destruct (FFT_signal_ok Xt dt fmax r flag HXt Hdt Hfmax Hr)
    as (Xs & Ns & dts & Esig & LXs & Hdts & _).
  pose proof (np_fft_ok fft_coef Xs LXs) as Efft.
  set (Xfft := map (fft_coef Xs) (seq 0 (length Xs))) in *.
  assert (LXfft : length Xfft = length Xs)
    by (unfold Xfft; rewrite length_map, length_seq; reflexivity).
  destruct (fftfreq_retained (length Xs) dts LXs Hdts) as (Efreq & Lfreq & Hval & Ekeep).
  set (val := 1 / (inject_Z (Z.of_nat (length Xs)) * dts)) in *.
  set (ffft := map _ (fftfreq_pos (length Xs) ++ fftfreq_neg (length Xs))) in *.
  eexists; eexists; split.
  { unfold FFT. rewrite Esig; cbn [bind].
    unfold FFT_spectrum. rewrite Efft; cbn [bind].
    rewrite LXfft, Efreq. reflexivity. }
  assert (Lkeep : length (map (fun k => inject_Z k * val) (fftfreq_pos (length Xs)))
                  = Z.to_nat ((Z.of_nat (length Xs) - 1) / 2 + 1)).
  { unfold fftfreq_pos. rewrite !length_map, length_seq. reflexivity. }
  apply (ramp_is_spectrum _ _ val).
  - rewrite !length_map. apply bool_index_length_same.
    rewrite LXfft, Lfreq. reflexivity.
  - rewrite Ekeep, Lkeep. lia.
  - exact Hval.
  - rewrite Ekeep. intros i Hi. rewrite Lkeep in Hi.
    unfold fftfreq_pos. rewrite map_map.
    rewrite (nth_map_seq (fun i => inject_Z (Z.of_nat i) * val)) by exact Hi.
    reflexivity.
Qed.

Lemma DFT_is_spectrum (Xt : list Q) (dt : Q) (fmax : option Q) (Nf : Z) :
  (2 <= length Xt)%nat -> 0 < dt -> (forall f, fmax = Some f -> 0 < f) -> (1 <= Nf)%Z ->
  length (arange0 (fl (inject_Z (Z.of_nat (length Xt)) * dt)) dt) = length Xt ->
  exists Xf f,
    DFT rfft_coef np_sqrt Xt dt fmax Nf = Ok (Xf, f) /\ is_spectrum Xf f.
Proof.
  intros HXt Hdt Hfmax HNf Hgrid.
  destruct (default_fmax_ok fmax dt Hdt Hfmax) as (fm & Efm & Hfm).
  destruct (DFT_resample_ok Xt dt fm ltac:(lia) Hdt Hfm Hgrid) as (Xs & EXs & LXs).
  destruct (sampling_parameters (Z.of_nat (length Xt)) dt fm ltac:(lia) Hdt Hfm)
    as (_ & Hdts & _ & _ & _ & _ & _).
  set (dts := fl (1 / (2 * fm))) in *.
  set (Ns := inject_Z (Z.of_nat (length Xt)) / (dts / dt)) in *.
  destruct (Z.to_nat Nf) as [| n] eqn:En; [lia |].
  destruct (rfftfreq_ok (S n) dts ltac:(lia) Hdts) as (Hnd & Efreq).
  set (nd := inject_Z (Z.of_nat (S n)) * dts) in *.
  set (h := fun i : nat => inject_Z (Z.of_nat i / 2) / nd) in *.
  set (g := rfft_coef Xs (S n)).
  assert (Epack : fftpack_rfft rfft_coef Xs Nf = Ok (g 0%nat :: map g (seq 1 n))).
  { unfold fftpack_rfft.
    destruct (Z.ltb_spec Nf 1) as [Hlt | _]; [lia |].
    rewrite En. reflexivity. }
  assert (Lxs : length (map g (seq 1 n)) = n) by (rewrite length_map, length_seq; reflexivity).
  assert (Lfs : length (map h (seq 2 n)) = n) by (rewrite length_map, length_seq; reflexivity).
  destruct (DFT_unpack_closed (g 0%nat) (h 1%nat) (map g (seq 1 n)) (map h (seq 2 n)) Nf)
    as (Lre & Lim & Erun); [rewrite Lxs; exact En | rewrite Lxs, Lfs; reflexivity |].
  rewrite Lxs in Lre, Lim, Erun.
  eexists; eexists; split.
  { unfold DFT. rewrite Efm; cbn [bind]. rewrite EXs; cbn [bind].
    rewrite Epack; cbn [bind].
    cbn [length]; rewrite Lxs, Efreq; cbn [bind seq map].
    rewrite getitem_first; cbn [bind].
    rewrite Erun. reflexivity. }
  assert (Lkeep : length (bool_index (map h (seq 2 n)) (map Nat.even (seq 1 n)))
                  = (n / 2)%nat).
  { rewrite bool_index_parity_length by (rewrite Lfs; lia). reflexivity. }
  apply (ramp_is_spectrum _ _ (1 / nd)).
  - rewrite length_map. unfold C. cbn [length].
    rewrite length_map, length_combine, Lre, Lim, Lkeep. lia.
  - cbn [length]. lia.
  - apply Qdiv_pos; lra.
  - cbn [length]. rewrite Lkeep. intros [| j] Hj.
    + cbn [nth]. change (inject_Z (Z.of_nat 0)) with 0. ring.
    + cbn [nth].
      rewrite bool_index_parity_nth by (rewrite ?Lfs; cbn [Nat.even]; lia).
      cbn [Nat.even].
      rewrite (nth_map_lt h _ _ 0%nat) by (rewrite length_seq; lia).
      rewrite seq_nth by lia.
      unfold h.
      replace (Z.of_nat (2 + (2 * j + 1)) / 2)%Z with (Z.of_nat (S j)) by lia.
      field. intros E; lra.
Qed.

(** On a valid input [FFT] returns a pair [(Xf, f)] with as many
    amplitudes as frequencies, whose frequencies are non-negative and
    ascending and start with the bin 0; [DFT] does so when the grid
    [np.arange(0, T, dt)] has as many points as the signal. *)
Theorem returned_spectra (Xt : list Q) (dt : Q) (fmax : option Q) (r : Q)
    (flag : bool) (Nf : Z) :
  (2 <= length Xt)%nat -> 0 < dt -> (forall f, fmax = Some f -> 0 < f) ->
  0 <= r -> (1 <= Nf)%Z ->
  (exists Xf f,
     FFT fft_coef np_sqrt Xt dt fmax r flag = Ok (Xf, f) /\ is_spectrum Xf f) /\
  (length (arange0 (fl (inject_Z (Z.of_nat (length Xt)) * dt)) dt) = length Xt ->
   exists Xf f,
     DFT rfft_coef np_sqrt Xt dt fmax Nf = Ok (Xf, f) /\ is_spectrum Xf f).
Proof.
  intros HXt Hdt Hfmax Hr HNf; split.
  - apply FFT_is_spectrum; assumption.
  - intros Hgrid. apply DFT_is_spectrum; assumption.
Qed.

(** C9, evaluated: the signal [[1, 2, 3]] with the float [dt = 0.1],
    [fmax = 5] and [Nf = 4] is a valid input, on which [FFT] returns a
    spectrum; in [DFT] the float product [T = 3*dt] is
    [0.30000000000000004], the float quotient [T/dt] is
    [3.0000000000000004], so the grid [np.arange(0, T, dt)] has 4 points for
    3 samples and [np.interp] ends the call with [ValueError]. *)
Theorem C9_DFT_rejects_valid_signal :
  let dt := Examples.tenth in
  let N := inject_Z (Z.of_nat (length Examples.Xt3)) in
  (2 <= length Examples.Xt3)%nat /\ 0 < dt /\ 0 < 5 /\ (1 <= 4)%Z /\
  dt == 3602879701896397 # 36028797018963968 /\
  fl (N * dt) == 5404319552844596 # 18014398509481984 /\
  fl (fl (N * dt) / dt) == 6755399441055745 # 2251799813685248 /\
  length (arange0 (fl (N * dt)) dt) = 4%nat /\
  (exists Xf f,
     FFT fft_coef np_sqrt Examples.Xt3 dt (Some 5) 2 true = Ok (Xf, f) /\
     is_spectrum Xf f) /\
  DFT rfft_coef np_sqrt Examples.Xt3 dt (Some 5) 4 = Raise ValueError.
Proof.
  intros dt N.
  assert (Hdt : 0 < dt) by reflexivity.
  split; [simpl; lia |]. split; [exact Hdt |]. split; [reflexivity |].
  split; [lia |].
  split; [vm_compute; reflexivity |].
  split; [vm_compute; reflexivity |].
  split; [vm_compute; reflexivity |].
  split; [vm_compute; reflexivity |].
  split.
  - apply FFT_is_spectrum.
    + simpl; lia.
    + exact Hdt.
    + intros f Hf; injection Hf as <-; reflexivity.
    + unfold Qle; simpl; lia.
  - vm_compute; reflexivity.
Qed.

End ReturnedSpectrum.

(** ** The transforms on a two-sample signal *)

Section SmallTransforms.

Import Spectral Examples.

Lemma half_positive : forall f : Q, Some (1 # 2) = Some f -> 0 < f.
Proof. intros f H; injection H as <-; reflexivity. Defined.


Lemma C7_amplitude_scaling_witness :
  (2 <= length Xt2)%nat /\ 0 < 1 /\ 0 <= 1 # 2 /\
  exists Xf f,
    FFT dft_small sqrt_exact Xt2 1 (Some (1 # 2)) (1 # 2) true = Ok (Xf, f).
Proof.
  assert (H1 : (2 <= length Xt2)%nat) by (simpl; lia).
  assert (H2 : 0 < 1) by reflexivity.
  assert (H3 : 0 <= 1 # 2) by (unfold Qle; simpl; lia).
  repeat (split; [assumption |]).
  destruct (C7_amplitude_scaling dft_small sqrt_exact Xt2 1 (Some (1 # 2)) (1 # 2) true
              H1 H2 half_positive H3)
    as (fm & Xs & Ns & dts & Xf & f & _ & _ & _ & _ & Hrun & _).
  exists Xf, f; exact Hrun.
Defined.

Lemma grid_of_two : length (arange0 (fl (inject_Z (Z.of_nat (length Xt2)) * 1)) 1) = length Xt2.
Proof. vm_compute; reflexivity. Defined.

Lemma returned_spectra_witness :
  (2 <= length Xt2)%nat /\ 0 < 1 /\ 0 <= 1 # 2 /\ (1 <= 4)%Z /\
  (exists Xf f,
     FFT dft_small sqrt_exact Xt2 1 (Some (1 # 2)) (1 # 2) true = Ok (Xf, f) /\
     is_spectrum Xf f) /\
  (exists Xf f,
     DFT rfft_small sqrt_exact Xt2 1 (Some (1 # 2)) 4 = Ok (Xf, f) /\
     is_spectrum Xf f).
Proof.
  assert (H1 : (2 <= length Xt2)%nat) by (simpl; lia).
  assert (H2 : 0 < 1) by reflexivity.
  assert (H3 : 0 <= 1 # 2) by (unfold Qle; simpl; lia).
  assert (H4 : (1 <= 4)%Z) by lia.
  repeat (split; [assumption |]).
  destruct (returned_spectra dft_small rfft_small sqrt_exact Xt2 1 (Some (1 # 2))
              (1 # 2) true 4 H1 H2 half_positive H3 H4) as [HF HD].
  split; [exact HF | exact (HD grid_of_two)].
Defined.

End SmallTransforms.

(** ** More on the transverse wake potential *)

Section TransverseGeneral.

Import Wake.

Lemma getitem_short {A : Type} (l : list A) (i : nat) :
  (length l <= i)%nat -> getitem l (Z.of_nat i) = Raise IndexError.
Proof.
  intros H; unfold getitem.
  destruct (Z.ltb_spec (Z.of_nat i) 0) as [Hn | _]; [lia |].
  destruct (Z.ltb_spec (Z.of_nat i) (Z.of_nat (length l))) as [Hlt | _]; [lia |].
  rewrite andb_false_r; reflexivity.
Qed.

Lemma has_shape_3_3_inv (WP_3d : list (list (list Q))) (m : nat) :
  has_shape_3_3 WP_3d m ->
  exists a00 a01 a02 a10 a11 a12 a20 a21 a22,
    WP_3d = [[a00; a01; a02]; [a10; a11; a12]; [a20; a21; a22]] /\
    Forall (fun slice => length slice = m) [a00; a01; a02; a10; a11; a12; a20; a21; a22].
Proof.
  intros [Hlen Hrows].
  destruct WP_3d as [| r0 [| r1 [| r2 [| ? ?]]]]; try discriminate.
  inversion Hrows as [| ? ? [L0 F0] Hrows1]; subst.
  inversion Hrows1 as [| ? ? [L1 F1] Hrows2]; subst.
  inversion Hrows2 as [| ? ? [L2 F2] _]; subst.
  destruct r0 as [| a00 [| a01 [| a02 [| ? ?]]]]; try discriminate.
  destruct r1 as [| a10 [| a11 [| a12 [| ? ?]]]]; try discriminate.
  destruct r2 as [| a20 [| a21 [| a22 [| ? ?]]]]; try discriminate.
  exists a00, a01, a02, a10, a11, a12, a20, a21, a22.
  split; [reflexivity |].
  repeat match goal with
         | H : Forall _ (_ :: _) |- _ => inversion H; subst; clear H
         end.
  repeat constructor; assumption.
Qed.

(** The loop body of [calc_trans_WP] on an array of shape [(3, 3, m)]. *)
Lemma trans_body_closed (dx dy ds : Q) (WP_3d : list (list (list Q))) (m n : nat) :
  ~ dx == 0 -> ~ dy == 0 -> has_shape_3_3 WP_3d m -> (n < m)%nat ->
  trans_body dx dy WP_3d ds n
  = Ok (- (running_integral WP_3d 2 1 ds n - running_integral WP_3d 0 1 ds n) / (2 * dx),
        - (running_integral WP_3d 1 2 ds n - running_integral WP_3d 1 0 ds n) / (2 * dy)).
Proof.
  intros Hdx Hdy Hshape Hn.
  destruct (has_shape_3_3_inv WP_3d m Hshape)
    as (a00 & a01 & a02 & a10 & a11 & a12 & a20 & a21 & a22 & -> & Hlens).
  repeat match goal with
         | H : Forall _ (_ :: _) |- _ => inversion H; subst; clear H
         end.
  unfold trans_body, int_WP_at, running_integral. simpl.
  rewrite !(getitem_nat_lt _ n 0) by lia.
  cbn [bind].
  unfold get2, i0, j0. simpl.
  rewrite !np_div_nonzero by (intros E; first [apply Hdx | apply Hdy]; lra).
  reflexivity.
Qed.

(** [calc_trans_WP] in closed form on an array of shape [(3, 3, m)]. *)
Lemma calc_trans_WP_closed (dx dy : Q) (s : list Q) (WP_3d : list (list (list Q)))
    (m : nat) :
  ~ dx == 0 -> ~ dy == 0 -> (3 <= length s)%nat -> (length s <= m)%nat ->
  has_shape_3_3 WP_3d m ->
  let ds := nth 2 s 0 - nth 1 s 0 in
  calc_trans_WP dx dy s WP_3d
  = Ok (map (fun n => - (running_integral WP_3d 2 1 ds n
                          - running_integral WP_3d 0 1 ds n) / (2 * dx))
          (seq 0 (length s)),
        map (fun n => - (running_integral WP_3d 1 2 ds n
                          - running_integral WP_3d 1 0 ds n) / (2 * dy))
          (seq 0 (length s))).
Proof.
  intros Hdx Hdy Hs Hm Hshape ds.
  unfold calc_trans_WP.
  rewrite (getitem_nat_lt s 2 0 ltac:(lia) : getitem s 2 = _).
  rewrite (getitem_nat_lt s 1 0 ltac:(lia) : getitem s 1 = _).
  cbn [bind]; fold ds.
  rewrite (map_result_ok _
    (fun n => (- (running_integral WP_3d 2 1 ds n
                   - running_integral WP_3d 0 1 ds n) / (2 * dx),
               - (running_integral WP_3d 1 2 ds n
                   - running_integral WP_3d 1 0 ds n) / (2 * dy)))).
  - cbn [bind]. rewrite !map_map. reflexivity.
  - intros n Hn. apply in_seq in Hn.
    apply (trans_body_closed dx dy ds WP_3d m); try assumption. lia.
Qed.

(** [calc_trans_WP] needs three points of [s] for [ds = s[2]-s[1]]. *)
Theorem calc_trans_WP_short_s (dx dy : Q) (s : list Q) (WP_3d : list (list (list Q))) :
  (length s < 3)%nat -> calc_trans_WP dx dy s WP_3d = Raise IndexError.
Proof.
  intros H; unfold calc_trans_WP.
  rewrite (getitem_short s 2 ltac:(lia) : getitem s 2 = _). reflexivity.
Qed.

(** Only the four slices next to the centre along x and along y enter the
    transverse wake potentials: two arrays of the same shape that agree on
    them give the same [(WPx, WPy)], whatever their centre and corner
    slices. *)
Theorem calc_trans_WP_four_slices (dx dy : Q) (s : list Q)
    (WP_3d WP_3d' : list (list (list Q))) (m : nat) :
  ~ dx == 0 -> ~ dy == 0 -> (3 <= length s)%nat -> (length s <= m)%nat ->
  has_shape_3_3 WP_3d m -> has_shape_3_3 WP_3d' m ->
  nth 1 (nth 0 WP_3d []) [] = nth 1 (nth 0 WP_3d' []) [] ->
  nth 1 (nth 2 WP_3d []) [] = nth 1 (nth 2 WP_3d' []) [] ->
  nth 0 (nth 1 WP_3d []) [] = nth 0 (nth 1 WP_3d' []) [] ->
  nth 2 (nth 1 WP_3d []) [] = nth 2 (nth 1 WP_3d' []) [] ->
  exists WPx WPy,
    calc_trans_WP dx dy s WP_3d = Ok (WPx, WPy) /\
    calc_trans_WP dx dy s WP_3d' = Ok (WPx, WPy) /\
    length WPx = length s /\ length WPy = length s.
Proof.
  intros Hdx Hdy Hs Hm Hshape Hshape' E01 E21 E10 E12.
  rewrite (calc_trans_WP_closed dx dy s WP_3d m) by assumption.
  rewrite (calc_trans_WP_closed dx dy s WP_3d' m) by assumption.
  unfold running_integral. rewrite E01, E21, E10, E12.
  eexists; eexists; split; [reflexivity |]. split; [reflexivity |].
  rewrite !length_map, length_seq. split; reflexivity.
Qed.

(** The running integral at index 0 is the empty sum: the first sample of
    both transverse wake potentials is zero for every field. *)
Theorem calc_trans_WP_first_sample (dx dy : Q) (s : list Q)
    (WP_3d : list (list (list Q))) (m : nat) :
  ~ dx == 0 -> ~ dy == 0 -> (3 <= length s)%nat -> (length s <= m)%nat ->
  has_shape_3_3 WP_3d m ->
  exists WPx WPy,
    calc_trans_WP dx dy s WP_3d = Ok (WPx, WPy) /\
    nth 0 WPx 1 == 0 /\ nth 0 WPy 1 == 0.
Proof.
  intros Hdx Hdy Hs Hm Hshape.
  rewrite (calc_trans_WP_closed dx dy s WP_3d m) by assumption.
  eexists; eexists; split; [reflexivity |].
  destruct s as [| s0 s']; [simpl in Hs; lia |].
  cbn [length seq map nth]. unfold running_integral, np_sum, Qdiv.
  cbn [firstn fold_left]. split; ring.
Qed.

(** The integration step is [ds = s[2]-s[1]] only: when these two points of
    [s] coincide, both transverse wake potentials vanish at every index,
    whatever the field. *)
Theorem calc_trans_WP_zero_step (dx dy : Q) (s : list Q)
    (WP_3d : list (list (list Q))) (m : nat) :
  ~ dx == 0 -> ~ dy == 0 -> (3 <= length s)%nat -> (length s <= m)%nat ->
  has_shape_3_3 WP_3d m ->
  nth 1 s 0 == nth 2 s 0 ->
  exists WPx WPy,
    calc_trans_WP dx dy s WP_3d = Ok (WPx, WPy) /\
    length WPx = length s /\ length WPy = length s /\
    Forall (fun x => x == 0) WPx /\ Forall (fun y => y == 0) WPy.
Proof.
  intros Hdx Hdy Hs Hm Hshape Hds.
  rewrite (calc_trans_WP_closed dx dy s WP_3d m) by assumption.
  eexists; eexists; split; [reflexivity |].
  rewrite !length_map, length_seq.
  split; [reflexivity |]. split; [reflexivity |].
  assert (Hzero : nth 2 s 0 - nth 1 s 0 == 0) by lra.
  split; apply Forall_forall; intros x Hx;
    apply in_map_iff in Hx as (n & <- & _);
    unfold running_integral, Qdiv; rewrite Hzero; ring.
Qed.

Lemma WP_3d_full_shape : has_shape_3_3 Examples.WP_3d_full 5.
Proof. split; [reflexivity | repeat constructor]. Defined.

Lemma WP_3d_cross_shape : has_shape_3_3 Examples.WP_3d_cross 5.
Proof. split; [reflexivity | repeat constructor]. Defined.

Lemma nonzero_spacing : ~ 1 # 1000 == 0.
Proof. unfold Qeq; simpl; lia. Defined.

Lemma calc_trans_WP_short_s_witness :
  (length [0; 1] < 3)%nat /\
  calc_trans_WP (1 # 1000) (1 # 1000) [0; 1] Examples.WP_3d_full = Raise IndexError.
Proof.
  assert (H : (length [0; 1] < 3)%nat) by (simpl; lia).
  split; [exact H |].
  exact (calc_trans_WP_short_s (1 # 1000) (1 # 1000) [0; 1] Examples.WP_3d_full H).
Defined.

Lemma calc_trans_WP_four_slices_witness :
  (3 <= length Examples.s5)%nat /\ (length Examples.s5 <= 5)%nat /\
  exists WPx WPy,
    calc_trans_WP (1 # 1000) (1 # 1000) Examples.s5 Examples.WP_3d_full = Ok (WPx, WPy) /\
    calc_trans_WP (1 # 1000) (1 # 1000) Examples.s5 Examples.WP_3d_cross = Ok (WPx, WPy) /\
    length WPx = length Examples.s5 /\ length WPy = length Examples.s5.
Proof.
  assert (H1 : (3 <= length Examples.s5)%nat) by (simpl; lia).
  assert (H2 : (length Examples.s5 <= 5)%nat) by (simpl; lia).
  repeat (split; [assumption |]).
  exact (calc_trans_WP_four_slices (1 # 1000) (1 # 1000) Examples.s5
           Examples.WP_3d_full Examples.WP_3d_cross 5
           nonzero_spacing nonzero_spacing H1 H2 WP_3d_full_shape WP_3d_cross_shape
           eq_refl eq_refl eq_refl eq_refl).
Defined.

Lemma calc_trans_WP_first_sample_witness :
  (3 <= length Examples.s5)%nat /\ (length Examples.s5 <= 5)%nat /\
  exists WPx WPy,
    calc_trans_WP (1 # 1000) (1 # 1000) Examples.s5 Examples.WP_3d_full = Ok (WPx, WPy) /\
    nth 0 WPx 1 == 0 /\ nth 0 WPy 1 == 0.
Proof.
  assert (H1 : (3 <= length Examples.s5)%nat) by (simpl; lia).
  assert (H2 : (length Examples.s5 <= 5)%nat) by (simpl; lia).
  repeat (split; [assumption |]).
  exact (calc_trans_WP_first_sample (1 # 1000) (1 # 1000) Examples.s5
           Examples.WP_3d_full 5 nonzero_spacing nonzero_spacing H1 H2 WP_3d_full_shape).
Defined.

Lemma calc_trans_WP_zero_step_witness :
  (3 <= length Examples.s5_join)%nat /\ (length Examples.s5_join <= 5)%nat /\
  nth 1 Examples.s5_join 0 == nth 2 Examples.s5_join 0 /\
  exists WPx WPy,
    calc_trans_WP (1 # 1000) (1 # 1000) Examples.s5_join Examples.WP_3d_full
    = Ok (WPx, WPy) /\
    length WPx = length Examples.s5_join /\ length WPy = length Examples.s5_join /\
    Forall (fun x => x == 0) WPx /\ Forall (fun y => y == 0) WPy.
Proof.
  assert (H1 : (3 <= length Examples.s5_join)%nat) by (simpl; lia).
  assert (H2 : (length Examples.s5_join <= 5)%nat) by (simpl; lia).
  assert (H3 : nth 1 Examples.s5_join 0 == nth 2 Examples.s5_join 0) by reflexivity.
  repeat (split; [assumption |]).
  exact (calc_trans_WP_zero_step (1 # 1000) (1 # 1000) Examples.s5_join
           Examples.WP_3d_full 5 nonzero_spacing nonzero_spacing H1 H2
           WP_3d_full_shape H3).
Defined.

End TransverseGeneral.

(** ** More on the coordinate [s] *)

Section CoordinateGeneral.

Import Wake.

Lemma build_s_bounds (t_inj dt wl : Q) :
  0 <= t_inj -> 0 < dt -> 0 <= wl ->
  exists s, build_s t_inj dt wl = Ok s /\
    forall n, (n < length s)%nat -> - t_inj * c <= nth n s 0 /\ nth n s 0 <= wl.
Proof.
  intros Ht Hdt Hwl.
  pose proof c_pos as Hc.
  destruct (build_s_segments t_inj dt wl Ht Hdt Hwl)
    as (s_neg & s_pos & E1 & E2 & L1 & L2 & Es).
  assert (Hstart : - t_inj * c <= 0) by nra.
  pose proof (linspace_range _ _ _ _ Hstart E1) as R1.
  pose proof (linspace_range _ _ _ _ Hwl E2) as R2.
  exists (s_neg ++ s_pos); split; [exact Es |].
  intros n Hn. rewrite length_app in Hn.
  destruct (Nat.lt_ge_cases n (length s_neg)) as [Hlt | Hge].
  - rewrite app_nth1 by exact Hlt.
    destruct (R1 n Hlt). split; lra.
  - rewrite app_nth2 by exact Hge.
    destruct (R2 (n - length s_neg)%nat ltac:(lia)). split; lra.
Qed.

(** Every point of [s] lies between [-t_inj*c] and the wake length. *)
Theorem build_s_range (t_inj dt wl : Q) :
  0 <= t_inj -> 0 < dt -> 0 <= wl ->
  exists s, build_s t_inj dt wl = Ok s /\
    forall n, (n < length s)%nat -> - t_inj * c <= nth n s 0 /\ nth n s 0 <= wl.
Proof. exact (build_s_bounds t_inj dt wl). Qed.

Lemma build_s_range_witness :
  0 <= 2 /\ 0 < 1 /\ 0 <= 3 * c /\
  exists s, build_s 2 1 (3 * c) = Ok s /\ nth 4 s 0 <= 3 * c.
Proof.
  assert (H1 : 0 <= 2) by (unfold Qle; simpl; lia).
  assert (H2 : 0 < 1) by reflexivity.
  assert (H3 : 0 <= 3 * c) by (unfold Qle; simpl; lia).
  repeat (split; [assumption |]).
  destruct (build_s_range 2 1 (3 * c) H1 H2 H3) as (s & Hs & Hrange).
  exists s; split; [exact Hs |].
  apply Hrange.
  assert (E : Ok s = build_s 2 1 (3 * c)) by (symmetry; exact Hs).
  vm_compute in E. injection E as ->. simpl; lia.
Defined.

(** When the simulated time is too short for the domain, so that
    [Wake_length <= -dt*c], the number of positive points is negative and
    building [s] raises [ValueError]. *)
Theorem build_s_short_simulation (t_inj dt wl : Q) :
  0 <= t_inj -> 0 < dt -> wl <= - (dt * c) ->
  build_s t_inj dt wl = Raise ValueError.
Proof.
  intros Ht Hdt Hwl.
  pose proof c_pos as Hc.
  assert (Hdc : 0 < dt * c) by nra.
  unfold build_s.
  rewrite (int_quot_pos t_inj dt) by lra. cbn [bind].
  unfold int_quot. rewrite Qeq_bool_false_of_neq by (intros E; lra). cbn [bind].
  assert (Hq : wl / (dt * c) <= - (1)).
  { apply Qle_shift_div_r; [exact Hdc |]. lra. }
  assert (Hneg : (py_int (wl / (dt * c)) <= -1)%Z).
  { unfold py_int. destruct (wl / (dt * c)) as [num den] eqn:E.
    unfold Qle in Hq; simpl in Hq.
    cbn [Qnum Qden].
    assert (Hn : (num <= - Z.pos den)%Z) by lia.
    pose proof (Z.quot_le_mono num (- Z.pos den) (Z.pos den) ltac:(lia) Hn) as Hmono.
    rewrite Z.quot_opp_l, Z.quot_same in Hmono by lia. exact Hmono. }
  assert (H1 : (0 <= Qfloor (t_inj / dt))%Z).
  { apply Qfloor_nonneg, Qle_shift_div_l; lra. }
  destruct (linspace_nth (- t_inj * c) 0 _ H1) as (s_neg & E1 & _).
  rewrite E1. cbn [bind].
  unfold linspace at 1.
  destruct (Z.ltb_spec (py_int (wl / (dt * c))) 0) as [_ | Hge]; [reflexivity | lia].
Qed.

Lemma build_s_short_simulation_witness :
  0 <= 1 /\ 0 < 1 /\ - (2 * c) <= - (1 * c) /\
  build_s 1 1 (- (2 * c)) = Raise ValueError.
Proof.
  assert (H1 : 0 <= 1) by (unfold Qle; simpl; lia).
  assert (H2 : 0 < 1) by reflexivity.
  assert (H3 : - (2 * c) <= - (1 * c)) by (unfold Qle; simpl; lia).
  repeat (split; [assumption |]).
  exact (build_s_short_simulation 1 1 (- (2 * c)) H1 H2 H3).
Defined.



End CoordinateGeneral.

(** ** Errors and edge cases of the transforms *)

Section PaddingFacts.

Import Spectral.



Lemma py_div_zero (a b : Q) : b == 0 -> py_div a b = Raise ZeroDivisionError.
Proof.
  intros H; unfold py_div.
  apply Qeq_bool_iff in H. rewrite H. reflexivity.
Qed.

Lemma np_sum_shift (l : list Q) (a : Q) : fold_left Qplus l a == a + np_sum l.
Proof.
  unfold np_sum. revert a.
  induction l as [| x l IH]; intros a; simpl; [ring |].
  rewrite (IH (a + x)), (IH (0 + x)). ring.
Qed.

Lemma np_sum_app (l l' : list Q) : np_sum (l ++ l') == np_sum l + np_sum l'.
Proof.
  unfold np_sum at 1. rewrite fold_left_app.
  rewrite np_sum_shift. reflexivity.
Qed.

Lemma energy_app (l l' : list Q) : energy (l ++ l') == energy l + energy l'.
Proof. unfold energy. rewrite map_app. apply np_sum_app. Qed.

Lemma energy_zeros (n : nat) : energy (zeros n) == 0.
Proof.
  unfold energy, zeros.
  induction n as [| n IH]; [reflexivity |].
  cbn [repeat map].
  change (np_sum (?x :: ?l)) with (fold_left Qplus l (0 + x)).
  rewrite np_sum_shift, IH. reflexivity.
Qed.

(** Zero padding does not change the time-domain energy [Et]. *)
Theorem zero_pad_keeps_energy (flag : bool) (r Ns : Q) (Xs Xpad : list Q) :
  zero_pad flag r Ns Xs = Ok Xpad -> energy Xpad == energy Xs.
Proof.
  unfold zero_pad. destruct flag.
  - destruct (py_int (r * Ns) <? 0)%Z; [discriminate |].
    intros H; injection H as <-.
    rewrite !energy_app, energy_zeros. ring.
  - intros H; injection H as <-. reflexivity.
Qed.

Lemma zero_pad_keeps_energy_witness :
  zero_pad true (3 # 2) 1 [1; - (2)] = Ok [0; 1; - (2); 0] /\
  energy [0; 1; - (2); 0] == energy [1; - (2)].
Proof.
  assert (H : zero_pad true (3 # 2) 1 [1; - (2)] = Ok [0; 1; - (2); 0]) by reflexivity.
  split; [exact H |].
  exact (zero_pad_keeps_energy true (3 # 2) 1 [1; - (2)] [0; 1; - (2); 0] H).
Defined.

End PaddingFacts.

Section TransformErrors.

Import Spectral.

Variable fft_coef : list Q -> nat -> C.
Variable rfft_coef : list Q -> nat -> nat -> Q.
Variable np_sqrt : Q -> Q.

Lemma resample_zero_division (Xt : list Q) (dt fm : Q) :
  Xt = [] \/ dt == 0 \/ fm == 0 ->
  FFT_resample Xt dt fm = Raise ZeroDivisionError /\
  DFT_resample Xt dt fm = Raise ZeroDivisionError.
Proof.
  intros H. unfold FFT_resample, DFT_resample.
  destruct (Qeq_bool (fl (inject_Z (Z.of_nat (length Xt)) * dt)) 0) eqn:ET.
  - apply Qeq_bool_iff in ET. rewrite (py_div_zero 1 _ ET). split; reflexivity.
  - apply Qeq_bool_neq in ET. rewrite (py_div_nonzero 1 _ ET). cbn [bind].
    destruct H as [-> | [Hdt | Hfm]].
    + exfalso; apply ET. rewrite fl_zero; [reflexivity |]. simpl. ring.
    + exfalso; apply ET. rewrite fl_zero; [reflexivity |]. rewrite Hdt. ring.
    + rewrite (py_div_zero 1 (2 * fm)) by (rewrite Hfm; ring). split; reflexivity.
Qed.

(** An empty signal, a zero time step or a zero [fmax] end both transforms
    with [ZeroDivisionError]. *)
Theorem transforms_zero_division (Xt : list Q) (dt : Q) (fmax : option Q) (r : Q)
    (flag : bool) (Nf : Z) :
  Xt = [] \/ dt == 0 \/ (exists f, fmax = Some f /\ f == 0) ->
  FFT fft_coef np_sqrt Xt dt fmax r flag = Raise ZeroDivisionError /\
  DFT rfft_coef np_sqrt Xt dt fmax Nf = Raise ZeroDivisionError.
Proof.
  intros H. unfold FFT, FFT_signal, DFT.
  destruct fmax as [f |]; cbn [default_fmax bind].
  - assert (H' : Xt = [] \/ dt == 0 \/ f == 0).
    { destruct H as [H | [H | (f' & E & H)]]; auto.
      injection E as <-. auto. }
    destruct (resample_zero_division Xt dt f H') as [-> ->]. split; reflexivity.
  - destruct (Qeq_bool dt 0) eqn:Edt.
    + apply Qeq_bool_iff in Edt. rewrite (py_div_zero 1 dt Edt). split; reflexivity.
    + apply Qeq_bool_neq in Edt. rewrite (py_div_nonzero 1 dt Edt). cbn [bind].
      assert (H' : Xt = [] \/ dt == 0 \/ 1 / dt == 0).
      { destruct H as [H | [H | (f' & E & _)]]; auto. discriminate. }
      destruct (resample_zero_division Xt dt (1 / dt) H') as [-> ->].
      split; reflexivity.
Qed.

End TransformErrors.

Section PaddingErrors.

Import Spectral.

Variable fft_coef : list Q -> nat -> C.
Variable np_sqrt : Q -> Q.


End PaddingErrors.

Section SizeErrors.

Import Spectral.

Variable rfft_coef : list Q -> nat -> nat -> Q.
Variable np_sqrt : Q -> Q.

(** On a valid signal a target size [Nf < 1] ends [DFT] with
    [ValueError]. *)
Theorem DFT_size_below_one (Xt : list Q) (dt : Q) (fmax : option Q) (Nf : Z) :
  (1 <= length Xt)%nat -> 0 < dt -> (forall f, fmax = Some f -> 0 < f) ->
  (Nf < 1)%Z ->
  DFT rfft_coef np_sqrt Xt dt fmax Nf = Raise ValueError.
Proof.
  intros HXt Hdt Hfmax HNf.
  destruct (default_fmax_ok fmax dt Hdt Hfmax) as (fm & Efm & Hfm).
  destruct (DFT_resample_grid Xt dt fm HXt Hdt Hfm) as [Hok Hbad].
  unfold DFT. rewrite Efm; cbn [bind].
  destruct (Nat.eq_dec
              (length (arange0 (fl (inject_Z (Z.of_nat (length Xt)) * dt)) dt))
              (length Xt)) as [Hgrid | Hgrid].
  - destruct (Hok Hgrid) as (Xs & EXs & _).
    rewrite EXs; cbn [bind].
    unfold fftpack_rfft.
    destruct (Z.ltb_spec Nf 1) as [_ | Hge]; [reflexivity | lia].
  - rewrite (Hbad Hgrid). reflexivity.
Qed.

End SizeErrors.

Section TransformErrorsExamples.

Import Spectral.

Lemma transforms_zero_division_witness :
  FFT Examples.dft_small Examples.sqrt_exact [] 1 None 2 true
  = Raise ZeroDivisionError /\
  DFT Examples.rfft_small Examples.sqrt_exact [] 1 None 4 = Raise ZeroDivisionError.
Proof.
  exact (transforms_zero_division Examples.dft_small Examples.rfft_small
           Examples.sqrt_exact [] 1 None 2 true 4 (or_introl eq_refl)).
Defined.


Lemma DFT_size_below_one_witness :
  (1 <= length Examples.Xt2)%nat /\ 0 < 1 /\ (0 < 1)%Z /\
  DFT Examples.rfft_small Examples.sqrt_exact Examples.Xt2 1 (Some (1 # 2)) 0
  = Raise ValueError.
Proof.
  assert (H1 : (1 <= length Examples.Xt2)%nat) by (simpl; lia).
  assert (H2 : 0 < 1) by reflexivity.
  assert (H3 : (0 < 1)%Z) by lia.
  repeat (split; [assumption |]).
  exact (DFT_size_below_one Examples.rfft_small Examples.sqrt_exact Examples.Xt2 1
           (Some (1 # 2)) 0 H1 H2 half_positive H3).
Defined.

End TransformErrorsExamples.

(** ** Frequency bins *)

Section FrequencyBins.

Import Spectral.

Variable fft_coef : list Q -> nat -> C.
Variable np_sqrt : Q -> Q.

(** [FFT] returns [(n-1)//2 + 1] bins for the [n] samples it transforms
    (padding included), at the frequencies [i/(n*dts)]: zero padding refines
    the frequency step. *)
Theorem FFT_frequency_bins (Xt : list Q) (dt : Q) (fmax : option Q) (r : Q)
    (flag : bool) :
  (2 <= length Xt)%nat -> 0 < dt -> (forall f, fmax = Some f -> 0 < f) -> 0 <= r ->
  exists Xs Ns dts Xf f,
    FFT_signal Xt dt fmax r flag = Ok (Xs, Ns, dts) /\
    FFT fft_coef np_sqrt Xt dt fmax r flag = Ok (Xf, f) /\
    length f = ((length Xs - 1) / 2 + 1)%nat /\
    forall i, (i < length f)%nat ->
      nth i f 0 == inject_Z (Z.of_nat i) / (inject_Z (Z.of_nat (length Xs)) * dts).
Proof.
  intros HXt Hdt Hfmax Hr.
  destruct (FFT_signal_ok Xt dt fmax r flag HXt Hdt Hfmax Hr)
    as (Xs & Ns & dts & Esig & LXs & Hdts & _).
  pose proof (np_fft_ok fft_coef Xs LXs) as Efft.
  set (Xfft := map (fft_coef Xs) (seq 0 (length Xs))) in *.
  assert (LXfft : length Xfft = length Xs)
    by (unfold Xfft; rewrite length_map, length_seq; reflexivity).
  destruct (fftfreq_retained (length Xs) dts LXs Hdts) as (Efreq & Lfreq & Hval & Ekeep).
  set (val := 1 / (inject_Z (Z.of_nat (length Xs)) * dts)) in *.
  set (ffft := map _ (fftfreq_pos (length Xs) ++ fftfreq_neg (length Xs))) in *.
  assert (Lkeep : length (map (fun k => inject_Z k * val) (fftfreq_pos (length Xs)))
                  = ((length Xs - 1) / 2 + 1)%nat).
  { unfold fftfreq_pos. rewrite !length_map, length_seq. lia. }
  exists Xs, Ns, dts. eexists; eexists.
  split; [exact Esig |]. split.
  { unfold FFT. rewrite Esig; cbn [bind].
    unfold FFT_spectrum. rewrite Efft; cbn [bind].
    rewrite LXfft, Efreq. reflexivity. }
  cbv zeta. fold ffft. rewrite Ekeep, Lkeep.
  split; [reflexivity |].
  intros i Hi. unfold fftfreq_pos. rewrite map_map.
  rewrite (nth_map_seq (fun i => inject_Z (Z.of_nat i) * val)) by lia.
  unfold val. field.
  assert (0 < inject_Z (Z.of_nat (length Xs))) by (apply inject_Z_pos; lia).
  split; intros E; lra.
Qed.

End FrequencyBins.

Section PackedFrequencyBins.

Import Spectral.

Variable rfft_coef : list Q -> nat -> nat -> Q.
Variable np_sqrt : Q -> Q.

(** When the grid [np.arange(0, T, dt)] has as many points as the signal,
    [DFT] returns [(Nf+1)//2] bins at the frequencies [m/(Nf*dts)], [dts]
    being the float [1/(2*fmax)]: the count and the frequencies depend on
    [Nf] and [fmax] only, not on the length of the signal. *)
Theorem DFT_frequency_bins (Xt : list Q) (dt : Q) (fmax : option Q) (Nf : Z) :
  (2 <= length Xt)%nat -> 0 < dt -> (forall f, fmax = Some f -> 0 < f) -> (1 <= Nf)%Z ->
  length (arange0 (fl (inject_Z (Z.of_nat (length Xt)) * dt)) dt) = length Xt ->
  exists fm Xf f,
    default_fmax fmax dt = Ok fm /\
    DFT rfft_coef np_sqrt Xt dt fmax Nf = Ok (Xf, f) /\
    length f = Z.to_nat ((Nf + 1) / 2) /\
    forall m, (m < length f)%nat ->
      nth m f 0 == inject_Z (Z.of_nat m) / (inject_Z Nf * fl (1 / (2 * fm))).
Proof.
  intros HXt Hdt Hfmax HNf Hgrid.
  destruct (default_fmax_ok fmax dt Hdt Hfmax) as (fm & Efm & Hfm).
  destruct (DFT_resample_ok Xt dt fm ltac:(lia) Hdt Hfm Hgrid) as (Xs & EXs & LXs).
  destruct (sampling_parameters (Z.of_nat (length Xt)) dt fm ltac:(lia) Hdt Hfm)
    as (_ & Hdts & _ & _ & _ & _ & _).
  set (dts := fl (1 / (2 * fm))) in *.
  set (Ns := inject_Z (Z.of_nat (length Xt)) / (dts / dt)) in *.
  destruct (Z.to_nat Nf) as [| n] eqn:En; [lia |].
  destruct (rfftfreq_ok (S n) dts ltac:(lia) Hdts) as (Hnd & Efreq).
  assert (ENf : inject_Z (Z.of_nat (S n)) == inject_Z Nf).
  { replace (Z.of_nat (S n)) with Nf by lia. reflexivity. }
  set (nd := inject_Z (Z.of_nat (S n)) * dts) in *.
  set (h := fun i : nat => inject_Z (Z.of_nat i / 2) / nd) in *.
  set (g := rfft_coef Xs (S n)).
  assert (Epack : fftpack_rfft rfft_coef Xs Nf = Ok (g 0%nat :: map g (seq 1 n))).
  { unfold fftpack_rfft.
    destruct (Z.ltb_spec Nf 1) as [Hlt | _]; [lia |].
    rewrite En. reflexivity. }
  assert (Lxs : length (map g (seq 1 n)) = n) by (rewrite length_map, length_seq; reflexivity).
  assert (Lfs : length (map h (seq 2 n)) = n) by (rewrite length_map, length_seq; reflexivity).
  destruct (DFT_unpack_closed (g 0%nat) (h 1%nat) (map g (seq 1 n)) (map h (seq 2 n)) Nf)
    as (Lre & Lim & Erun); [rewrite Lxs; exact En | rewrite Lxs, Lfs; reflexivity |].
  rewrite Lxs in Lre, Lim, Erun.
  exists fm. eexists; eexists. split; [exact Efm |]. split.
  { unfold DFT. rewrite Efm; cbn [bind]. rewrite EXs; cbn [bind].
    rewrite Epack; cbn [bind].
    cbn [length]; rewrite Lxs, Efreq; cbn [bind seq map].
    rewrite getitem_first; cbn [bind].
    rewrite Erun. reflexivity. }
  assert (Lkeep : length (bool_index (map h (seq 2 n)) (map Nat.even (seq 1 n)))
                  = (n / 2)%nat).
  { rewrite bool_index_parity_length by (rewrite Lfs; lia). reflexivity. }
  cbn [length]. rewrite Lkeep. split; [lia |].
  intros [| j] Hj.
  - cbn [nth]. change (inject_Z (Z.of_nat 0)) with 0. unfold Qdiv. ring.
  - cbn [nth].
    rewrite bool_index_parity_nth by (rewrite ?Lfs; cbn [Nat.even]; lia).
    cbn [Nat.even].
    rewrite (nth_map_lt h _ _ 0%nat) by (rewrite length_seq; lia).
    rewrite seq_nth by lia.
    unfold h, nd.
    replace (Z.of_nat (2 + (2 * j + 1)) / 2)%Z with (Z.of_nat (S j)) by lia.
    rewrite ENf. reflexivity.
Qed.

End PackedFrequencyBins.

Section FrequencyBinsExamples.

Import Spectral.

Lemma FFT_frequency_bins_witness :
  (2 <= length Examples.Xt2)%nat /\ 0 < 1 /\ 0 <= 1 # 2 /\
  exists Xs Ns dts Xf f,
    FFT_signal Examples.Xt2 1 (Some (1 # 2)) (1 # 2) true = Ok (Xs, Ns, dts) /\
    FFT Examples.dft_small Examples.sqrt_exact Examples.Xt2 1 (Some (1 # 2)) (1 # 2) true
    = Ok (Xf, f) /\
    length f = ((length Xs - 1) / 2 + 1)%nat.
Proof.
  assert (H1 : (2 <= length Examples.Xt2)%nat) by (simpl; lia).
  assert (H2 : 0 < 1) by reflexivity.
  assert (H3 : 0 <= 1 # 2) by (unfold Qle; simpl; lia).
  repeat (split; [assumption |]).
  destruct (FFT_frequency_bins Examples.dft_small Examples.sqrt_exact Examples.Xt2 1
              (Some (1 # 2)) (1 # 2) true H1 H2 half_positive H3)
    as (Xs & Ns & dts & Xf & f & E1 & E2 & L & _).
  exists Xs, Ns, dts, Xf, f. repeat split; assumption.
Defined.

Lemma DFT_frequency_bins_witness :
  (2 <= length Examples.Xt2)%nat /\ 0 < 1 /\ (1 <= 4)%Z /\
  length (arange0 (fl (inject_Z (Z.of_nat (length Examples.Xt2)) * 1)) 1)
  = length Examples.Xt2 /\
  exists Xf f,
    DFT Examples.rfft_small Examples.sqrt_exact Examples.Xt2 1 (Some (1 # 2)) 4
    = Ok (Xf, f) /\
    length f = Z.to_nat ((4 + 1) / 2).
Proof.
  assert (H1 : (2 <= length Examples.Xt2)%nat) by (simpl; lia).
  assert (H2 : 0 < 1) by reflexivity.
  assert (H3 : (1 <= 4)%Z) by lia.
  pose proof grid_of_two as H4.
  repeat (split; [assumption |]).
  destruct (DFT_frequency_bins Examples.rfft_small Examples.sqrt_exact Examples.Xt2 1
              (Some (1 # 2)) 4 H1 H2 half_positive H3 H4)
    as (fm & Xf & f & _ & E & L & _).
  exists Xf, f. split; assumption.
Defined.

End FrequencyBinsExamples.

(** ** Resampling at the original step *)

Section ResampleIdentity.

Import Spectral.

Lemma interp_from_step (x x0 x1 f0 f1 : Q) (xs fs : list Q) :
  interp_from x (x0 :: x1 :: xs) (f0 :: f1 :: fs)
  = if Qlt_le_dec x x1
    then if Qeq_bool x x0 then f0 else (f1 - f0) / (x1 - x0) * (x - x0) + f0
    else interp_from x (x1 :: xs) (f1 :: fs).
Proof. reflexivity. Qed.

(** [np.interp] at a point of a uniform grid returns the sample there. *)
Lemma interp_from_grid_point (dt : Q) :
  0 < dt ->
  forall (n a j : nat) (fp : list Q) (v : Q),
    length fp = n -> (a <= j < a + n)%nat ->
    v == inject_Z (Z.of_nat j) * dt ->
    interp_from v (map (fun i => inject_Z (Z.of_nat i) * dt) (seq a n)) fp
    = nth (j - a) fp 0.
Proof.
  intros Hdt n.
  induction n as [| n IH]; intros a j fp v Hlen Hj Hv; [lia |].
  destruct fp as [| f0 fp]; [discriminate |].
  injection Hlen as Hlen.
  destruct n as [| n].
  - destruct fp; [| discriminate].
    assert (j = a) by lia; subst j.
    rewrite Nat.sub_diag. reflexivity.
  - destruct fp as [| f1 fp]; [discriminate |].
    cbn [seq map]. rewrite interp_from_step.
    destruct (Nat.eq_dec j a) as [-> | Hne].
    + rewrite Nat.sub_diag. cbn [nth].
      assert (Hq : inject_Z (Z.of_nat a) < inject_Z (Z.of_nat (S a)))
        by (rewrite <- Zlt_Qlt; lia).
      destruct (Qlt_le_dec v (inject_Z (Z.of_nat (S a)) * dt)) as [_ | Hge]; [| nra].
      assert (E : Qeq_bool v (inject_Z (Z.of_nat a) * dt) = true)
        by (apply Qeq_bool_iff; exact Hv).
      rewrite E. reflexivity.
    + assert (Hq : inject_Z (Z.of_nat (S a)) <= inject_Z (Z.of_nat j))
        by (rewrite <- Zle_Qle; lia).
      destruct (Qlt_le_dec v (inject_Z (Z.of_nat (S a)) * dt)) as [Hlt | _]; [nra |].
      change (inject_Z (Z.of_nat (S a)) * dt
                :: map (fun i => inject_Z (Z.of_nat i) * dt) (seq (S (S a)) n))
        with (map (fun i => inject_Z (Z.of_nat i) * dt) (seq (S a) (S n))).
      rewrite (IH (S a) j (f1 :: fp) v Hlen ltac:(lia) Hv).
      replace (j - a)%nat with (S (j - S a)) by lia. reflexivity.
Qed.

Lemma interp_nonempty (x xp fp : list Q) :
  (1 <= length xp)%nat -> length xp = length fp ->
  interp x xp fp
  = Ok (map (fun v => if Qlt_le_dec v (nth 0 xp 0) then nth 0 fp 0
                      else interp_from v xp fp) x).
Proof.
  intros Hxp Hlen; unfold interp.
  destruct xp as [| x0 xp]; [simpl in Hxp; lia |].
  destruct fp as [| f0 fp]; [simpl in Hlen; lia |].
  rewrite Hlen, Nat.eqb_refl. reflexivity.
Qed.

(** When the float target step [1/(2*fmax)] equals the original one and the
    grid [np.arange(0, T, dt)] has as many points as the signal, the
    resampling of [DFT] returns the signal unchanged, and [Ns] is its
    length. *)
Theorem DFT_resample_identity (Xt : list Q) (dt fm : Q) :
  (1 <= length Xt)%nat -> 0 < dt -> 0 < fm -> fl (1 / (2 * fm)) == dt ->
  length (arange0 (fl (inject_Z (Z.of_nat (length Xt)) * dt)) dt) = length Xt ->
  exists Ns dts,
    DFT_resample Xt dt fm = Ok (Xt, Ns, dts) /\
    dts == dt /\ Ns == inject_Z (Z.of_nat (length Xt)).
Proof.
  intros HXt Hdt Hfm0 Edts Hgrid.
  destruct (sampling_parameters (Z.of_nat (length Xt)) dt fm ltac:(lia) Hdt Hfm0)
    as (HT & Hdts & Hstep & HNs & Hcount & Hgrid0 & ENs).
  set (dts := fl (1 / (2 * fm))) in *.
  set (Ns := inject_Z (Z.of_nat (length Xt)) / (dts / dt)) in *.
  set (T := fl (inject_Z (Z.of_nat (length Xt)) * dt)) in *.
  assert (ENs' : Ns == inject_Z (Z.of_nat (length Xt))).
  { rewrite ENs, Edts. field. intros E; lra. }
  assert (Lt : forall step, step == dt ->
             Z.to_nat (Qceiling (fl (T / step))) = length Xt).
  { intros step Es.
    assert (E : T / step == T / dt) by (rewrite Es; reflexivity).
    rewrite (fl_comp _ _ E), <- arange0_length. exact Hgrid. }
  set (grid := fun step : Q =>
                 map (fun i => inject_Z (Z.of_nat i) * step) (seq 0 (length Xt))).
  assert (Egrid : forall step, step == dt -> arange0 T step = grid step).
  { intros step Es. unfold arange0, grid. rewrite (Lt step Es). reflexivity. }
  assert (Lgrid : forall step, length (grid step) = length Xt).
  { intros step. unfold grid. rewrite length_map, length_seq. reflexivity. }
  assert (Hsamples : map (fun v => if Qlt_le_dec v (nth 0 (grid dt) 0)
                                   then nth 0 Xt 0
                                   else interp_from v (grid dt) Xt) (grid dts)
                     = Xt).
  { apply (nth_ext _ _ 0 0); [rewrite length_map; apply Lgrid |].
    intros j Hj. rewrite length_map, Lgrid in Hj.
    rewrite (nth_map_lt _ (grid dts) j 0 0) by (rewrite Lgrid; exact Hj).
    assert (Hv : nth j (grid dts) 0 = inject_Z (Z.of_nat j) * dts).
    { unfold grid.
      apply (nth_map_seq (fun i => inject_Z (Z.of_nat i) * dts)); exact Hj. }
    rewrite Hv.
    assert (H0 : nth 0 (grid dt) 0 == 0).
    { unfold grid. rewrite (nth_map_seq (fun i => inject_Z (Z.of_nat i) * dt)) by lia.
      change (inject_Z (Z.of_nat 0)) with 0. ring. }
    assert (Hq : inject_Z 0 <= inject_Z (Z.of_nat j)) by (rewrite <- Zle_Qle; lia).
    change (inject_Z 0) with 0 in Hq.
    destruct (Qlt_le_dec (inject_Z (Z.of_nat j) * dts) (nth 0 (grid dt) 0))
      as [Hlt | _]; [nra |].
    unfold grid.
    rewrite (interp_from_grid_point dt Hdt (length Xt) 0 j Xt);
      [rewrite Nat.sub_0_r; reflexivity | reflexivity | lia |].
    rewrite Edts. reflexivity. }
  exists Ns, dts. split; [| split; assumption].
  unfold DFT_resample. fold T.
  rewrite !py_div_nonzero by (intros E; lra). cbn [bind]. fold dts.
  rewrite (Egrid dts Edts), (Egrid dt (Qeq_refl dt)).
  rewrite interp_nonempty by (rewrite ?Lgrid; lia).
  cbn [bind]. rewrite Hsamples.
  rewrite py_div_nonzero by (intros E; lra). cbn [bind].
  rewrite py_div_nonzero by (intros E; lra).
  reflexivity.
Qed.

Lemma DFT_resample_identity_witness :
  (1 <= length Examples.Xt2)%nat /\ 0 < 1 /\ 0 < 1 # 2 /\
  fl (1 / (2 * (1 # 2))) == 1 /\
  length (arange0 (fl (inject_Z (Z.of_nat (length Examples.Xt2)) * 1)) 1)
  = length Examples.Xt2 /\
  exists Ns dts, DFT_resample Examples.Xt2 1 (1 # 2) = Ok (Examples.Xt2, Ns, dts).
Proof.
  assert (H1 : (1 <= length Examples.Xt2)%nat) by (simpl; lia).
  assert (H2 : 0 < 1) by reflexivity.
  assert (H3 : 0 < 1 # 2) by reflexivity.
  assert (H4 : fl (1 / (2 * (1 # 2))) == 1) by reflexivity.
  pose proof grid_of_two as H5.
  repeat (split; [assumption |]).
  destruct (DFT_resample_identity Examples.Xt2 1 (1 # 2) H1 H2 H3 H4 H5)
    as (Ns & dts & E & _).
  exists Ns, dts. exact E.
Defined.

End ResampleIdentity.

(** ** The numerical part of the longitudinal wake potential on well-formed input *)

Section LoopFacts.

Lemma for_each_invariant {A S : Type} (P : S -> Prop) (xs : list A)
    (body : S -> A -> result S) :
  (forall acc x, In x xs -> P acc -> exists acc', body acc x = Ok acc' /\ P acc') ->
  forall acc, P acc -> exists acc', for_each xs body acc = Ok acc' /\ P acc'.
Proof.
  induction xs as [| x xs IH]; intros Hbody acc Hacc; simpl.
  - exists acc; split; [reflexivity | exact Hacc].
  - destruct (Hbody acc x (or_introl eq_refl) Hacc) as (acc1 & E1 & H1).
    rewrite E1; cbn [bind].
    apply IH; [| exact H1].
    intros acc' y Hy; apply Hbody; right; exact Hy.
Qed.

Lemma map_result_all {A B : Type} (P : B -> Prop) (f : A -> result B) (xs : list A) :
  (forall x, In x xs -> exists y, f x = Ok y /\ P y) ->
  exists ys, map_result f xs = Ok ys /\ length ys = length xs /\ Forall P ys.
Proof.
  induction xs as [| x xs IH]; intros H; simpl.
  - exists []; repeat split; constructor.
  - destruct (H x (or_introl eq_refl)) as (y & Ey & Py).
    destruct IH as (ys & Eys & Lys & Pys); [intros z Hz; apply H; right; exact Hz |].
    rewrite Ey; cbn [bind]. rewrite Eys; cbn [bind].
    exists (y :: ys); repeat split; [simpl; rewrite Lys; reflexivity |].
    constructor; assumption.
Qed.

Lemma in_range (n : nat) (k : Z) : In k (range n) -> exists i, k = Z.of_nat i /\ (i < n)%nat.
Proof.
  unfold range; intros H.
  apply in_map_iff in H as (i & <- & Hi). apply in_seq in Hi.
  exists i; split; [reflexivity | lia].
Qed.

Lemma setitem_nat {A : Type} (l : list A) (i : nat) (v : A) :
  (i < length l)%nat ->
  exists l', setitem l (Z.of_nat i) v = Ok l' /\ length l' = length l.
Proof.
  intros H; unfold setitem.
  destruct (Z.ltb_spec (Z.of_nat i) 0) as [Hn | _]; [lia |].
  destruct (Z.leb_spec 0 (Z.of_nat i)) as [_ | Hn]; [| lia].
  destruct (Z.ltb_spec (Z.of_nat i) (Z.of_nat (length l))) as [_ | Hn]; [| lia].
  cbn [andb]. eexists; split; [reflexivity |].
  rewrite Nat2Z.id, length_app. cbn [length].
  rewrite length_firstn, length_skipn. lia.
Qed.

Lemma getitem_in_range {A : Type} (l : list A) (i : Z) :
  (- Z.of_nat (length l) <= i < Z.of_nat (length l))%Z ->
  exists a, getitem l i = Ok a /\ In a l.
Proof.
  intros H; unfold getitem.
  set (j := if (i <? 0)%Z then (i + Z.of_nat (length l))%Z else i).
  assert (Hj : (0 <= j < Z.of_nat (length l))%Z).
  { unfold j. destruct (Z.ltb_spec i 0); lia. }
  destruct (Z.leb_spec 0 j) as [_ | Hn]; [| lia].
  destruct (Z.ltb_spec j (Z.of_nat (length l))) as [_ | Hn]; [| lia].
  cbn [andb].
  destruct (nth_error l (Z.to_nat j)) as [a |] eqn:E.
  - exists a; split; [reflexivity |]. apply nth_error_In in E. exact E.
  - apply nth_error_None in E. lia.
Qed.

Lemma extremes_ordered (r : list Q) :
  forall x,
    fold_left (fun m y => if Qlt_le_dec y m then y else m) r x <= x /\
    x <= fold_left (fun m y => if Qlt_le_dec m y then y else m) r x.
Proof.
  induction r as [| y r IH]; intros x; simpl; [split; lra |].
  destruct (Qlt_le_dec y x) as [Hlt | Hge];
    destruct (Qlt_le_dec x y) as [Hlt' | Hge'];
    try (destruct (IH x); destruct (IH y); split; lra).
Qed.

Lemma py_min_le_py_max (z : list Q) (zmin zmax : Q) :
  py_min z = Ok zmin -> py_max z = Ok zmax -> zmin <= zmax.
Proof.
  destruct z as [| x r]; [discriminate |]; simpl.
  intros Hmin Hmax; injection Hmin as <-; injection Hmax as <-.
  destruct (extremes_ordered r x); lra.
Qed.

End LoopFacts.

Section LongitudinalSafety.

Import Wake.

Lemma retarded_time_bound (nt : nat) (dt zmax zmin t_inj t_0 zi_k s_n : Q) :
  zi_k <= zmax -> s_n <= Wake_length nt dt zmax zmin t_inj -> 0 <= t_0 ->
  retarded_time zi_k s_n zmin t_0 t_inj <= inject_Z (Z.of_nat nt) * dt.
Proof.
  intros Hzi Hs Ht0. unfold Wake_length in Hs. unfold retarded_time.
  pose proof c_pos as Hc.
  set (N := inject_Z (Z.of_nat nt)) in *.
  assert (HX : zi_k + s_n - zmin <= (N * dt - t_inj) * c) by (ring_simplify; lra).
  assert (HXc : (zi_k + s_n - zmin) / c <= N * dt - t_inj)
    by (apply Qle_shift_div_r; assumption).
  assert (E : (zi_k + s_n) / c - zmin / c - t_0 + t_inj
              == (zi_k + s_n - zmin) / c - t_0 + t_inj)
    by (field; intros E; lra).
  rewrite E. lra.
Qed.

(** The time index never leaves the field buffer: for a point [zi[k]] of
    the axis (at most [zmax]), a point [s[n]] up to the wake length and a
    time origin [t[0] >= 0], a positive retarded time gives
    [0 <= int(ts/dt) <= nt], so that [it = int(ts/dt) - 1] lies in
    [[-1, nt-1]], the index range numpy accepts for the [nt] time steps. *)
Theorem time_index_in_range (nt : nat) (dt zmax zmin t_inj t_0 zi_k s_n : Q) :
  0 < dt -> 0 <= t_0 ->
  zi_k <= zmax -> s_n <= Wake_length nt dt zmax zmin t_inj ->
  0 < retarded_time zi_k s_n zmin t_0 t_inj ->
  exists i, int_quot (retarded_time zi_k s_n zmin t_0 t_inj) dt = Ok i /\
    (-1 <= i - 1 <= Z.of_nat nt - 1)%Z.
Proof.
  intros Hdt Ht0 Hzi Hs Hts.
  pose proof (retarded_time_bound nt dt zmax zmin t_inj t_0 zi_k s_n Hzi Hs Ht0) as Hb.
  set (ts := retarded_time zi_k s_n zmin t_0 t_inj) in *.
  exists (Qfloor (ts / dt)).
  split; [apply int_quot_pos; lra |].
  assert (H0 : (0 <= Qfloor (ts / dt))%Z)
    by (apply Qfloor_nonneg, Qle_shift_div_l; lra).
  assert (H1 : (Qfloor (ts / dt) <= Z.of_nat nt)%Z).
  { rewrite <- (Qfloor_Z (Z.of_nat nt)). apply Qfloor_resp_le.
    apply Qle_shift_div_r; lra. }
  lia.
Qed.

Lemma time_index_in_range_witness :
  0 < 1 /\ 0 <= 0 /\ c <= c /\ 3 * c <= Wake_length 6 1 c 0 2 /\
  0 < retarded_time c (3 * c) 0 0 2 /\
  exists i, int_quot (retarded_time c (3 * c) 0 0 2) 1 = Ok i /\
    (-1 <= i - 1 <= Z.of_nat 6 - 1)%Z.
Proof.
  assert (H1 : 0 < 1) by reflexivity.
  assert (H2 : 0 <= 0) by (unfold Qle; simpl; lia).
  assert (H3 : c <= c) by (unfold Qle; simpl; lia).
  assert (H4 : 3 * c <= Wake_length 6 1 c 0 2) by (unfold Qle; simpl; lia).
  assert (H5 : 0 < retarded_time c (3 * c) 0 0 2) by reflexivity.
  repeat (split; [assumption |]).
  exact (time_index_in_range 6 1 c 0 2 0 c (3 * c) H1 H2 H3 H4 H5).
Defined.

(** The arrays the loops of [calc_long_WP] work on. *)
Variables (Ezi : list (list Q)) (zi s : list Q) (nt : nat).
Variables (dt zmax zmin t_inj t_0 dzi : Q).
Hypothesis Ezi_columns : length Ezi = nt.
Hypothesis Ezi_rows : Forall (fun col => length col = nt) Ezi.
Hypothesis zi_length : length zi = nt.
Hypothesis zi_bound : forall k, (k < nt)%nat -> nth k zi 0 <= zmax.
Hypothesis s_bound :
  forall n, (n < length s)%nat -> nth n s 0 <= Wake_length nt dt zmax zmin t_inj.
Hypothesis dt_pos : 0 < dt.
Hypothesis t_0_nonneg : 0 <= t_0.

Lemma k_body_ok (n k : nat) (WP : list Q) :
  (n < length s)%nat -> (k < nt)%nat -> length WP = length s ->
  exists WP', k_body Ezi zi s zmin t_0 t_inj dt dzi (Z.of_nat n) WP (Z.of_nat k) = Ok WP'
              /\ length WP' = length s.
Proof.
  intros Hn Hk HWP. unfold k_body.
  rewrite (getitem_nat_lt zi k 0) by lia.
  rewrite (getitem_nat_lt s n 0) by exact Hn.
  cbn [bind].
  destruct (Qlt_le_dec 0 _) as [Hts | _]; [| exists WP; split; [reflexivity | exact HWP]].
  destruct (time_index_in_range nt dt zmax zmin t_inj t_0 (nth k zi 0) (nth n s 0)
              dt_pos t_0_nonneg (zi_bound k Hk) (s_bound n Hn) Hts) as (i & Ei & Hi).
  rewrite Ei; cbn [bind]. unfold accumulate_at.
  rewrite (getitem_nat_lt WP n 0) by lia. cbn [bind].
  unfold Ezi_at.
  destruct (getitem_in_range Ezi (i - 1)) as (col & Ecol & Hcol); [lia |].
  rewrite Ecol; cbn [bind].
  assert (Lcol : length col = nt).
  { rewrite Forall_forall in Ezi_rows. apply Ezi_rows; exact Hcol. }
  rewrite (getitem_nat_lt col k 0) by lia. cbn [bind].
  destruct (setitem_nat WP n (nth n WP 0 + nth k col 0 * dzi) ltac:(lia))
    as (WP' & E' & L').
  exists WP'; split; [exact E' | lia].
Qed.

Lemma s_loop_ok (WP : list Q) :
  length WP = length s ->
  exists WP', s_loop Ezi zi s zmin t_0 t_inj dt dzi nt WP = Ok WP'
              /\ length WP' = length s.
Proof.
  intros HWP. unfold s_loop.
  apply (for_each_invariant (fun W => length W = length s)); [| exact HWP].
  intros acc nz Hnz Hacc. apply in_range in Hnz as (n & -> & Hn).
  apply (for_each_invariant (fun W => length W = length s)); [| exact Hacc].
  intros acc' kz Hkz Hacc'. apply in_range in Hkz as (k & -> & Hk).
  apply k_body_ok; assumption.
Qed.

End LongitudinalSafety.

Section LongitudinalTotal.

Import Wake.

Lemma build_Ezi_ok (hf : list snapshot) (zi z : list Q) (nt : nat) (i j : Z) :
  (nt <= length hf)%nat -> Forall (snapshot_ok (length z)) hf ->
  (1 <= length z)%nat -> (-1 <= i <= 1)%Z -> (-1 <= j <= 1)%Z ->
  exists Ezi, build_Ezi hf zi z nt i j = Ok Ezi /\
    length Ezi = nt /\ Forall (fun col => length col = length zi) Ezi.
Proof.
  intros Hhf Hsnap Hz Hi Hj. unfold build_Ezi.
  destruct (map_result_all (fun col => length col = length zi)
              (fun n => Ez <- getitem hf n ;;
                        plane <- getitem Ez (i0 + i)%Z ;;
                        line <- getitem plane (j0 + j)%Z ;;
                        interp zi z line) (range nt)) as (Ezi & E & L & F).
  - intros nz Hnz. apply in_range in Hnz as (n & -> & Hn).
    destruct (getitem_in_range hf (Z.of_nat n) ltac:(lia)) as (Ez & EEz & HEz).
    rewrite EEz; cbn [bind].
    rewrite Forall_forall in Hsnap. destruct (Hsnap Ez HEz) as [LEz FEz].
    destruct (getitem_in_range Ez (i0 + i)%Z ltac:(unfold i0; lia))
      as (plane & Eplane & Hplane).
    rewrite Eplane; cbn [bind].
    rewrite Forall_forall in FEz. destruct (FEz plane Hplane) as [Lplane Fplane].
    destruct (getitem_in_range plane (j0 + j)%Z ltac:(unfold j0; lia))
      as (line & Eline & Hline).
    rewrite Eline; cbn [bind].
    rewrite Forall_forall in Fplane.
    destruct (interp_ok zi z line Hz) as (col & Ecol & Lcol);
      [symmetry; apply Fplane; exact Hline |].
    exists col; split; assumption.
  - exists Ezi. split; [exact E |]. split; [| exact F].
    rewrite L. unfold range. rewrite length_map, length_seq. reflexivity.
Qed.

Lemma normalize_ok (q : Q) (WP : list Q) :
  ~ q == 0 ->
  exists WP', normalize q WP = Ok WP' /\ length WP' = length WP.
Proof.
  intros Hq. unfold normalize.
  destruct (map_result_all (fun _ => True)
              (fun w => np_div w (q * 1000000000000)) WP) as (WP' & E & L & _).
  - intros w _. exists (w / (q * 1000000000000)). split; [| exact I].
    apply np_div_nonzero. intros E. apply Hq.
    apply Qmult_integral in E. destruct E as [E | E]; [exact E | discriminate].
  - exists WP'; split; assumption.
Qed.

Lemma set_slice_ok (WP_3d : list (list (list Q))) (m : nat) (a b : Z) (WP : list Q) :
  has_shape_3_3 WP_3d m -> length WP = m -> (0 <= a <= 2)%Z -> (0 <= b <= 2)%Z ->
  exists WP_3d', set_slice WP_3d a b WP = Ok WP_3d' /\ has_shape_3_3 WP_3d' m.
Proof.
  intros Hshape HWP Ha Hb.
  destruct (has_shape_3_3_inv WP_3d m Hshape)
    as (a00 & a01 & a02 & a10 & a11 & a12 & a20 & a21 & a22 & -> & Hlens).
  repeat match goal with
         | H : Forall _ (_ :: _) |- _ => inversion H; subst; clear H
         end.
  assert (Ca : a = 0%Z \/ a = 1%Z \/ a = 2%Z) by lia.
  assert (Cb : b = 0%Z \/ b = 1%Z \/ b = 2%Z) by lia.
  destruct Ca as [-> | [-> | ->]]; destruct Cb as [-> | [-> | ->]];
    unfold set_slice;
    match goal with
    | |- context [getitem ?l ?i] =>
        let r := eval vm_compute in (getitem l i) in
        change (getitem l i) with r; cbn [bind]
    end;
    match goal with
    | |- context [getitem ?l ?i] =>
        let r := eval vm_compute in (getitem l i) in
        change (getitem l i) with r; cbn [bind]
    end;
    match goal with
    | |- context [Nat.eqb (length ?old) (length ?new)] =>
        replace (length old) with (length new) by congruence;
        rewrite Nat.eqb_refl
    end;
    (eexists; split; [reflexivity |]);
    (split; [reflexivity | repeat constructor; congruence]).
Qed.

Lemma derive_ok (data : metadata) (zmax zmin : Q) :
  (3 <= length (t data))%nat ->
  py_max (z data) = Ok zmax -> py_min (z data) = Ok zmin ->
  let nt := length (t data) in
  let dt := nth 2 (t data) 0 - nth 1 (t data) 0 in
  let wl := Wake_length nt dt zmax zmin (init_time data) in
  0 < dt -> 0 <= init_time data -> 0 <= wl ->
  exists zi s,
    linspace zmin zmax (Z.of_nat nt) = Ok zi /\
    build_s (init_time data) dt wl = Ok s /\
    derive data
    = Ok {| Wake.nt := nt; Wake.dt := dt; Wake.zmin := zmin; Wake.zi := zi;
            Wake.dzi := nth 2 zi 0 - nth 1 zi 0; Wake.s := s;
            Wake.t_0 := nth 0 (t data) 0 |}.
Proof.
  intros Ht Hmax Hmin nt dt wl Hdt Hinj Hwl.
  destruct (linspace_nth zmin zmax (Z.of_nat nt) ltac:(lia)) as (zi & Ezi & Lzi & _).
  destruct (build_s_bounds (init_time data) dt wl Hinj Hdt Hwl) as (s & Es & _).
  exists zi, s. split; [exact Ezi |]. split; [exact Es |].
  unfold derive.
  rewrite (getitem_nat_lt (t data) 2 0 ltac:(lia) : getitem (t data) 2 = _).
  rewrite (getitem_nat_lt (t data) 1 0 ltac:(lia) : getitem (t data) 1 = _).
  cbn [bind]. rewrite Hmax, Hmin. cbn [bind]. fold nt. rewrite Ezi. cbn [bind].
  rewrite (getitem_nat_lt zi 2 0 ltac:(lia) : getitem zi 2 = _).
  rewrite (getitem_nat_lt zi 1 0 ltac:(lia) : getitem zi 1 = _).
  cbn [bind]. fold dt. fold wl. rewrite Es. cbn [bind].
  rewrite (getitem_nat_lt (t data) 0 0 ltac:(lia) : getitem (t data) 0 = _).
  reflexivity.
Qed.

Lemma initial_shape (m : nat) : has_shape_3_3 (repeat (repeat (zeros m) 3) 3) m.
Proof.
  split; [reflexivity |].
  repeat constructor; apply repeat_length.
Qed.

Lemma calc_long_WP_numeric_ok (data : metadata) (hf : list snapshot) (zmax zmin : Q) :
  (3 <= length (t data))%nat ->
  py_max (z data) = Ok zmax -> py_min (z data) = Ok zmin ->
  let nt := length (t data) in
  let dt := nth 2 (t data) 0 - nth 1 (t data) 0 in
  let wl := Wake_length nt dt zmax zmin (init_time data) in
  0 < dt -> 0 <= nth 0 (t data) 0 -> 0 <= init_time data -> 0 <= wl ->
  ~ q data == 0 ->
  (nt <= length hf)%nat -> Forall (snapshot_ok (length (z data))) hf ->
  exists WP_3d s,
    calc_long_WP_numeric data hf = Ok (WP_3d, s) /\
    build_s (init_time data) dt wl = Ok s /\
    has_shape_3_3 WP_3d (length s).
Proof.
  intros Ht Hmax Hmin nt dt wl Hdt Ht0 Hinj Hwl Hq Hhf Hsnap.
  destruct (derive_ok data zmax zmin Ht Hmax Hmin Hdt Hinj Hwl)
    as (zi & s & Ezi & Es & Ederive).
  fold nt dt wl in Ezi, Es, Ederive.
  destruct (build_s_bounds (init_time data) dt wl Hinj Hdt Hwl) as (s' & Es' & Hs).
  rewrite Es in Es'. injection Es' as <-.
  pose proof (py_min_le_py_max _ _ _ Hmin Hmax) as Hz.
  pose proof (linspace_range _ _ _ _ Hz Ezi) as Hzi.
  destruct (linspace_nth zmin zmax (Z.of_nat nt) ltac:(lia)) as (zi' & Ezi' & Lzi & _).
  rewrite Ezi in Ezi'. injection Ezi' as <-. rewrite Nat2Z.id in Lzi.
  assert (Hznon : (1 <= length (z data))%nat).
  { destruct (z data); [discriminate | simpl; lia]. }
  set (p := {| Wake.nt := nt; Wake.dt := dt; Wake.zmin := zmin; Wake.zi := zi;
               Wake.dzi := nth 2 zi 0 - nth 1 zi 0; Wake.s := s;
               Wake.t_0 := nth 0 (t data) 0 |}) in *.
  destruct (for_each_invariant
              (fun st : list Q * list (list (list Q)) =>
                 length (fst st) = length s /\ has_shape_3_3 (snd st) (length s))
              offsets (offset_body data hf p))
    with (acc := (zeros (length s), repeat (repeat (zeros (length s)) 3) 3))
    as ([WP W] & Erun & _ & HW).
  - intros [WP W] [i j] Hij [HWP HW]. cbn [fst snd] in HWP, HW.
    assert (Hrange : (-1 <= i <= 1)%Z /\ (-1 <= j <= 1)%Z).
    { unfold offsets in Hij. simpl in Hij.
      repeat (destruct Hij as [Hij | Hij]; [injection Hij as <- <-; lia |]).
      contradiction. }
    destruct Hrange as [Hi Hj].
    unfold offset_body, offset_WP. cbn [Wake.nt Wake.dt Wake.zmin Wake.zi Wake.dzi
                                         Wake.s Wake.t_0 p].
    destruct (build_Ezi_ok hf zi (z data) nt i j Hhf Hsnap Hznon Hi Hj)
      as (Ezi_ij & EE & LE & FE).
    rewrite EE; cbn [bind].
    destruct (s_loop_ok Ezi_ij zi s nt dt zmax zmin (init_time data)
                (nth 0 (t data) 0) (nth 2 zi 0 - nth 1 zi 0)) with (WP := WP)
      as (WP1 & E1 & L1); try assumption.
    + rewrite Lzi in FE. exact FE.
    + intros k Hk. apply Hzi. lia.
    + intros n Hn. apply Hs. exact Hn.
    + rewrite E1; cbn [bind].
      destruct (normalize_ok (q data) WP1 Hq) as (WP2 & E2 & L2).
      rewrite E2; cbn [bind].
      destruct (set_slice_ok W (length s) (i0 + i) (j0 + j) WP2 HW ltac:(lia)
                  ltac:(unfold i0; lia) ltac:(unfold j0; lia)) as (W' & E3 & H3).
      rewrite E3; cbn [bind].
      exists (WP2, W'); split; [reflexivity |]. cbn [fst snd]. split; [lia | exact H3].
  - cbn [fst snd]. split; [apply repeat_length | apply initial_shape].
  - cbn [snd] in HW.
    exists W, s. split; [| split; [exact Es | exact HW]].
    unfold calc_long_WP_numeric. rewrite Ederive; cbn [bind]. cbn [Wake.s p].
    rewrite Erun. reflexivity.
Qed.

(** On well-formed input (three or more increasing time samples starting
    at [t[0] >= 0], a non-empty axis [z], a non-negative injection time and
    wake length, a non-zero charge, one readable snapshot per time step)
    the numerical part of [calc_long_WP] (lines 196-268 without the prints,
    on the snapshots that [read_Ez] returned) raises no exception and gives
    the coordinate [s] together with an array of shape [(3, 3, len(s))]. *)
Theorem numeric_part_returns (data : metadata) (hf : list snapshot) (zmax zmin : Q) :
  (3 <= length (t data))%nat ->
  py_max (z data) = Ok zmax -> py_min (z data) = Ok zmin ->
  let nt := length (t data) in
  let dt := nth 2 (t data) 0 - nth 1 (t data) 0 in
  let wl := Wake_length nt dt zmax zmin (init_time data) in
  0 < dt -> 0 <= nth 0 (t data) 0 -> 0 <= init_time data -> 0 <= wl ->
  ~ q data == 0 ->
  (nt <= length hf)%nat -> Forall (snapshot_ok (length (z data))) hf ->
  exists WP_3d s,
    calc_long_WP_numeric data hf = Ok (WP_3d, s) /\
    build_s (init_time data) dt wl = Ok s /\
    has_shape_3_3 WP_3d (length s).
Proof. exact (calc_long_WP_numeric_ok data hf zmax zmin). Qed.

Lemma uniform_snapshots_ok (n : nat) :
  Forall (snapshot_ok 2) (repeat Examples.uniform_snapshot n).
Proof.
  apply Forall_forall; intros Ez HEz. apply repeat_spec in HEz. subst Ez.
  split; [simpl; lia |].
  repeat constructor; simpl; lia.
Defined.

Lemma picocoulomb_nonzero : ~ 1 # 1000000000000 == 0.
Proof. unfold Qeq; simpl; lia. Defined.

Lemma numeric_part_returns_witness :
  (3 <= length (t Examples.data6))%nat /\
  py_max (z Examples.data6) = Ok c /\ py_min (z Examples.data6) = Ok 0 /\
  0 < 1 - 0 /\ 0 <= Wake_length 6 1 c 0 2 /\
  exists WP_3d s,
    calc_long_WP_numeric Examples.data6 Examples.hf6 = Ok (WP_3d, s) /\
    has_shape_3_3 WP_3d (length s).
Proof.
  assert (H1 : (3 <= length (t Examples.data6))%nat) by (simpl; lia).
  assert (H2 : py_max (z Examples.data6) = Ok c) by reflexivity.
  assert (H3 : py_min (z Examples.data6) = Ok 0) by reflexivity.
  assert (H4 : 0 < 1 - 0) by reflexivity.
  assert (H5 : 0 <= Wake_length 6 1 c 0 2) by (unfold Qle; simpl; lia).
  repeat (split; [assumption |]).
  destruct (numeric_part_returns Examples.data6 Examples.hf6 c 0 H1 H2 H3)
    as (WP_3d & s & E & _ & Hshape).
  - reflexivity.
  - unfold Qle; simpl; lia.
  - unfold Qle; simpl; lia.
  - exact H5.
  - exact picocoulomb_nonzero.
  - simpl; lia.
  - exact (uniform_snapshots_ok 6).
  - exists WP_3d, s. split; assumption.
Defined.



(** [calc_long_WP] and the names it reads.  With the names bound and the
    file read, it is its numerical part on the snapshots of the file. *)
Lemma calc_long_WP_bound (g : globals) (h5 : String.string -> result (list snapshot))
    (data : metadata) (u : Q) (folder name : String.string) (hf : list snapshot) :
  unit g = Some u -> out_folder g = Some folder -> h5_name g = Some name ->
  h5 (String.append folder name) = Ok hf ->
  calc_long_WP g h5 data = calc_long_WP_numeric data hf.
Proof.
  intros Hu Hfolder Hname Hread.
  unfold calc_long_WP, calc_long_WP_numeric, read_Ez.
  rewrite Hu, Hfolder, Hname; cbn [global bind]. rewrite Hread; cbn [bind].
  destruct (derive data) as [p | e]; reflexivity.
Qed.

(** [calc_long_WP] never returns while one of [out_folder], [h5_name] and
    [unit] is unbound: without the first two the call of [read_Ez] raises
    [NameError], which is what the module as it is does on every input;
    without [unit] the call ends with the exception of the file reading or
    of the derived quantities, or with [NameError] at the second [print].
    With the three names bound and the file read, it is its numerical part
    on the snapshots of the file. *)
Theorem calc_long_WP_names (g : globals) (h5 : String.string -> result (list snapshot))
    (data : metadata) :
  calc_long_WP as_shipped h5 data = Raise NameError /\
  (out_folder g = None \/ h5_name g = None ->
     calc_long_WP g h5 data = Raise NameError) /\
  (unit g = None -> forall r, calc_long_WP g h5 data <> Ok r) /\
  (forall u folder name hf,
     unit g = Some u -> out_folder g = Some folder -> h5_name g = Some name ->
     h5 (String.append folder name) = Ok hf ->
     calc_long_WP g h5 data = calc_long_WP_numeric data hf).
Proof.
  split; [reflexivity |].
  split; [| split].
  - intros H. unfold calc_long_WP, read_Ez.
    destruct (out_folder g) as [folder |]; [| reflexivity].
    destruct H as [H | H]; [discriminate |].
    rewrite H. reflexivity.
  - intros Hu r. unfold calc_long_WP.
    destruct (read_Ez g h5) as [hf | e]; cbn [bind]; [| discriminate].
    destruct (derive data) as [p | e]; cbn [bind]; [| discriminate].
    rewrite Hu. discriminate.
  - intros u folder name hf. apply calc_long_WP_bound.
Qed.

Lemma calc_long_WP_names_witness :
  calc_long_WP as_shipped (fun _ => Ok Examples.hf3) Examples.data3 = Raise NameError /\
  calc_long_WP Examples.names_bound (fun _ => Ok Examples.hf3) Examples.data3
  = calc_long_WP_numeric Examples.data3 Examples.hf3.
Proof.
  destruct (calc_long_WP_names Examples.names_bound (fun _ => Ok Examples.hf3)
              Examples.data3) as (Hshipped & _ & _ & Hbound).
  split; [exact Hshipped |].
  exact (Hbound _ _ _ _ eq_refl eq_refl eq_refl eq_refl).
Defined.

End LongitudinalTotal.

(** ** The slices of the first two offsets *)

Section OffsetLoop.

Import Wake.

Lemma set_slice_frame (WP_3d : list (list (list Q))) (m : nat) (a b : nat) (WP : list Q) :
  has_shape_3_3 WP_3d m -> length WP = m -> (a <= 2)%nat -> (b <= 2)%nat ->
  exists WP_3d',
    set_slice WP_3d (Z.of_nat a) (Z.of_nat b) WP = Ok WP_3d' /\
    has_shape_3_3 WP_3d' m /\
    nth b (nth a WP_3d' []) [] = WP /\
    forall a' b', a' <> a \/ b' <> b ->
      nth b' (nth a' WP_3d' []) [] = nth b' (nth a' WP_3d []) [].
Proof.
  intros Hshape HWP Ha Hb.
  destruct (has_shape_3_3_inv WP_3d m Hshape)
    as (a00 & a01 & a02 & a10 & a11 & a12 & a20 & a21 & a22 & -> & Hlens).
  repeat match goal with
         | H : Forall _ (_ :: _) |- _ => inversion H; subst; clear H
         end.
  destruct a as [| [| [| a]]]; [| | | lia];
    (destruct b as [| [| [| b]]]; [| | | lia]);
    unfold set_slice;
    match goal with
    | |- context [getitem ?l ?i] =>
        let r := eval vm_compute in (getitem l i) in
        change (getitem l i) with r; cbn [bind]
    end;
    match goal with
    | |- context [getitem ?l ?i] =>
        let r := eval vm_compute in (getitem l i) in
        change (getitem l i) with r; cbn [bind]
    end;
    match goal with
    | |- context [Nat.eqb (length ?old) (length ?new)] =>
        replace (length old) with (length new) by congruence;
        rewrite Nat.eqb_refl
    end;
    (eexists; split; [reflexivity |]);
    (split; [split; [reflexivity | repeat constructor; congruence] |]);
    (split; [reflexivity |]);
    intros a' b' Hne;
    destruct a' as [| [| [| a']]]; destruct b' as [| [| [| b']]];
    try reflexivity; exfalso; destruct Hne as [Hne | Hne]; apply Hne; reflexivity.
Qed.

Lemma for_each_cons {A S : Type} (x : A) (xs : list A) (body : S -> A -> result S)
    (acc : S) :
  for_each (x :: xs) body acc = (acc' <- body acc x ;; for_each xs body acc').
Proof. reflexivity. Qed.

Variables (data : metadata) (hf : list snapshot) (zmax zmin : Q).

Local Abbreviation nt := (length (t data)).
Local Abbreviation dt := (nth 2 (t data) 0 - nth 1 (t data) 0).
Local Abbreviation wl := (Wake_length nt dt zmax zmin (init_time data)).

Hypothesis three_samples : (3 <= length (t data))%nat.
Hypothesis z_max : py_max (z data) = Ok zmax.
Hypothesis z_min : py_min (z data) = Ok zmin.
Hypothesis dt_pos : 0 < dt.
Hypothesis t_0_nonneg : 0 <= nth 0 (t data) 0.
Hypothesis t_inj_nonneg : 0 <= init_time data.
Hypothesis wl_nonneg : 0 <= wl.
Hypothesis q_nonzero : ~ q data == 0.
Hypothesis enough_snapshots : (nt <= length hf)%nat.
Hypothesis snapshots_ok : Forall (snapshot_ok (length (z data))) hf.

(** One pass of the loop over the offsets, from a state of the right
    shape. *)
Lemma offset_step (p : setup) (WP : list Q) (W : list (list (list Q))) (a b : nat) :
  derive data = Ok p ->
  length WP = length (s p) -> has_shape_3_3 W (length (s p)) ->
  (a <= 2)%nat -> (b <= 2)%nat ->
  exists WP' W',
    offset_WP data hf p WP (Z.of_nat a - 1) (Z.of_nat b - 1) = Ok WP' /\
    offset_body data hf p (WP, W) (Z.of_nat a - 1, Z.of_nat b - 1)%Z = Ok (WP', W') /\
    length WP' = length (s p) /\ has_shape_3_3 W' (length (s p)) /\
    nth b (nth a W' []) [] = WP' /\
    forall a' b', a' <> a \/ b' <> b ->
      nth b' (nth a' W' []) [] = nth b' (nth a' W []) [].
Proof.
  intros Ep HWP HW Ha Hb.
  destruct (derive_ok data zmax zmin three_samples z_max z_min dt_pos t_inj_nonneg
              wl_nonneg) as (zi & s & Ezi & Es & Ederive).
  rewrite Ep in Ederive. injection Ederive as ->.
  cbn [Wake.s] in HWP, HW |- *.
  destruct (build_s_bounds (init_time data) dt wl t_inj_nonneg dt_pos wl_nonneg)
    as (s' & Es' & Hs).
  rewrite Es in Es'. injection Es' as <-.
  pose proof (py_min_le_py_max _ _ _ z_min z_max) as Hz.
  pose proof (linspace_range _ _ _ _ Hz Ezi) as Hzi.
  destruct (linspace_nth zmin zmax (Z.of_nat nt) ltac:(lia)) as (zi' & Ezi' & Lzi & _).
  rewrite Ezi in Ezi'. injection Ezi' as <-. rewrite Nat2Z.id in Lzi.
  assert (Hznon : (1 <= length (z data))%nat).
  { destruct (z data); [discriminate | simpl; lia]. }
  unfold offset_body, offset_WP.
  cbn [Wake.nt Wake.dt Wake.zmin Wake.zi Wake.dzi Wake.s Wake.t_0].
  destruct (build_Ezi_ok hf zi (z data) nt (Z.of_nat a - 1) (Z.of_nat b - 1)
              enough_snapshots snapshots_ok Hznon ltac:(lia) ltac:(lia))
    as (Ezi_ij & EE & LE & FE).
  rewrite EE; cbn [bind].
  destruct (s_loop_ok Ezi_ij zi s nt dt zmax zmin (init_time data)
              (nth 0 (t data) 0) (nth 2 zi 0 - nth 1 zi 0)) with (WP := WP)
    as (WP1 & E1 & L1); try assumption.
  { rewrite Lzi in FE. exact FE. }
  { intros k Hk. apply Hzi. lia. }
  { intros n Hn. apply Hs. exact Hn. }
  rewrite E1; cbn [bind].
  destruct (normalize_ok (q data) WP1 q_nonzero) as (WP2 & E2 & L2).
  rewrite E2; cbn [bind].
  destruct (set_slice_frame W (length s) a b WP2 HW ltac:(lia) Ha Hb)
    as (W' & E3 & H3 & Hput & Hframe).
  replace (i0 + (Z.of_nat a - 1))%Z with (Z.of_nat a) by (unfold i0; lia).
  replace (j0 + (Z.of_nat b - 1))%Z with (Z.of_nat b) by (unfold j0; lia).
  rewrite E3; cbn [bind].
  exists WP2, W'.
  split; [reflexivity |]. split; [reflexivity |].
  split; [lia |]. split; [exact H3 |]. split; [exact Hput | exact Hframe].
Qed.

Lemma slice_at (W : list (list (list Q))) (m : nat) (a b : nat) :
  has_shape_3_3 W m -> (a <= 2)%nat -> (b <= 2)%nat ->
  (row <- getitem W (Z.of_nat a) ;; getitem row (Z.of_nat b))
  = Ok (nth b (nth a W []) []).
Proof.
  intros Hshape Ha Hb.
  destruct (has_shape_3_3_inv W m Hshape)
    as (a00 & a01 & a02 & a10 & a11 & a12 & a20 & a21 & a22 & -> & _).
  destruct a as [| [| [| a]]]; [| | | lia];
    (destruct b as [| [| [| b]]]; [| | | lia]); reflexivity.
Qed.

(** On well-formed input the slice that the numerical part of
    [calc_long_WP] (lines 196-268 without the prints) builds for the
    first offset [(-1, -1)] is the result of the per-offset algorithm, and
    the slice of the second offset [(-1, 0)] is the result of the same loop
    body started from the first slice instead of zeros; the later offsets
    leave both slices as they are. *)
Theorem first_two_slices :
  exists p first second,
    derive data = Ok p /\
    offset_alone data hf (-1) (-1) = Ok first /\
    slice_of data hf (-1) (-1) = Ok first /\
    offset_WP data hf p first (-1) 0 = Ok second /\
    slice_of data hf (-1) 0 = Ok second.
Proof.
  destruct (derive_ok data zmax zmin three_samples z_max z_min dt_pos t_inj_nonneg
              wl_nonneg) as (zi & s & _ & _ & Ederive).
  set (p := {| Wake.nt := nt; Wake.dt := dt; Wake.zmin := zmin; Wake.zi := zi;
               Wake.dzi := nth 2 zi 0 - nth 1 zi 0; Wake.s := s;
               Wake.t_0 := nth 0 (t data) 0 |}) in *.
  assert (Ls : Wake.s p = s) by reflexivity.
  set (WP0 := zeros (length s)).
  set (W0 := repeat (repeat (zeros (length s)) 3) 3).
  destruct (offset_step p WP0 W0 0 0 Ederive)
    as (WP1 & W1 & Ealone & Estep1 & L1 & S1 & P1 & _);
    [rewrite Ls; apply repeat_length | rewrite Ls; apply initial_shape | lia | lia |].
  destruct (offset_step p WP1 W1 0 1 Ederive L1 S1)
    as (WP2 & W2 & Esecond & Estep2 & L2 & S2 & P2 & F2); [lia | lia |].
  change (Z.of_nat 0 - 1)%Z with (-1)%Z in *.
  change (Z.of_nat 1 - 1)%Z with 0%Z in *.
  assert (P1' : nth 0 (nth 0 W2 []) [] = WP1).
  { rewrite (F2 0%nat 0%nat) by (right; lia). exact P1. }
  destruct (for_each_invariant
              (fun st : list Q * list (list (list Q)) =>
                 length (fst st) = length (Wake.s p) /\
                 has_shape_3_3 (snd st) (length (Wake.s p)) /\
                 nth 0 (nth 0 (snd st) []) [] = WP1 /\
                 nth 1 (nth 0 (snd st) []) [] = WP2)
              [(-1, 1); (0, -1); (0, 0); (0, 1); (1, -1); (1, 0); (1, 1)]%Z
              (offset_body data hf p))
    with (acc := (WP2, W2))
    as ([WP9 W9] & Erest & _ & S9 & P9 & Q9).
  - intros [WP W] ij Hij (HWP & HW & H00 & H01). cbn [fst snd] in *.
    assert (Hab : exists a b, ij = (Z.of_nat a - 1, Z.of_nat b - 1)%Z /\
                              (a <= 2)%nat /\ (b <= 2)%nat /\ (a <> 0 \/ b = 2)%nat).
    { simpl in Hij.
      destruct Hij as [<- | [<- | [<- | [<- | [<- | [<- | [<- | []]]]]]]];
        [exists 0%nat, 2%nat | exists 1%nat, 0%nat | exists 1%nat, 1%nat
         | exists 1%nat, 2%nat | exists 2%nat, 0%nat | exists 2%nat, 1%nat
         | exists 2%nat, 2%nat];
        repeat split; try reflexivity; lia. }
    destruct Hab as (a & b & -> & Ha & Hb & Hother).
    destruct (offset_step p WP W a b Ederive HWP HW Ha Hb)
      as (WP' & W' & _ & Estep & L' & S' & _ & F').
    exists (WP', W'). split; [exact Estep |]. cbn [fst snd].
    split; [exact L' |]. split; [exact S' |].
    split; [rewrite F' by lia; exact H00 | rewrite F' by lia; exact H01].
  - cbn [fst snd].
    split; [exact L2 |]. split; [exact S2 |]. split; [exact P1' | exact P2].
  - cbn [snd] in S9, P9, Q9.
    assert (Erun : calc_long_WP_numeric data hf = Ok (W9, s)).
    { unfold calc_long_WP_numeric. rewrite Ederive; cbn [bind]. rewrite Ls.
      change offsets with ((-1, -1) :: (-1, 0)
        :: [(-1, 1); (0, -1); (0, 0); (0, 1); (1, -1); (1, 0); (1, 1)])%Z.
      fold W0. fold WP0.
      rewrite for_each_cons, Estep1; cbn [bind].
      rewrite for_each_cons, Estep2; cbn [bind].
      rewrite Erest. reflexivity. }
    exists p, WP1, WP2.
    split; [exact Ederive |]. split.
    { unfold offset_alone. rewrite Ederive; cbn [bind]. rewrite Ls. exact Ealone. }
    split.
    { unfold slice_of. rewrite Erun; cbn [bind].
      change (i0 + -1)%Z with (Z.of_nat 0). change (j0 + -1)%Z with (Z.of_nat 0).
      rewrite (slice_at W9 _ 0 0 S9) by lia. rewrite P9. reflexivity. }
    split; [exact Esecond |].
    unfold slice_of. rewrite Erun; cbn [bind].
    change (i0 + -1)%Z with (Z.of_nat 0). change (j0 + 0)%Z with (Z.of_nat 1).
    rewrite (slice_at W9 _ 0 1 S9) by lia. rewrite Q9. reflexivity.
Qed.

End OffsetLoop.

Section OffsetLoopExamples.

Import Wake.

Lemma first_two_slices_witness :
  (3 <= length (t Examples.data3))%nat /\
  py_max (z Examples.data3) = Ok c /\ py_min (z Examples.data3) = Ok 0 /\
  exists p first second,
    derive Examples.data3 = Ok p /\
    slice_of Examples.data3 Examples.hf3 (-1) (-1) = Ok first /\
    offset_WP Examples.data3 Examples.hf3 p first (-1) 0 = Ok second /\
    slice_of Examples.data3 Examples.hf3 (-1) 0 = Ok second.
Proof.
  assert (H1 : (3 <= length (t Examples.data3))%nat) by (simpl; lia).
  assert (H2 : py_max (z Examples.data3) = Ok c) by reflexivity.
  assert (H3 : py_min (z Examples.data3) = Ok 0) by reflexivity.
  repeat (split; [assumption |]).
  destruct (first_two_slices Examples.data3 Examples.hf3 c 0 H1 H2 H3)
    as (p & first & second & E1 & _ & E2 & E3 & E4).
  - reflexivity.
  - unfold Qle; simpl; lia.
  - unfold Qle; simpl; lia.
  - unfold Qle; simpl; lia.
  - exact picocoulomb_nonzero.
  - simpl; lia.
  - exact (uniform_snapshots_ok 3).
  - exists p, first, second. repeat split; assumption.
Defined.

End OffsetLoopExamples.

(** ** The wake potential of a vanishing field *)

Section ZeroField.

Import Wake.

Lemma for_each_preserves {A S : Type} (P : S -> Prop) (xs : list A)
    (body : S -> A -> result S) :
  (forall acc x acc', body acc x = Ok acc' -> P acc -> P acc') ->
  forall acc acc', for_each xs body acc = Ok acc' -> P acc -> P acc'.
Proof.
  intros Hbody. induction xs as [| x xs IH]; intros acc acc' E Hacc; simpl in E.
  - injection E as <-. exact Hacc.
  - destruct (body acc x) as [acc1 |] eqn:E1; [| discriminate].
    cbn [bind] in E. apply (IH acc1 acc' E). exact (Hbody acc x acc1 E1 Hacc).
Qed.

Lemma map_result_preserves {A B : Type} (P : A -> Prop) (R : B -> Prop)
    (f : A -> result B) (xs : list A) :
  (forall x y, f x = Ok y -> P x -> R y) ->
  forall ys, map_result f xs = Ok ys -> Forall P xs -> Forall R ys.
Proof.
  intros Hf. induction xs as [| x xs IH]; intros ys E HP; simpl in E.
  - injection E as <-. constructor.
  - destruct (f x) as [y |] eqn:Ey; [| discriminate]. cbn [bind] in E.
    destruct (map_result f xs) as [ys' |] eqn:Eys; [| discriminate].
    cbn [bind] in E. injection E as <-.
    inversion HP; subst.
    constructor; [apply (Hf x y Ey); assumption | apply IH; [reflexivity | assumption]].
Qed.

Lemma getitem_In {A : Type} (l : list A) (i : Z) (a : A) :
  getitem l i = Ok a -> In a l.
Proof.
  unfold getitem. destruct (_ && _)%bool; [| discriminate].
  destruct (nth_error l _) as [x |] eqn:E; [| discriminate].
  intros H; injection H as <-. exact (nth_error_In _ _ E).
Qed.

Lemma Forall_split_at {A : Type} (P : A -> Prop) (n : nat) (l : list A) :
  Forall P l -> Forall P (firstn n l) /\ Forall P (skipn n l).
Proof.
  intros H. rewrite <- (firstn_skipn n l) in H. apply Forall_app in H. exact H.
Qed.

Lemma setitem_Forall {A : Type} (P : A -> Prop) (l l' : list A) (i : Z) (v : A) :
  setitem l i v = Ok l' -> Forall P l -> P v -> Forall P l'.
Proof.
  unfold setitem. destruct (_ && _)%bool; [| discriminate].
  set (j := Z.to_nat (if (i <? 0)%Z then (i + Z.of_nat (length l))%Z else i)).
  intros H Hl Hv.
  assert (E : l' = firstn j l ++ v :: skipn (S j) l) by congruence.
  rewrite E.
  apply Forall_app; split; [exact (proj1 (Forall_split_at P j l Hl)) |].
  constructor; [exact Hv | exact (proj2 (Forall_split_at P (S j) l Hl))].
Qed.

Lemma interp_from_zero (v : Q) (xp : list Q) :
  forall fp, Forall is_zero fp -> interp_from v xp fp == 0.
Proof.
  induction xp as [| x0 xp IH]; intros fp Hfp.
  - destruct fp as [| f0 fp]; simpl; [reflexivity |].
    inversion Hfp; subst; assumption.
  - destruct fp as [| f0 fp]; [destruct xp; reflexivity |].
    inversion Hfp as [| ? ? H0 Hfp']; subst.
    destruct xp as [| x1 xp]; [simpl; exact H0 |].
    destruct fp as [| f1 fp]; [simpl; exact H0 |].
    inversion Hfp' as [| ? ? H1 _]; subst.
    change (interp_from v (x0 :: x1 :: xp) (f0 :: f1 :: fp))
      with (if Qlt_le_dec v x1
            then if Qeq_bool v x0 then f0 else (f1 - f0) / (x1 - x0) * (v - x0) + f0
            else interp_from v (x1 :: xp) (f1 :: fp)).
    destruct (Qlt_le_dec v x1).
    + destruct (Qeq_bool v x0); [exact H0 |].
      unfold is_zero in H0, H1. rewrite H0, H1. unfold Qdiv. ring.
    + apply IH. exact Hfp'.
Qed.

Lemma interp_zero (x xp line ys : list Q) :
  interp x xp line = Ok ys -> Forall is_zero line -> Forall is_zero ys.
Proof.
  unfold interp. destruct xp as [| x0 xp]; [discriminate |].
  destruct line as [| f0 line]; [discriminate |].
  destruct (Nat.eqb _ _); [| discriminate].
  intros H Hline; injection H as <-.
  apply Forall_forall; intros y Hy. apply in_map_iff in Hy as (v & <- & _).
  destruct (Qlt_le_dec v x0).
  - inversion Hline; subst; assumption.
  - exact (interp_from_zero v (x0 :: xp) (f0 :: line) Hline).
Qed.

Lemma build_Ezi_zero (hf : list snapshot) (zi z : list Q) (nt : nat) (i j : Z)
    (Ezi : list (list Q)) :
  zero_field hf -> build_Ezi hf zi z nt i j = Ok Ezi -> Forall (Forall is_zero) Ezi.
Proof.
  intros Hhf E. unfold build_Ezi in E.
  apply (map_result_preserves (fun _ => True) (Forall is_zero) _ _) with (ys := Ezi) in E;
    [exact E | | apply Forall_forall; intros; exact I].
  intros n col Ecol _.
  destruct (getitem hf n) as [Ez |] eqn:EEz; [| discriminate]. cbn [bind] in Ecol.
  destruct (getitem Ez (i0 + i)%Z) as [plane |] eqn:Ep; [| discriminate].
  cbn [bind] in Ecol.
  destruct (getitem plane (j0 + j)%Z) as [line |] eqn:El; [| discriminate].
  cbn [bind] in Ecol.
  apply getitem_In in EEz, Ep, El.
  unfold zero_field in Hhf. rewrite Forall_forall in Hhf.
  pose proof (Hhf Ez EEz) as HEz. rewrite Forall_forall in HEz.
  pose proof (HEz plane Ep) as Hplane. rewrite Forall_forall in Hplane.
  exact (interp_zero _ _ _ _ Ecol (Hplane line El)).
Qed.

Lemma k_body_zero (Ezi : list (list Q)) (zi s : list Q) (zmin t_0 t_inj dt dzi : Q)
    (n : Z) (WP WP' : list Q) (k : Z) :
  Forall (Forall is_zero) Ezi ->
  k_body Ezi zi s zmin t_0 t_inj dt dzi n WP k = Ok WP' ->
  Forall is_zero WP -> Forall is_zero WP'.
Proof.
  intros HEzi E HWP. unfold k_body in E.
  destruct (getitem zi k) as [zi_k |]; [| discriminate]. cbn [bind] in E.
  destruct (getitem s n) as [s_n |]; [| discriminate]. cbn [bind] in E.
  destruct (Qlt_le_dec 0 _); [| injection E as <-; exact HWP].
  destruct (int_quot _ dt) as [i |]; [| discriminate]. cbn [bind] in E.
  unfold accumulate_at, Ezi_at in E.
  destruct (getitem WP n) as [w |] eqn:Ew; [| discriminate]. cbn [bind] in E.
  destruct (getitem Ezi (i - 1)) as [col |] eqn:Ecol; [| discriminate].
  cbn [bind] in E.
  destruct (getitem col k) as [e |] eqn:Ee; [| discriminate]. cbn [bind] in E.
  apply getitem_In in Ew, Ecol, Ee.
  rewrite Forall_forall in HEzi. pose proof (HEzi col Ecol) as Hcol.
  rewrite Forall_forall in Hcol. pose proof (Hcol e Ee) as He.
  pose proof HWP as HWP'. rewrite Forall_forall in HWP'. pose proof (HWP' w Ew) as Hw.
  apply (setitem_Forall is_zero _ _ _ _ E HWP).
  unfold is_zero in *. rewrite Hw, He. ring.
Qed.

Lemma offset_body_zero (data : metadata) (hf : list snapshot) (p : setup)
    (st st' : list Q * list (list (list Q))) (ij : Z * Z) :
  zero_field hf ->
  offset_body data hf p st ij = Ok st' ->
  Forall is_zero (fst st) /\ Forall (Forall (Forall is_zero)) (snd st) ->
  Forall is_zero (fst st') /\ Forall (Forall (Forall is_zero)) (snd st').
Proof.
  intros Hhf E [HWP HW]. destruct st as [WP W], ij as [i j]. cbn [fst snd] in *.
  unfold offset_body, offset_WP in E.
  destruct (build_Ezi _ _ _ _ _ _) as [Ezi |] eqn:EE; [| discriminate].
  cbn [bind] in E.
  pose proof (build_Ezi_zero _ _ _ _ _ _ _ Hhf EE) as HEzi.
  destruct (s_loop _ _ _ _ _ _ _ _ _ _) as [WP1 |] eqn:E1; [| discriminate].
  cbn [bind] in E.
  assert (H1 : Forall is_zero WP1).
  { unfold s_loop in E1.
    apply (for_each_preserves (Forall is_zero) _ _) with (acc' := WP1) in E1;
      [exact E1 | | exact HWP].
    intros acc n acc' Ein Hacc.
    apply (for_each_preserves (Forall is_zero) _ _) with (acc' := acc') in Ein;
      [exact Ein | | exact Hacc].
    intros acc0 k acc0' Ek Hacc0. exact (k_body_zero _ _ _ _ _ _ _ _ _ _ _ _ HEzi Ek Hacc0). }
  destruct (normalize (q data) WP1) as [WP2 |] eqn:E2; [| discriminate].
  cbn [bind] in E.
  assert (H2 : Forall is_zero WP2).
  { unfold normalize in E2.
    apply (map_result_preserves is_zero is_zero _ _) with (ys := WP2) in E2;
      [exact E2 | | exact H1].
    intros w y Ey Hw. unfold np_div in Ey.
    destruct (Qeq_bool _ 0); [discriminate |]. injection Ey as <-.
    unfold is_zero in *. rewrite Hw. unfold Qdiv. ring. }
  destruct (set_slice W _ _ WP2) as [W' |] eqn:E3; [| discriminate].
  cbn [bind] in E. injection E as <-. cbn [fst snd].
  split; [exact H2 |].
  unfold set_slice in E3.
  destruct (getitem W (i0 + i)%Z) as [row |] eqn:Er; [| discriminate].
  cbn [bind] in E3.
  destruct (getitem row (j0 + j)%Z) as [old |]; [| discriminate].
  cbn [bind] in E3.
  destruct (Nat.eqb _ _); [| discriminate].
  destruct (setitem row _ WP2) as [row' |] eqn:Er'; [| discriminate].
  cbn [bind] in E3.
  apply getitem_In in Er.
  pose proof HW as HW'. rewrite Forall_forall in HW'.
  apply (setitem_Forall _ _ _ _ _ E3 HW).
  apply (setitem_Forall _ _ _ _ _ Er' (HW' row Er)). exact H2.
Qed.

Lemma zeros_are_zero (n : nat) : Forall is_zero (zeros n).
Proof.
  apply Forall_forall; intros x Hx. apply repeat_spec in Hx. subst x. reflexivity.
Qed.

(** Without a field there is no wake: on well-formed input whose snapshots
    vanish everywhere, every entry of the array built by the numerical part
    of [calc_long_WP] (lines 196-268 without the prints) is zero. *)
Theorem numeric_part_zero_field (data : metadata) (hf : list snapshot) (zmax zmin : Q) :
  (3 <= length (t data))%nat ->
  py_max (z data) = Ok zmax -> py_min (z data) = Ok zmin ->
  let nt := length (t data) in
  let dt := nth 2 (t data) 0 - nth 1 (t data) 0 in
  let wl := Wake_length nt dt zmax zmin (init_time data) in
  0 < dt -> 0 <= nth 0 (t data) 0 -> 0 <= init_time data -> 0 <= wl ->
  ~ q data == 0 ->
  (nt <= length hf)%nat -> Forall (snapshot_ok (length (z data))) hf ->
  zero_field hf ->
  exists WP_3d s,
    calc_long_WP_numeric data hf = Ok (WP_3d, s) /\
    has_shape_3_3 WP_3d (length s) /\
    Forall (Forall (Forall is_zero)) WP_3d.
Proof.
  intros Ht Hmax Hmin nt dt wl Hdt Ht0 Hinj Hwl Hq Hhf Hsnap Hzero.
  destruct (calc_long_WP_numeric_ok data hf zmax zmin Ht Hmax Hmin Hdt Ht0 Hinj Hwl Hq Hhf Hsnap)
    as (WP_3d & s & Erun & _ & Hshape).
  exists WP_3d, s. split; [exact Erun |]. split; [exact Hshape |].
  unfold calc_long_WP_numeric in Erun.
  destruct (derive data) as [p |]; [| discriminate]. cbn [bind] in Erun.
  destruct (for_each offsets _ _) as [[WP W] |] eqn:Eloop; [| discriminate].
  cbn [bind] in Erun. injection Erun as <- _.
  apply (for_each_preserves
           (fun st : list Q * list (list (list Q)) =>
              Forall is_zero (fst st) /\ Forall (Forall (Forall is_zero)) (snd st))
           _ _) with (acc' := (WP, W)) in Eloop.
  - exact (proj2 Eloop).
  - intros acc ij acc' E Hacc. exact (offset_body_zero data hf p acc acc' ij Hzero E Hacc).
  - cbn [fst snd]. split; [apply zeros_are_zero |].
    repeat constructor; apply zeros_are_zero.
Qed.

Lemma zero_snapshots_ok (n : nat) :
  Forall (snapshot_ok 2) (repeat Examples.zero_snapshot n).
Proof.
  apply Forall_forall; intros Ez HEz. apply repeat_spec in HEz. subst Ez.
  split; [simpl; lia |].
  repeat constructor; simpl; lia.
Defined.

Lemma zero_snapshots_vanish (n : nat) : zero_field (repeat Examples.zero_snapshot n).
Proof.
  apply Forall_forall; intros Ez HEz. apply repeat_spec in HEz. subst Ez.
  repeat constructor.
Defined.

Lemma numeric_part_zero_field_witness :
  (3 <= length (t Examples.data3))%nat /\
  py_max (z Examples.data3) = Ok c /\ py_min (z Examples.data3) = Ok 0 /\
  zero_field (repeat Examples.zero_snapshot 3) /\
  exists WP_3d s,
    calc_long_WP_numeric Examples.data3 (repeat Examples.zero_snapshot 3) = Ok (WP_3d, s) /\
    Forall (Forall (Forall is_zero)) WP_3d.
Proof.
  assert (H1 : (3 <= length (t Examples.data3))%nat) by (simpl; lia).
  assert (H2 : py_max (z Examples.data3) = Ok c) by reflexivity.
  assert (H3 : py_min (z Examples.data3) = Ok 0) by reflexivity.
  assert (H4 : zero_field (repeat Examples.zero_snapshot 3))
    by exact (zero_snapshots_vanish 3).
  repeat (split; [assumption |]).
  destruct (numeric_part_zero_field Examples.data3 (repeat Examples.zero_snapshot 3)
              c 0 H1 H2 H3)
    as (WP_3d & s & E & _ & Hz).
  - reflexivity.
  - unfold Qle; simpl; lia.
  - unfold Qle; simpl; lia.
  - unfold Qle; simpl; lia.
  - exact picocoulomb_nonzero.
  - simpl; lia.
  - exact (zero_snapshots_ok 3).
  - exact H4.
  - exists WP_3d, s. split; assumption.
Defined.

End ZeroField.

(** ** The normalization of the fixed-size transform *)

Section PackedScaling.

Import Spectral.

Variable rfft_coef : list Q -> nat -> nat -> Q.
Variable np_sqrt : Q -> Q.

(** When the grid [np.arange(0, T, dt)] has as many points as the signal,
    every amplitude returned by [DFT], the DC one included, is the unpacked
    coefficient times [K] over [Ns/2], real and imaginary part alike:
    [Xf[0] = K*c[0]/(Ns/2)] and [Xf[m] = K*(c[2m-1] + 1j*c[2m])/(Ns/2)], where
    [c] holds the [Nf] packed coefficients of the resampled signal [Xs],
    [K = sqrt(Et/Ef)], [Et] is the sum of the squares of [Xs] and
    [Ef = (c[0]**2 + 2*sum(c[1:]**2))/Nf]. *)
Theorem DFT_amplitude_scaling (Xt : list Q) (dt : Q) (fmax : option Q) (Nf : Z) :
  (2 <= length Xt)%nat -> 0 < dt -> (forall f, fmax = Some f -> 0 < f) -> (1 <= Nf)%Z ->
  length (arange0 (fl (inject_Z (Z.of_nat (length Xt)) * dt)) dt) = length Xt ->
  exists fm Xs Ns dts Xf f,
    default_fmax fmax dt = Ok fm /\
    DFT_resample Xt dt fm = Ok (Xs, Ns, dts) /\
    DFT rfft_coef np_sqrt Xt dt fmax Nf = Ok (Xf, f) /\
    let c := rfft_coef Xs (Z.to_nat Nf) in
    let Et := fold_left Qplus (map (fun x => Qabs x * Qabs x) Xs) 0 in
    let Ef := (c 0%nat * c 0%nat
               + 2 * fold_left Qplus
                       (map (fun k => c k * c k) (seq 1 (Z.to_nat Nf - 1))) 0)
              / inject_Z Nf in
    let K := np_sqrt (Et / Ef) in
    length Xf = Z.to_nat ((Nf + 1) / 2) /\
    (~ Ef == 0 ->
     nth 0 Xf None = Some (K * c 0%nat / (Ns / 2), K * 0 / (Ns / 2)) /\
     forall m, (1 <= m < length Xf)%nat ->
       nth m Xf None
       = Some (K * c (2 * m - 1)%nat / (Ns / 2), K * c (2 * m)%nat / (Ns / 2))).
Proof.
  intros HXt Hdt Hfmax HNf Hgrid.
  destruct (default_fmax_ok fmax dt Hdt Hfmax) as (fm & Efm & Hfm).
  destruct (DFT_resample_ok Xt dt fm ltac:(lia) Hdt Hfm Hgrid) as (Xs & EXs & LXs).
  destruct (sampling_parameters (Z.of_nat (length Xt)) dt fm ltac:(lia) Hdt Hfm)
    as (_ & Hdts & _ & _ & _ & _ & _).
  set (dts := fl (1 / (2 * fm))) in *.
  set (Ns := inject_Z (Z.of_nat (length Xt)) / (dts / dt)) in *.
  destruct (Z.to_nat Nf) as [| n] eqn:En; [lia |].
  destruct (rfftfreq_ok (S n) dts ltac:(lia) Hdts) as (Hnd & Efreq).
  set (nd := inject_Z (Z.of_nat (S n)) * dts) in *.
  set (h := fun i : nat => inject_Z (Z.of_nat i / 2) / nd) in *.
  set (g := rfft_coef Xs (S n)).
  assert (Epack : fftpack_rfft rfft_coef Xs Nf = Ok (g 0%nat :: map g (seq 1 n))).
  { unfold fftpack_rfft.
    destruct (Z.ltb_spec Nf 1) as [Hlt | _]; [lia |].
    rewrite En. reflexivity. }
  assert (Lxs : length (map g (seq 1 n)) = n) by (rewrite length_map, length_seq; reflexivity).
  assert (Lfs : length (map h (seq 2 n)) = n) by (rewrite length_map, length_seq; reflexivity).
  destruct (DFT_unpack_closed (g 0%nat) (h 1%nat) (map g (seq 1 n)) (map h (seq 2 n)) Nf)
    as (Lre & Lim & Erun); [rewrite Lxs; exact En | rewrite Lxs, Lfs; reflexivity |].
  rewrite Lxs in Lre, Lim, Erun.
  set (n_re := if (Nf mod 2 =? 0)%Z then n else S n) in *.
  assert (Hn_re : (n <= n_re <= S n)%nat)
    by (unfold n_re; destruct (Nf mod 2 =? 0)%Z; lia).
  set (re := bool_index (g 0%nat :: map g (seq 1 n)) (map Nat.even (seq 1 n_re))) in *.
  set (im := bool_index (map g (seq 1 n)) (map Nat.even (seq 1 n))) in *.
  set (Z := (g 0%nat, 0) :: map (fun p : Q * Q => (fst p, snd p)) (combine re im)) in *.
  assert (LZ : length Z = S (n / 2)).
  { unfold Z. cbn [length]. rewrite length_map, length_combine, Lre, Lim. lia. }
  assert (ENf : Z.of_nat (S (length (map h (seq 2 n)))) = Nf) by (rewrite Lfs; lia).
  exists fm, Xs, Ns, dts.
  eexists; eexists.
  split; [exact Efm |]. split; [exact EXs |]. split.
  { unfold DFT. rewrite Efm; cbn [bind]. rewrite EXs; cbn [bind].
    rewrite Epack; cbn [bind].
    cbn [length]; rewrite Lxs, Efreq; cbn [bind seq map].
    rewrite getitem_first; cbn [bind].
    rewrite Erun. cbn [length tl]. rewrite ENf. reflexivity. }
  cbv zeta. fold g.
  replace (S n - 1)%nat with n by lia.
  unfold energy, np_sum. rewrite map_map.
  split; [rewrite length_map; unfold C in LZ |- *; rewrite LZ; lia |].
  intros HEf.
  unfold parseval_K. rewrite Qeq_bool_false_of_neq by exact HEf.
  split; [reflexivity |].
  intros m Hm. rewrite length_map in Hm.
  rewrite (nth_map_lt _ _ m (0, 0)) by (destruct Hm; assumption).
  cbn [option_map]. unfold Cdivq, Cscale. cbn [fst snd].
  destruct m as [| j]; [lia |].
  assert (Hj : (S j < S (n / 2))%nat) by (rewrite <- LZ; destruct Hm; assumption).
  unfold Z at 1 2. cbn [nth]. rewrite nth_pairs by (rewrite Lre, Lim; reflexivity).
  unfold re, im.
  rewrite !bool_index_parity_nth by (cbn [Nat.even length]; rewrite ?Lxs; lia).
  cbn [Nat.even fst snd].
  change (g 0%nat :: map g (seq 1 n)) with (map g (seq 0 (S n))).
  rewrite (nth_map_seq g (S n) (2 * j + 1) 0) by lia.
  rewrite (nth_map_lt g (seq 1 n) (2 * j + 1) 0%nat 0) by (rewrite length_seq; lia).
  rewrite seq_nth by lia.
  replace (2 * S j - 1)%nat with (2 * j + 1)%nat by lia.
  replace (2 * S j)%nat with (1 + (2 * j + 1))%nat by lia.
  reflexivity.
Qed.

End PackedScaling.

Section PackedScalingExamples.

Import Spectral.

Lemma DFT_amplitude_scaling_witness :
  (2 <= length Examples.Xt2)%nat /\ 0 < 1 /\ (1 <= 4)%Z /\
  length (arange0 (fl (inject_Z (Z.of_nat (length Examples.Xt2)) * 1)) 1)
  = length Examples.Xt2 /\
  exists Xf f,
    DFT Examples.rfft_small Examples.sqrt_exact Examples.Xt2 1 (Some (1 # 2)) 4
    = Ok (Xf, f) /\
    length Xf = 2%nat.
Proof.
  assert (H1 : (2 <= length Examples.Xt2)%nat) by (simpl; lia).
  assert (H2 : 0 < 1) by reflexivity.
  assert (H3 : (1 <= 4)%Z) by lia.
  pose proof grid_of_two as H4.
  repeat (split; [assumption |]).
  destruct (DFT_amplitude_scaling Examples.rfft_small Examples.sqrt_exact Examples.Xt2 1
              (Some (1 # 2)) 4 H1 H2 half_positive H3 H4)
    as (fm & Xs & Ns & dts & Xf & f & _ & _ & E & L & _).
  exists Xf, f. split; [exact E | exact L].
Defined.

End PackedScalingExamples.
